(** * keithley2400_mpp: Voc, JV and MPP tracking procedures for a Keithley 2400

    A shallow embedding of the Python package [keithley2400_mpp]
    (keithley2400_procedure.py, voc.py, jv.py, mpp_tracking.py) and of the
    orchestrating [main.py], together with the properties the design
    document states about them.

    Conventions.
    - Python floats are read as exact rationals ([Q]); integer parameters
      are [Z].  Comparisons are the numeric ones ([Qeq], [Qlt], [Qle]).
      Rounding is not modelled: a property that names a sum, a product or
      a quotient names the one operation the code performs, and the
      properties of whole computations rest on comparisons and on
      monotonicity only.
    - A procedure instance is its instance dictionary [attrs] (a finite map
      from the name-mangled attribute names to values); reading a missing
      attribute raises [AttributeError], as in Python.
    - The instrument, the wall clock and the stop flag are outside the
      package.  The clock and the stop flag are oracles indexed by the number
      of reads so far; every driver call is logged in [oplog] and may raise
      the exception the [fault] oracle holds for that call.
    - Exceptions keep the side effects made before they were raised: a
      computation is a function [World -> outcome A * World].
    - Loops that Python runs until a clock condition holds take a [gas]
      bound; [OutOfGas] is not a Python outcome. *)

From Stdlib Require Import QArith Qround Qabs Lqa ZArith Lia List String Ascii.
From stdpp Require Import base gmap strings list.
Import ListNotations.

Local Open Scope string_scope.
Local Open Scope list_scope.
Local Open Scope nat_scope.

(** ** Values, exceptions and the world *)

Inductive pyval : Type :=
| VNone
| VNum (q : Q)
| VElems (l : list string)
| VInstrument.

Inductive exn : Type :=
| AttributeError (what : string)
| TypeError (what : string)
| ValueError (what : string)
| RuntimeError (what : string)
| ZeroDivisionError
| InstrumentError (code : nat).

Inductive outcome (A : Type) : Type :=
| Ret (a : A)
| Raise (e : exn)
| OutOfGas.

Arguments Ret {A} a.
Arguments Raise {A} e.
Arguments OutOfGas {A}.

(** The calls the package makes on the pymeasure driver. *)
Inductive op : Type :=
| Connect (port : string)
| Reset
| UseFrontTerminals
| UseRearTerminals
| ApplyVoltage (voltage_range : option Q) (compliance_current : Q)
| MeasureVoltage
| ApplyCurrent (compliance_voltage : Q)
| SetSourceCurrent (i : Q)
| EnableSource
| GetSourceVoltage
| SetSourceVoltage (v : Q)
| ConfigBuffer (points : Z)
| StartBuffer
| WaitForBuffer
| ReadBuffer
| Write (cmd : string)
| WriteNum (cmd : string) (x : Q)
| Ask (cmd : string)
| Shutdown.

(** One emitted row: the dictionary handed to [emit('results', ...)]. *)
Definition row : Type := list (string * Q).

Record World : Type := mkWorld {
  attrs : gmap string pyval;
  clock : nat -> Q;
  clock_reads : nat;
  stop_signal : nat -> bool;
  polls : nat;
  source_voltage : Q;
  oplog : list op;
  fault : nat -> option exn;
  buffer_data : nat -> list Q;
  reply : nat -> string;
  emitted : list row
}.

Definition set_attrs (f : gmap string pyval -> gmap string pyval) (w : World) : World :=
  mkWorld (f (attrs w)) (clock w) (clock_reads w) (stop_signal w) (polls w)
          (source_voltage w) (oplog w) (fault w) (buffer_data w) (reply w) (emitted w).

Definition tick_clock (w : World) : World :=
  mkWorld (attrs w) (clock w) (S (clock_reads w)) (stop_signal w) (polls w)
          (source_voltage w) (oplog w) (fault w) (buffer_data w) (reply w) (emitted w).

Definition tick_polls (w : World) : World :=
  mkWorld (attrs w) (clock w) (clock_reads w) (stop_signal w) (S (polls w))
          (source_voltage w) (oplog w) (fault w) (buffer_data w) (reply w) (emitted w).

Definition log_op (o : op) (w : World) : World :=
  mkWorld (attrs w) (clock w) (clock_reads w) (stop_signal w) (polls w)
          (source_voltage w) (oplog w ++ [o]) (fault w) (buffer_data w) (reply w) (emitted w).

Definition set_source (v : Q) (w : World) : World :=
  mkWorld (attrs w) (clock w) (clock_reads w) (stop_signal w) (polls w)
          v (oplog w) (fault w) (buffer_data w) (reply w) (emitted w).

Definition add_row (r : row) (w : World) : World :=
  mkWorld (attrs w) (clock w) (clock_reads w) (stop_signal w) (polls w)
          (source_voltage w) (oplog w) (fault w) (buffer_data w) (reply w) (emitted w ++ [r]).

(** ** The exception-and-state monad *)

Definition M (A : Type) : Type := World -> outcome A * World.

Definition ret {A} (a : A) : M A := fun w => (Ret a, w).

Definition bind {A B} (m : M A) (k : A -> M B) : M B :=
  fun w =>
    match m w with
    | (Ret a, w') => k a w'
    | (Raise e, w') => (Raise e, w')
    | (OutOfGas, w') => (OutOfGas, w')
    end.

Definition raise {A} (e : exn) : M A := fun w => (Raise e, w).

Definition out_of_gas {A} : M A := fun w => (OutOfGas, w).

(** [try: m  except ...: h e]; the handler re-raises what it does not catch. *)
Definition try_except {A} (m : M A) (h : exn -> M A) : M A :=
  fun w =>
    match m w with
    | (Raise e, w') => h e w'
    | r => r
    end.

Declare Scope py_scope.
Delimit Scope py_scope with py.
Notation "x <- m ;; k" := (bind m (fun x => k))
  (at level 100, m at level 99, right associativity) : py_scope.
Notation "m ;; k" := (bind m (fun _ => k))
  (at level 100, right associativity) : py_scope.
Local Open Scope py_scope.

(** ** Primitives: attributes, clock, stop flag, driver calls *)

Definition getattr (name : string) : M pyval :=
  fun w =>
    match attrs w !! name with
    | Some v => (Ret v, w)
    | None => (Raise (AttributeError name), w)
    end.

Definition setattr (name : string) (v : pyval) : M unit :=
  fun w => (Ret tt, set_attrs (insert name v) w).

(** [time.time()] *)
Definition time_time : M Q :=
  fun w => (Ret (clock w (clock_reads w)), tick_clock w).

Definition Qlt_bool (x y : Q) : bool := negb (Qle_bool y x).

(** [time.sleep(secs)]: the passage of time is in the clock oracle; a
    negative argument raises [ValueError]. *)
Definition sleep (secs : Q) : M unit :=
  if Qlt_bool secs 0 then raise (ValueError "sleep length must be non-negative")
  else ret tt.

(** [self.should_stop()] *)
Definition should_stop : M bool :=
  fun w => (Ret (stop_signal w (polls w)), tick_polls w).

(** A driver call: logged, then it raises if the fault oracle says so.
    Returns the index of the call in the log. *)
Definition dev (o : op) : M nat :=
  fun w =>
    let i := length (oplog w) in
    match fault w i with
    | Some e => (Raise e, log_op o w)
    | None => (Ret i, log_op o w)
    end.

Definition emit (r : row) : M unit := fun w => (Ret tt, add_row r w).

Definition is_truthy (v : pyval) : bool :=
  match v with
  | VNone => false
  | VNum q => negb (Qeq_bool q 0)
  | VElems l => negb (Nat.eqb (length l) 0)
  | VInstrument => true
  end.

(** ** Python string helpers used by the package *)

Definition is_space (c : ascii) : bool :=
  match nat_of_ascii c with
  | 9 | 10 | 11 | 12 | 13 | 28 | 29 | 30 | 31 | 32 => true
  | _ => false
  end.

Fixpoint lstrip (s : string) : string :=
  match s with
  | String c s' => if is_space c then lstrip s' else s
  | EmptyString => EmptyString
  end.

Fixpoint rstrip (s : string) : string :=
  match s with
  | String c s' =>
      match rstrip s' with
      | EmptyString => if is_space c then EmptyString else String c EmptyString
      | t => String c t
      end
  | EmptyString => EmptyString
  end.

Definition strip (s : string) : string := rstrip (lstrip s).

(** [s.split(sep)] for a one-character separator. *)
Fixpoint split (sep : ascii) (s : string) : list string :=
  match s with
  | EmptyString => [EmptyString]
  | String c s' =>
      if Ascii.eqb c sep then EmptyString :: split sep s'
      else match split sep s' with
           | h :: t => String c h :: t
           | [] => [String c EmptyString]
           end
  end.

Definition lower_ascii (c : ascii) : ascii :=
  let n := nat_of_ascii c in
  if (65 <=? n) && (n <=? 90) then ascii_of_nat (n + 32) else c.

Fixpoint lower (s : string) : string :=
  match s with
  | EmptyString => EmptyString
  | String c s' => String (lower_ascii c) (lower s')
  end.

Fixpoint join (sep : string) (l : list string) : string :=
  match l with
  | [] => EmptyString
  | [x] => x
  | x :: t => String.append x (String.append sep (join sep t))
  end.

(** [l.index(x)] *)
Fixpoint index (x : string) (l : list string) : option nat :=
  match l with
  | [] => None
  | y :: t => if String.eqb y x then Some 0 else option_map S (index x t)
  end.

(** ** Sums and means over exact rationals *)

Definition Qsum (l : list Q) : Q := fold_right Qplus 0%Q l.

Definition Qprod (l : list Q) : Q := fold_right Qmult 1%Q l.

(** [numpy.mean] of a one-dimensional array. *)
Definition mean (l : list Q) : Q := (Qsum l / inject_Z (Z.of_nat (length l)))%Q.

(** ** keithley2400_procedure.py: [Keithley2400_Procedure] *)

Module Keithley2400_Procedure.

Record Params : Type := mkParams {
  port : option string;
  use_front_terminals : bool
}.

(** [self.__instrument] and [self.__elements] inside the class body are
    stored under their mangled names. *)
Definition instrument_attr : string := "_Keithley2400_Procedure__instrument".
Definition elements_attr : string := "_Keithley2400_Procedure__elements".

(** [try: return self.<name>  except AttributeError: return None] *)
Definition attr_or_None (name : string) : M pyval :=
  try_except (getattr name)
    (fun e => match e with
              | AttributeError _ => ret VNone
              | _ => raise e
              end).

(** property [instrument] *)
Definition instrument : M pyval := attr_or_None instrument_attr.

(** property [elements] *)
Definition elements : M pyval := attr_or_None elements_attr.

(** [self.instrument.<method>(...)]: attribute access on [None] raises. *)
Definition call (o : op) : M nat :=
  v <- instrument ;;
  match v with
  | VInstrument => dev o
  | _ => raise (AttributeError "'NoneType' object has no attribute")
  end.

(** [self.instrument.ask(cmd)] *)
Definition ask (cmd : string) : M string :=
  i <- call (Ask cmd) ;;
  fun w => (Ret (reply w i), w).

Definition startup (p : Params) : M unit :=
  match port p with
  | None => raise (RuntimeError "Port has not been set.")
  | Some prt =>
      dev (Connect prt) ;;
      setattr instrument_attr VInstrument ;;
      call Reset ;;
      (if use_front_terminals p
       then call UseFrontTerminals
       else call UseRearTerminals) ;;
      ret tt
  end.

Definition shutdown : M unit :=
  v <- instrument ;;
  (if is_truthy v
   then (v' <- instrument ;;
         match v' with
         | VInstrument => dev Shutdown ;; ret tt
         | _ => raise (AttributeError "'NoneType' object has no attribute")
         end)
   else ret tt).

(** [execute] of the base class only logs. *)
Definition execute : M unit := ret tt.

(** [data.reshape(rows, cols)] of a flat array of size [rows * cols]. *)
Fixpoint reshape {A} (rows cols : nat) (data : list A) : list (list A) :=
  match rows with
  | 0 => []
  | S r => firstn cols data :: reshape r cols (skipn cols data)
  end.

(** [format_data], for [data] already a flat numeric sequence.
    [rows = data.shape[0] / cols] is a float division: by zero it raises
    [ZeroDivisionError]; [rows.is_integer()] holds exactly when [cols]
    divides the length (exact for every length below 2^53). *)
Definition format_data (data : list Q) : M (list (list Q)) :=
  els <- elements ;;
  match els with
  | VElems l =>
      let cols := length l in
      let n := length data in
      if cols =? 0 then raise ZeroDivisionError
      else if n mod cols =? 0
           then ret (reshape (n / cols) cols data)
           else raise (ValueError "Invalid data length. Data is not divisible by number of elements.")
  | _ => raise (TypeError "object of type 'NoneType' has no len()")
  end.

Definition get_elements : M (list string) :=
  r <- ask ":format:elements?" ;;
  ret (split "," (strip r)).

Definition valid_elms : list string :=
  ["time"; "voltage"; "current"; "resistance"; "status"].

Definition set_elements (elms : list string) : M unit :=
  if forallb (fun elm => existsb (String.eqb (lower elm)) valid_elms) elms
  then
    call (Write (String.append ":format:elements " (join "," elms))) ;;
    els <- get_elements ;;
    setattr elements_attr (VElems els)
  else raise (ValueError "Invalid element.").

Definition user_stop : exn := RuntimeError "Procedure stopped by user.".

(** The [while time.time() < end] loop of [wait_for]. *)
Fixpoint wait_for_loop (gas : nat) (end_ interval : Q) : M unit :=
  match gas with
  | 0 => out_of_gas
  | S g =>
      now <- time_time ;;
      if Qlt_bool now end_
      then
        stop <- should_stop ;;
        if (stop : bool)
        then shutdown ;; raise user_stop
        else sleep interval ;; wait_for_loop g end_ interval
      else ret tt
  end.

Definition wait_for (gas : nat) (seconds interval : Q) : M unit :=
  now <- time_time ;;
  wait_for_loop gas (now + seconds)%Q interval.

End Keithley2400_Procedure.

(** ** mpp_tracking.py: [MPPTracking_Procedure] *)

Module MPPTracking_Procedure.

Module K := Keithley2400_Procedure.

Record Params : Type := mkParams {
  base : K.Params;
  run_time : Q;
  probe_step : Q;
  voltage_range : Q;
  compliance_current : Q;
  initial_voltage : Q;
  buffer_points : Z;
  probe_points : Z;
  probe_interval : Z;
  data_interval : Z;
  power_production_mode : bool
}.

Record Datum : Type := mkDatum {
  d_time : Q;
  d_voltage : Q;
  d_current : Q;
  d_power : Q
}.

(** property [start_time] *)
Definition start_time : M pyval := K.attr_or_None "_start_time".

(** property [end_time] *)
Definition end_time : M pyval := K.attr_or_None "_end_time".

(** property [time_elapsed] *)
Definition time_elapsed : M Q :=
  st <- start_time ;;
  match st with
  | VNone => ret 0%Q
  | _ =>
      now <- time_time ;;
      st' <- start_time ;;
      match st' with
      | VNum s => ret (now - s)%Q
      | _ => raise (TypeError "unsupported operand type(s) for -")
      end
  end.

(** [min( progress, 1 )] *)
Definition cap_at_1 (x : Q) : Q := if Qlt_bool 1 x then 1%Q else x.

(** property [progress] *)
Definition progress (p : Params) : M Q :=
  st <- start_time ;;
  match st with
  | VNone => ret 0%Q
  | _ =>
      te <- time_elapsed ;;
      let budget := (run_time p * 60)%Q in
      if Qeq_bool budget 0 then raise ZeroDivisionError
      else ret (cap_at_1 (te / budget)%Q)
  end.

Definition get_source_voltage : M Q :=
  _ <- K.call GetSourceVoltage ;;
  fun w => (Ret (source_voltage w), w).

Definition set_source_voltage (v : Q) : M unit :=
  _ <- K.call (SetSourceVoltage v) ;;
  fun w => (Ret tt, set_source v w).

Definition startup (p : Params) : M unit :=
  K.startup (base p) ;;
  K.call (ApplyVoltage (Some (voltage_range p)) (compliance_current p)) ;;
  K.set_elements ["time"; "voltage"; "current"] ;;
  sleep (1 # 10).

(** [_measure]: no handler around the four driver calls. *)
Definition _measure (p : Params) : M (list (list Q)) :=
  K.call (ConfigBuffer (buffer_points p)) ;;
  K.call StartBuffer ;;
  K.call WaitForBuffer ;;
  i <- K.call ReadBuffer ;;
  data <- (fun w => (Ret (buffer_data w i), w)) ;;
  K.format_data data.

(** [self.elements.index(name)] *)
Definition elements_index (name : string) : M nat :=
  els <- K.elements ;;
  match els with
  | VElems l =>
      match index name l with
      | Some i => ret i
      | None => raise (ValueError "is not in list")
      end
  | _ => raise (AttributeError "'NoneType' object has no attribute 'index'")
  end.

(** [data.mean( axis = 0 )] of a [rows x cols] array. *)
Definition col_means (cols : nat) (data : list (list Q)) : list Q :=
  map (fun j => mean (map (fun r => nth j r 0%Q) data)) (seq 0 cols).

(** [data.prod( axis = 1 )]: the product of every column of each row. *)
Definition row_prods (data : list (list Q)) : list Q := map Qprod data.

Definition width (data : list (list Q)) : nat :=
  match data with
  | r :: _ => length r
  | [] => 0
  end.

Definition _measure_datum (p : Params) : M Datum :=
  data <- _measure p ;;
  let means := col_means (width data) data in
  it <- elements_index "TIME" ;;
  let m_time := nth it means 0%Q in
  te <- time_elapsed ;;
  let time := (te - m_time)%Q in
  iv <- elements_index "VOLT" ;;
  let voltage := nth iv means 0%Q in
  ic <- elements_index "CURR" ;;
  let current := nth ic means 0%Q in
  let power := mean (row_prods data) in
  emit [("time [s]", time); ("voltage [V]", voltage);
        ("current [A]", current); ("power [W]", power)] ;;
  ret (mkDatum time voltage current power).

Definition _time_remaining (start interval : Q) : M Q :=
  now <- time_time ;;
  let elapsed := (now - start)%Q in
  ret (interval - elapsed)%Q.

(** One acquisition cycle shared by [_baseline] and [_probe]. *)
Definition cycle (gas : nat) (p : Params) : M Q :=
  cycle_start <- time_time ;;
  datum <- _measure_datum p ;;
  tr <- _time_remaining cycle_start (inject_Z (data_interval p)) ;;
  K.wait_for gas tr 1 ;;
  ret (d_power datum).

Definition last_probe_attr : string := "_last_probe_time".

Fixpoint baseline_loop (gas fuel : nat) (p : Params) (powers : list Q) : M (list Q) :=
  match fuel with
  | 0 => out_of_gas
  | S f =>
      now <- time_time ;;
      lpt <- getattr last_probe_attr ;;
      match lpt with
      | VNum t =>
          if Qlt_bool (now - t) (inject_Z (probe_interval p))
          then
            pw <- cycle gas p ;;
            baseline_loop gas f p (powers ++ [pw])
          else ret powers
      | _ => raise (TypeError "unsupported operand type(s) for -")
      end
  end.

Definition _baseline (gas : nat) (p : Params) : M (Q * list Q) :=
  try_except (getattr last_probe_attr ;; ret tt)
    (fun e => match e with
              | AttributeError _ =>
                  now <- time_time ;; setattr last_probe_attr (VNum now)
              | _ => raise e
              end) ;;
  powers <- baseline_loop gas gas p [] ;;
  v <- get_source_voltage ;;
  ret (v, powers).

(** [for i in range( n )] *)
Fixpoint probe_loop (gas n : nat) (p : Params) (powers : list Q) : M (list Q) :=
  match n with
  | 0 => ret powers
  | S n' =>
      pw <- cycle gas p ;;
      probe_loop gas n' p (powers ++ [pw])
  end.

Definition _probe (gas : nat) (p : Params) (direction : Z) : M (Q * list Q) :=
  v <- get_source_voltage ;;
  set_source_voltage (v + inject_Z direction * probe_step p)%Q ;;
  get_source_voltage ;;
  powers <- probe_loop gas (Z.to_nat (probe_points p)) p [] ;;
  now <- time_time ;;
  setattr last_probe_attr (VNum now) ;;
  v' <- get_source_voltage ;;
  ret (v', powers).

(** Python's [l[ start: ]] for an integer [start]. *)
Definition slice_from {A} (start : Z) (l : list A) : list A :=
  let n := Z.of_nat (length l) in
  if (start <? 0)%Z
  then skipn (Z.to_nat (Z.max 0 (n + start))) l
  else skipn (Z.to_nat start) l.

Definition num_points (p : Params) (p1 p2 : list Q) : Z :=
  Z.min (Z.min (probe_points p) (Z.of_nat (length p1))) (Z.of_nat (length p2)).

(** The two comparators [( m1, m2 )] of [_better_voltage]. *)
Definition comparators (p : Params) (p1 p2 : list Q) : Q * Q :=
  let n := num_points p p1 p2 in
  let m1 := Qsum (slice_from (- n) p1) in
  let m2 := Qsum (slice_from (- n) p2) in
  if negb (power_production_mode p)
  then ((m1 * -1)%Q, (m2 * -1)%Q)
  else (m1, m2).

Definition _better_voltage (p : Params) (d1 d2 : Q * list Q) : Q :=
  let '(v1, p1) := d1 in
  let '(v2, p2) := d2 in
  let '(m1, m2) := comparators p p1 p2 in
  if Qlt_bool m2 m1 then v1 else v2.

(** The decision at the end of one pass of the [execute] loop; returns the
    [probe_direction] for the next pass. *)
Definition decision (p : Params) (probe_direction : Z)
    (baseline_data probe_data : Q * list Q) : M Z :=
  let better_voltage := _better_voltage p baseline_data probe_data in
  let baseline_voltage := fst baseline_data in
  if Qeq_bool better_voltage baseline_voltage
  then
    let probe_direction' := (probe_direction * -1)%Z in
    set_source_voltage baseline_voltage ;;
    ret probe_direction'
  else ret probe_direction.

(** One pass of the [while self.progress < 1] loop of [execute]. *)
Definition loop_body (gas : nat) (p : Params) (probe_direction : Z) : M Z :=
  baseline_data <- _baseline gas p ;;
  probe_data <- _probe gas p probe_direction ;;
  decision p probe_direction baseline_data probe_data.

Fixpoint execute_loop (gas fuel : nat) (p : Params) (probe_direction : Z) : M Z :=
  match fuel with
  | 0 => out_of_gas
  | S f =>
      pr <- progress p ;;
      if Qlt_bool pr 1
      then
        probe_direction' <- loop_body gas p probe_direction ;;
        execute_loop gas f p probe_direction'
      else ret probe_direction
  end.

(** [execute]; the value is the final [probe_direction], which Python
    drops. *)
Definition execute (gas : nat) (p : Params) : M Z :=
  K.execute ;;
  now <- time_time ;;
  setattr "_start_time" (VNum now) ;;
  st <- start_time ;;
  match st with
  | VNum s =>
      setattr "_end_time" (VNum (s + 60 * run_time p)%Q) ;;
      K.call EnableSource ;;
      set_source_voltage (initial_voltage p) ;;
      execute_loop gas gas p 1%Z
  | _ => raise (TypeError "unsupported operand type(s) for +")
  end.

End MPPTracking_Procedure.

(** ** voc.py: [Voc_Procedure] *)

Module Voc_Procedure.

Module K := Keithley2400_Procedure.

Record Params : Type := mkParams {
  base : K.Params;
  std_threshold : Q;
  threshold_points : Z;
  data_interval : Q;
  max_time : Z;
  compliance_voltage : Q;
  buffer_points : Z
}.

Record Datum : Type := mkDatum {
  d_time : Q;
  d_voltage : Q;
  d_current : Q
}.

(** The two ways [execute] returns: from inside the loop once [_settled]
    holds, or by leaving the loop when [progress] reaches 1.  Python
    returns [None] on both paths. *)
Inductive exit_path : Type :=
| Settled
| TimedOut.

(** property [start_time] *)
Definition start_time : M pyval := K.attr_or_None "_start_time".

(** property [end_time] *)
Definition end_time : M pyval := K.attr_or_None "_end_time".

(** property [time_elapsed] *)
Definition time_elapsed : M Q :=
  st <- start_time ;;
  match st with
  | VNone => ret 0%Q
  | _ =>
      now <- time_time ;;
      st' <- start_time ;;
      match st' with
      | VNum s => ret (now - s)%Q
      | _ => raise (TypeError "unsupported operand type(s) for -")
      end
  end.

Definition cap_at_1 (x : Q) : Q := if Qlt_bool 1 x then 1%Q else x.

(** property [progress] *)
Definition progress (p : Params) : M Q :=
  st <- start_time ;;
  match st with
  | VNone => ret 0%Q
  | _ =>
      te <- time_elapsed ;;
      if (max_time p =? 0)%Z then raise ZeroDivisionError
      else ret (cap_at_1 (te / inject_Z (max_time p))%Q)
  end.

Definition startup (p : Params) : M unit :=
  K.startup (base p) ;;
  K.call MeasureVoltage ;;
  K.call (ApplyCurrent (compliance_voltage p)) ;;
  K.call (SetSourceCurrent 0) ;;
  K.set_elements ["time"; "voltage"; "current"] ;;
  sleep (1 # 10).

(** [_get_data]: the handler logs the error and shuts the instrument
    down; it has no [raise], so control falls through to the buffer
    read. *)
Definition _get_data (p : Params) : M (list Q) :=
  try_except
    (K.call (ConfigBuffer (buffer_points p)) ;;
     K.call StartBuffer ;;
     K.call WaitForBuffer ;;
     ret tt)
    (fun err => K.shutdown) ;;
  i <- K.call ReadBuffer ;;
  fun w => (Ret (buffer_data w i), w).

Definition elements_index (name : string) : M nat :=
  els <- K.elements ;;
  match els with
  | VElems l =>
      match index name l with
      | Some i => ret i
      | None => raise (ValueError "is not in list")
      end
  | _ => raise (AttributeError "'NoneType' object has no attribute 'index'")
  end.

Definition col_means (cols : nat) (data : list (list Q)) : list Q :=
  map (fun j => mean (map (fun r => nth j r 0%Q) data)) (seq 0 cols).

Definition width (data : list (list Q)) : nat :=
  match data with
  | r :: _ => length r
  | [] => 0
  end.

Definition _measure (p : Params) : M Datum :=
  data <- _get_data p ;;
  data <- K.format_data data ;;
  let means := col_means (width data) data in
  it <- elements_index "TIME" ;;
  let m_time := nth it means 0%Q in
  te <- time_elapsed ;;
  let time := (te - m_time)%Q in
  iv <- elements_index "VOLT" ;;
  let voltage := nth iv means 0%Q in
  ic <- elements_index "CURR" ;;
  let current := nth ic means 0%Q in
  emit [("time [s]", time); ("voltage [V]", voltage); ("current [A]", current)] ;;
  ret (mkDatum time voltage current).

(** [_extract_voltage] is declared [@staticmethod] with the parameters
    [( self, data )], so nothing is bound implicitly: a call must pass two
    positional arguments.  [args] is the list of positional arguments of
    the call. *)
Definition _extract_voltage (args : list (list Datum)) : M (list Q) :=
  match args with
  | [_; data] => ret (map d_voltage data)
  | _ => raise (TypeError "_extract_voltage() missing 1 required positional argument: 'data'")
  end.

(** [numpy.std]: the population standard deviation.  It is compared
    through its square: [std <= t] iff [0 <= t] and [variance <= t * t].
    The standard deviation of an empty array is [nan], which compares
    false. *)
Definition variance (l : list Q) : Q :=
  let m := mean l in
  mean (map (fun x => ((x - m) * (x - m))%Q) l).

Definition std_le (l : list Q) (t : Q) : bool :=
  match l with
  | [] => false
  | _ => Qle_bool 0 t && Qle_bool (variance l) (t * t)
  end.

(** [_settled] calls [self._extract_voltage( data )]: one argument. *)
Definition _settled (p : Params) (data : list Datum) : M bool :=
  voltage <- _extract_voltage [data] ;;
  ret (std_le voltage (std_threshold p)).

(** Python's [l[ : stop ]] for an integer [stop]. *)
Definition slice_to {A} (stop : Z) (l : list A) : list A :=
  let n := Z.of_nat (length l) in
  if (stop <? 0)%Z
  then firstn (Z.to_nat (Z.max 0 (n + stop))) l
  else firstn (Z.to_nat stop) l.

(** The window update of one pass of the [execute] loop: append, then
    prune. *)
Definition window_update (p : Params) (data : list Datum) (datum : Datum) : list Datum :=
  let data := (data ++ [datum]) in
  if (threshold_points p <? Z.of_nat (length data))%Z
  then slice_to (- threshold_points p) data
  else data.

Fixpoint execute_loop (gas fuel : nat) (p : Params) (data : list Datum) : M exit_path :=
  match fuel with
  | 0 => out_of_gas
  | S f =>
      pr <- progress p ;;
      if Qlt_bool pr 1
      then
        datum <- _measure p ;;
        let data := window_update p data datum in
        settled <-
          (if (threshold_points p <=? Z.of_nat (length data))%Z
           then _settled p data
           else ret false) ;;
        if (settled : bool)
        then ret Settled
        else
          K.wait_for gas (data_interval p) (data_interval p / 5)%Q ;;
          execute_loop gas f p data
      else ret TimedOut
  end.

Definition execute (gas : nat) (p : Params) : M exit_path :=
  K.execute ;;
  now <- time_time ;;
  setattr "_start_time" (VNum now) ;;
  st <- start_time ;;
  match st with
  | VNum s =>
      setattr "_end_time" (VNum (s + inject_Z (max_time p))%Q) ;;
      K.call EnableSource ;;
      execute_loop gas gas p []
  | _ => raise (TypeError "unsupported operand type(s) for +")
  end.

End Voc_Procedure.

(** ** jv.py: [JVScan_Procedure] (the sweep set-up of [startup]) *)

Module JVScan_Procedure.

Module K := Keithley2400_Procedure.

Record Params : Type := mkParams {
  base : K.Params;
  start_voltage : Q;
  end_voltage : Q;
  voltage_step : Q;
  settle_time : Q;
  max_current : Q;
  buffer_points : Z;
  full_sweep : bool
}.

(** The local [voltage_step] after the direction test of [startup]. *)
Definition effective_step (p : Params) : Q :=
  let step := voltage_step p in
  if (Qlt_bool (end_voltage p) (start_voltage p) && Qlt_bool 0 (voltage_step p))
     || (Qlt_bool (start_voltage p) (end_voltage p) && Qlt_bool (voltage_step p) 0)
  then (step * -1)%Q
  else step.

Definition is_digit (c : ascii) : bool :=
  let n := nat_of_ascii c in (48 <=? n) && (n <=? 57).

Fixpoint digits (s : string) (acc : Z) : option Z :=
  match s with
  | EmptyString => Some acc
  | String c s' =>
      if is_digit c
      then digits s' (10 * acc + Z.of_nat (nat_of_ascii c - 48))%Z
      else None
  end.

(** [int( s )] on a decimal literal with an optional sign; anything else
    raises [ValueError]. *)
Definition py_int (s : string) : option Z :=
  match strip s with
  | EmptyString => None
  | String "-" (String c r) => option_map Z.opp (digits (String c r) 0)
  | String "+" (String c r) => digits (String c r) 0
  | t => digits t 0
  end.

Definition step_cmd : string := ":source:voltage:step".

Definition startup (p : Params) : M unit :=
  K.startup (base p) ;;
  K.call (Write ":format:data ascii") ;;
  K.call (ApplyVoltage None (max_current p)) ;;
  K.set_elements ["voltage"; "current"] ;;
  let voltage_step := effective_step p in
  K.call (WriteNum ":source:voltage:start" (start_voltage p)) ;;
  K.call (WriteNum ":source:voltage:stop" (end_voltage p)) ;;
  K.call (WriteNum step_cmd voltage_step) ;;
  K.call (Write ":source:voltage:mode sweep") ;;
  K.call (Write ":source:sweep:spacing linear") ;;
  r <- K.ask ":source:sweep:points?" ;;
  match py_int r with
  | None => raise (ValueError "invalid literal for int() with base 10")
  | Some sweep_points =>
      setattr "run_time"
        (VNum (inject_Z sweep_points
               * (settle_time p + inject_Z (buffer_points p) * (2 # 100)))%Q) ;;
      K.call (WriteNum ":trigger:count" (inject_Z sweep_points)) ;;
      K.call (WriteNum ":source:delay" (settle_time p)) ;;
      sleep (1 # 10)
  end.

End JVScan_Procedure.

(** ** main.py: seeding the JV end voltage from the Voc measurement *)

Module Main.

(** [voc_proc.threshold_points = 5] and [jv_proc.voltage_step = 0.01] *)
Definition voc_threshold_points : nat := 5.
Definition jv_voltage_step : Q := 1 # 100.

(** [series.tail( n )] *)
Definition tail {A} (n : nat) (l : list A) : list A :=
  skipn (length l - n) l.

(** [voc_df[ 'voltage [V]' ].tail( voc_proc.threshold_points ).mean()] *)
Definition voc_measured (voltages : list Q) : Q :=
  mean (tail voc_threshold_points voltages).

(** Lines 105-108: scale by the step, round away from zero, scale back. *)
Definition round_end_voc (voc step : Q) : Q :=
  let end_voc := (voc / step)%Q in
  let end_voc := if Qlt_bool 0 end_voc then Qceiling end_voc else Qfloor end_voc in
  (inject_Z end_voc * step)%Q.

(** The value assigned to [jv_proc.end_voltage] when [run_voc] is set. *)
Definition jv_end_voltage (voltages : list Q) : Q :=
  round_end_voc (voc_measured voltages) jv_voltage_step.

End Main.

(** ** Notions the properties are stated with *)

(** The sign of a rational: -1, 0 or 1. *)
Definition Qsign (q : Q) : Z := Z.sgn (Qnum q).

(** The last [n] elements of a list. *)
Definition last_n {A} (n : nat) (l : list A) : list A :=
  skipn (length l - n) l.

(** The comparators as the design document words them: the sums of the
    last [min( probe_points, |p1|, |p2| )] elements of each series, both
    negated outside power-production mode. *)
Definition claimed_comparators (p : MPPTracking_Procedure.Params) (p1 p2 : list Q) : Q * Q :=
  let n := Z.to_nat (MPPTracking_Procedure.num_points p p1 p2) in
  let s1 := Qsum (last_n n p1) in
  let s2 := Qsum (last_n n p2) in
  if MPPTracking_Procedure.power_production_mode p then (s1, s2) else ((- s1)%Q, (- s2)%Q).

(** The summarized power as the design document words it: the mean over
    the rows of voltage times current. *)
Definition claimed_power (iv ic : nat) (data : list (list Q)) : Q :=
  mean (map (fun r => (nth iv r 0 * nth ic r 0)%Q) data).

(** The procedure holds an instrument ([startup] has run). *)
Definition instr_set (w : World) : Prop :=
  attrs w !! Keithley2400_Procedure.instrument_attr = Some VInstrument.

(** Between [w] and [w'] some poll of the stop flag returned [True]. *)
Definition stop_observed (w w' : World) : Prop :=
  exists k, polls w <= k < polls w' /\ stop_signal w k = true.

(** Between [w] and [w'] the stop flag was polled only with the answer
    [False]; the oracles are those of [w] and the driver log of [w'] extends
    that of [w]. *)
Definition quiet (w w' : World) : Prop :=
  stop_signal w' = stop_signal w /\
  fault w' = fault w /\
  instr_set w' /\
  polls w <= polls w' /\
  (forall k, polls w <= k < polls w' -> stop_signal w k = false) /\
  exists l, oplog w' = oplog w ++ l.

(** The run from [w] stopped in [w'] with the exception [e] on a
    cancellation: the last poll of the stop flag answered [True] and every
    earlier one [False]; the last driver call is the shutdown; and [e] is
    the "stopped by user" error unless the shutdown call itself failed. *)
Definition cancelled (w w' : World) (e : exn) : Prop :=
  exists l,
    oplog w' = oplog w ++ l ++ [Shutdown] /\
    polls w < polls w' /\
    stop_signal w (polls w' - 1) = true /\
    (forall k, polls w <= k < polls w' - 1 -> stop_signal w k = false) /\
    (fault w (length (oplog w ++ l)) = None -> e = Keithley2400_Procedure.user_stop).

Definition cancel_outcome {A} (w : World) (res : outcome A * World) : Prop :=
  exists e, fst res = Raise e /\ cancelled w (snd res) e.

(** The invariant of a computation started with an instrument: either it
    never saw the stop flag raised, or it ended on a cancellation. *)
Definition post {A} (w : World) (res : outcome A * World) : Prop :=
  quiet w (snd res) \/ cancel_outcome w res.

Definition ok {A} (m : M A) : Prop :=
  forall w, instr_set w -> post w (m w).

(** A computation that cannot end on a cancellation. *)
Definition calm {A} (m : M A) : Prop :=
  forall w, instr_set w -> quiet w (snd (m w)).

(** Every driver call a computation makes satisfies [P]. *)
Definition appends (P : op -> Prop) {A} (m : M A) : Prop :=
  forall w, exists l, oplog (snd (m w)) = oplog w ++ l /\ Forall P l.

(** A driver call that, if it programs the sweep step, programs [x]. *)
Definition step_is (x : Q) (o : op) : Prop :=
  forall s, o = WriteNum JVScan_Procedure.step_cmd s -> s = x.



(** ** Concrete set-ups used to run the model *)

Module Bench.

Definition port : Keithley2400_Procedure.Params :=
  Keithley2400_Procedure.mkParams (Some "GPIB0::24") true.

(** The instance dictionary after [startup] and the first lines of
    [execute], with the element order the instrument reports. *)
Definition started : gmap string pyval :=
  <[Keithley2400_Procedure.instrument_attr := VInstrument]>
    (<[Keithley2400_Procedure.elements_attr := VElems ["VOLT"; "CURR"; "TIME"]]>
       (<["_start_time" := VNum 0]> ∅)).

(** A clock that advances one second per reading, a stop flag that is
    never raised, a driver that never fails and whose buffer holds the one
    row [( volt, curr, time )]. *)
Definition world (volt curr time : Q) : World :=
  mkWorld started (fun n => inject_Z (Z.of_nat n)) 0 (fun _ => false) 0
          0 [] (fun _ => None) (fun _ => [volt; curr; time]) (fun _ => "") [].

(** A bench whose clock stands still and whose stop flag is raised from
    the start. *)
Definition world_stopping : World :=
  mkWorld started (fun _ => 0%Q) 0 (fun _ => true) 0
          0 [] (fun _ => None) (fun _ => [3; 5; 2]%Q) (fun _ => "") [].


(** The bench with a reading that alternates between 0.7 V and 0.5 V
    from one buffer to the next. *)
Definition world_noisy : World :=
  mkWorld started (fun n => inject_Z (Z.of_nat n)) 0 (fun _ => false) 0
          0 [] (fun _ => None)
          (fun i => [if Nat.even (i / 4) then 5 # 10 else 7 # 10; 0; 1]%Q)
          (fun _ => "") [].

(** A bench before [startup]: no instance attribute yet; the driver
    answers the element query with [elements] and every later query with
    [points]. *)
Definition world_replying (elements points : string) : World :=
  mkWorld ∅ (fun n => inject_Z (Z.of_nat n)) 0 (fun _ => false) 0
          0 [] (fun _ => None) (fun _ => [])
          (fun i => if Nat.leb i 6 then elements else points) [].

(** A procedure instance on which nothing has been called yet. *)
Definition fresh : World := world_replying "VOLT,CURR,TIME" "11".

(** The settings of [main.py] for the tracker, with a probe interval of
    zero seconds and one sample per buffer. *)
Definition mpp : MPPTracking_Procedure.Params :=
  MPPTracking_Procedure.mkParams port 2 (5 # 100) 2 (5 # 100) 0 1 3 0 3 false.

(** The settings of [main.py] for the Voc detector, with one sample per
    buffer. *)
Definition voc : Voc_Procedure.Params :=
  Voc_Procedure.mkParams port (1 # 100) 5 (1 # 10) 60 2 1.

(** The same with a window of two samples. *)
Definition voc2 : Voc_Procedure.Params :=
  Voc_Procedure.mkParams port (1 # 100) 2 (1 # 10) 60 2 1.

Definition sample (n : Z) : Voc_Procedure.Datum :=
  Voc_Procedure.mkDatum (inject_Z n) (62 # 100) 0.

(** The settings of [main.py] for the JV scan, sweeping downwards. *)
Definition jv_down : JVScan_Procedure.Params :=
  JVScan_Procedure.mkParams port (1 # 10) 0 (1 # 100) (1 # 100) (1 # 100) 5 true.

End Bench.

(** ** jv.py: [execute] and [_sweep] *)

Module JVScan_Sweep.

Module K := Keithley2400_Procedure.

Section Float64.

(** numpy's conversion of one text field to [float64]; [None] stands for
    the [ValueError] it raises on a field it cannot read. *)
Variable float64 : string -> option Q.

(** [np.array( fields, dtype = np.float64 )] *)
Fixpoint to_floats (fields : list string) : option (list Q) :=
  match fields with
  | [] => Some []
  | f :: rest =>
      match float64 f, to_floats rest with
      | Some x, Some xs => Some (x :: xs)
      | _, _ => None
      end
  end.

(** [format_data] on a [str]: split at the commas, convert, then proceed
    as for a flat sequence. *)
Definition format_data_str (data : string) : M (list (list Q)) :=
  match to_floats (split "," data) with
  | Some l => K.format_data l
  | None => raise (ValueError "could not convert string to float")
  end.

(** The [for datum in data] loop of [_sweep]. *)
Fixpoint emit_rows (data : list (list Q)) : M unit :=
  match data with
  | [] => ret tt
  | datum :: rest =>
      iv <- MPPTracking_Procedure.elements_index "VOLT" ;;
      let voltage := nth iv datum 0%Q in
      ic <- MPPTracking_Procedure.elements_index "CURR" ;;
      let current := nth ic datum 0%Q in
      let power := (current * voltage)%Q in
      emit [("voltage [V]", voltage); ("current [A]", current); ("power [W]", power)] ;;
      emit_rows rest
  end.

Definition direction_error : exn := ValueError "Direction must be +1 or -1.".

Definition _sweep (direction : Z) : M unit :=
  (if (direction =? 1)%Z
   then K.call (Write ":source:sweep:direction up") ;; ret tt
   else if (direction =? -1)%Z
        then K.call (Write ":source:sweep:direction down") ;; ret tt
        else raise direction_error) ;;
  K.call (Write "initiate") ;;
  rt <- getattr "run_time" ;;
  match rt with
  | VNum t => sleep (t * (11 # 10))%Q
  | _ => raise (TypeError "unsupported operand type(s) for *")
  end ;;
  data <- K.ask "fetch?" ;;
  data <- format_data_str data ;;
  emit_rows data.

Definition execute (p : JVScan_Procedure.Params) : M unit :=
  K.execute ;;
  K.call EnableSource ;;
  _sweep 1 ;;
  if JVScan_Procedure.full_sweep p
  then sleep (JVScan_Procedure.settle_time p) ;; _sweep (-1)
  else ret tt.

End Float64.

End JVScan_Sweep.

(** ** main.py: the JV join time and the seed of the tracker *)

Module Main_Stages.

(** One row of [jv.csv]. *)
Record jv_row : Type := mk_jv_row {
  voltage : Q;
  current : Q;
  power : Q
}.

(** The running position of the best value seen so far while scanning
    [l] from position [i]; [better x best] says that [x] replaces [best]. *)
Fixpoint arg_first (better : Q -> Q -> bool) (l : list Q) (i best_i : nat) (best : Q) : nat :=
  match l with
  | [] => best_i
  | x :: t =>
      if better x best
      then arg_first better t (S i) i x
      else arg_first better t (S i) best_i best
  end.

(** [series.idxmax()]: the position of the first largest value; an empty
    series raises. *)
Definition idxmax (l : list Q) : option nat :=
  match l with
  | [] => None
  | x :: t => Some (arg_first (fun y best => Qlt_bool best y) t 1 0 x)
  end.

(** [series.idxmin()] *)
Definition idxmin (l : list Q) : option nat :=
  match l with
  | [] => None
  | x :: t => Some (arg_first (fun y best => Qlt_bool y best) t 1 0 x)
  end.

(** Lines 133-138: the voltage of the row of extreme power. *)
Definition v_mpp (power_production_mode : bool) (jv_df : list jv_row) : option Q :=
  match (if power_production_mode
         then idxmax (map power jv_df)
         else idxmin (map power jv_df)) with
  | Some i => option_map voltage (nth_error jv_df i)
  | None => None
  end.

(** Lines 117-122: the time the JV scan is given, before the doubling of
    [join]; a zero step raises [ZeroDivisionError]. *)
Definition jv_run_time (p : JVScan_Procedure.Params) : option Q :=
  if Qeq_bool (JVScan_Procedure.voltage_step p) 0 then None
  else
    let t := Qabs ((JVScan_Procedure.settle_time p
                    + inject_Z (JVScan_Procedure.buffer_points p) * (2 # 100))
                   * (JVScan_Procedure.end_voltage p - JVScan_Procedure.start_voltage p)
                   / JVScan_Procedure.voltage_step p)%Q in
    Some (if JVScan_Procedure.full_sweep p then (t * 2)%Q else t).

End Main_Stages.

(** ** voc.py: one pass of the [execute] loop *)

Module Voc_Loop.

Module V := Voc_Procedure.

(** The body of [while self.progress < 1] (lines 143-158): [inl] when the
    run leaves [execute] in this pass, [inr] with the sample taken and the
    window carried into the next pass otherwise. *)
Definition pass (gas : nat) (p : V.Params) (data : list V.Datum)
  : M (V.exit_path + V.Datum * list V.Datum) :=
  pr <- V.progress p ;;
  if Qlt_bool pr 1
  then
    datum <- V._measure p ;;
    let data := V.window_update p data datum in
    settled <-
      (if (V.threshold_points p <=? Z.of_nat (length data))%Z
       then V._settled p data
       else ret false) ;;
    if (settled : bool)
    then ret (inl V.Settled)
    else
      Keithley2400_Procedure.wait_for gas (V.data_interval p) (V.data_interval p / 5)%Q ;;
      ret (inr (datum, data))
  else ret (inl V.TimedOut).


End Voc_Loop.

(** ** Further notions *)

(** The computation leaves the observation [f] of the world as it was. *)
Definition keeps {B A} (f : World -> B) (m : M A) : Prop :=
  forall w, f (snd (m w)) = f w.

(** The power column of an emitted tracker row. *)
Definition row_power (r : row) : Q := nth 3 (map snd r) 0%Q.

(** The row [_measure_datum] emits for a datum. *)
Definition mpp_row (d : MPPTracking_Procedure.Datum) : row :=
  [("time [s]", MPPTracking_Procedure.d_time d);
   ("voltage [V]", MPPTracking_Procedure.d_voltage d);
   ("current [A]", MPPTracking_Procedure.d_current d);
   ("power [W]", MPPTracking_Procedure.d_power d)].

(** The row the Voc detector emits for a datum. *)
Definition voc_row (d : Voc_Procedure.Datum) : row :=
  [("time [s]", Voc_Procedure.d_time d);
   ("voltage [V]", Voc_Procedure.d_voltage d);
   ("current [A]", Voc_Procedure.d_current d)].

(** The row [_sweep] emits for a voltage and a current. *)
Definition jv_emitted (v i : Q) : row :=
  [("voltage [V]", v); ("current [A]", i); ("power [W]", (i * v)%Q)].

(** The mean of column [j] of a two-dimensional array. *)
Definition col_mean (j : nat) (data : list (list Q)) : Q :=
  mean (map (fun r => nth j r 0%Q) data).

(** A computation started with an instrument keeps the oracles and the
    instrument, only adds to the driver log, and adds no shutdown call
    unless it polled the stop flag raised. *)
Definition tidy {A} (m : M A) : Prop :=
  forall w, instr_set w ->
    stop_signal (snd (m w)) = stop_signal w /\
    instr_set (snd (m w)) /\
    polls w <= polls (snd (m w)) /\
    exists l, oplog (snd (m w)) = oplog w ++ l /\
              ((forall k, polls w <= k < polls (snd (m w)) -> stop_signal w k = false) ->
               ~ In Shutdown l).

(** A driver call other than the shutdown. *)
Definition not_shutdown (o : op) : Prop := o <> Shutdown.

(** The same scan run from the end voltage to the start voltage. *)
Definition reversed (p : JVScan_Procedure.Params) : JVScan_Procedure.Params :=
  JVScan_Procedure.mkParams
    (JVScan_Procedure.base p) (JVScan_Procedure.end_voltage p)
    (JVScan_Procedure.start_voltage p) (JVScan_Procedure.voltage_step p)
    (JVScan_Procedure.settle_time p) (JVScan_Procedure.max_current p)
    (JVScan_Procedure.buffer_points p) (JVScan_Procedure.full_sweep p).

(** The world after the first lines of [execute]: the clock read once,
    [_start_time] set to the reading and [_end_time] to the reading plus
    the budget. *)
Definition begun (budget : Q) (w : World) : World :=
  set_attrs (insert "_end_time" (VNum (clock w (clock_reads w) + budget)%Q))
    (set_attrs (insert "_start_time" (VNum (clock w (clock_reads w)))) (tick_clock w)).

(** ** Further concrete set-ups *)

Module Rig.

(** A tracker with a budget of ten seconds, one probe point and no dwell. *)
Definition mpp_short : MPPTracking_Procedure.Params :=
  MPPTracking_Procedure.mkParams Bench.port (1 # 6) (5 # 100) 2 (5 # 100) (1 # 2) 1 1 0 0 false.

(** A tracker whose budget is zero. *)
Definition mpp_zero : MPPTracking_Procedure.Params :=
  MPPTracking_Procedure.mkParams Bench.port 0 (5 # 100) 2 (5 # 100) 0 1 3 0 3 false.

(** The bench with the elements a JV scan sets, the [run_time] attribute
    of its [startup] and a driver that answers every query with [reply]. *)
Definition jv_world (answer : string) : World :=
  mkWorld (<[Keithley2400_Procedure.instrument_attr := VInstrument]>
             (<[Keithley2400_Procedure.elements_attr := VElems ["VOLT"; "CURR"]]>
                (<["run_time" := VNum 1]> ∅)))
          (fun n => inject_Z (Z.of_nat n)) 0 (fun _ => false) 0
          0 [] (fun _ => None) (fun _ => []) (fun _ => answer) [].

(** The Voc bench with a clock that advances twenty seconds per
    reading. *)
Definition voc_world_fast : World :=
  mkWorld Bench.started (fun n => inject_Z (20 * Z.of_nat n)) 0 (fun _ => false) 0
          0 [] (fun _ => None) (fun _ => [62 # 100; 0; 1]%Q) (fun _ => "") [].

(** A conversion that reads the fields ["1"] and ["2"] and nothing else. *)
Definition float12 (s : string) : option Q :=
  if String.eqb s "1" then Some 1%Q
  else if String.eqb s "2" then Some 2%Q
  else None.

(** The settings of [main.py] for the JV scan. *)
Definition jv : JVScan_Procedure.Params :=
  JVScan_Procedure.mkParams Bench.port 0 (1 # 10) (1 # 100) (1 # 100) (1 # 100) 5 true.

(** Three rows of a JV scan. *)
Definition jv_rows : list Main_Stages.jv_row :=
  [Main_Stages.mk_jv_row 0 0 0;
   Main_Stages.mk_jv_row (5 # 10) (- (1 # 10)) (- (5 # 100));
   Main_Stages.mk_jv_row (6 # 10) (- (5 # 100)) (- (3 # 100))].

End Rig.

(** ** Properties *)

Module MPP := MPPTracking_Procedure.
Module Voc := Voc_Procedure.
Module JV := JVScan_Procedure.
Module JVS := JVScan_Sweep.
Module K := Keithley2400_Procedure.

(** *** Comparisons and signs of rationals *)

Lemma Qlt_bool_iff (x y : Q) : Qlt_bool x y = true <-> (x < y)%Q.
Proof.
  unfold Qlt_bool. rewrite negb_true_iff.
  split.
  - intros H. apply Qnot_le_lt. intros Hle.
    apply Qle_bool_iff in Hle. congruence.
  - intros H. destruct (Qle_bool y x) eqn:E; [|reflexivity].
    apply Qle_bool_iff in E. exfalso. apply (Qlt_not_le _ _ H E).
Qed.

Lemma Qlt_bool_false (x y : Q) : Qlt_bool x y = false <-> (y <= x)%Q.
Proof.
  unfold Qlt_bool. rewrite negb_false_iff. apply Qle_bool_iff.
Qed.

Lemma Qlt_bool_comp (x x' y y' : Q) :
  (x == x')%Q -> (y == y')%Q -> Qlt_bool x y = Qlt_bool x' y'.
Proof.
  intros Hx Hy.
  destruct (Qlt_bool x y) eqn:E, (Qlt_bool x' y') eqn:E'; try reflexivity;
    repeat match goal with
           | H : Qlt_bool _ _ = true |- _ => apply Qlt_bool_iff in H
           | H : Qlt_bool _ _ = false |- _ => apply Qlt_bool_false in H
           end; exfalso; lra.
Qed.

Lemma Qsign_pos (q : Q) : Qsign q = 1%Z <-> (0 < q)%Q.
Proof.
  unfold Qsign, Qlt. destruct q as [n d]; simpl.
  rewrite Z.mul_1_r. destruct n; simpl; split; intros H; try lia; try discriminate.
Qed.

Lemma Qsign_neg (q : Q) : Qsign q = (-1)%Z <-> (q < 0)%Q.
Proof.
  unfold Qsign, Qlt. destruct q as [n d]; simpl.
  rewrite Z.mul_1_r. destruct n; simpl; split; intros H; try lia; try discriminate.
Qed.

(** *** Accessors before start-up *)

Lemma attr_or_None_missing (name : string) (w : World) :
  attrs w !! name = None -> K.attr_or_None name w = (Ret VNone, w).
Proof.
  intros H. unfold K.attr_or_None, try_except, getattr. rewrite H. reflexivity.
Qed.

Lemma attr_or_None_present (name : string) (v : pyval) (w : World) :
  attrs w !! name = Some v -> K.attr_or_None name w = (Ret v, w).
Proof.
  intros H. unfold K.attr_or_None, try_except, getattr. rewrite H. reflexivity.
Qed.

(** C10. On a procedure instance whose lazily assigned attributes
    ([__instrument], [__elements], [_start_time], [_end_time]) do not exist
    yet, the accessors [instrument], [elements], [start_time] and
    [end_time] return [None], [time_elapsed] and [progress] return 0 (for
    both procedures that define them), and [shutdown] returns normally and
    leaves the world, hence the driver log, untouched. *)
Theorem accessors_before_startup (w : World) (pm : MPP.Params) (pv : Voc.Params) :
  attrs w !! K.instrument_attr = None ->
  attrs w !! K.elements_attr = None ->
  attrs w !! "_start_time" = None ->
  attrs w !! "_end_time" = None ->
  K.instrument w = (Ret VNone, w) /\
  K.elements w = (Ret VNone, w) /\
  MPP.start_time w = (Ret VNone, w) /\
  MPP.end_time w = (Ret VNone, w) /\
  MPP.time_elapsed w = (Ret 0%Q, w) /\
  MPP.progress pm w = (Ret 0%Q, w) /\
  Voc.start_time w = (Ret VNone, w) /\
  Voc.end_time w = (Ret VNone, w) /\
  Voc.time_elapsed w = (Ret 0%Q, w) /\
  Voc.progress pv w = (Ret 0%Q, w) /\
  K.shutdown w = (Ret tt, w).
Proof.
  intros Hi He Hs Hen.
  pose proof (attr_or_None_missing _ _ Hi) as Ei.
  pose proof (attr_or_None_missing _ _ He) as Ee.
  pose proof (attr_or_None_missing _ _ Hs) as Es.
  pose proof (attr_or_None_missing _ _ Hen) as Een.
  repeat split; try assumption.
  - unfold MPP.time_elapsed, MPP.start_time, bind. rewrite Es. reflexivity.
  - unfold MPP.progress, MPP.start_time, bind. rewrite Es. reflexivity.
  - unfold Voc.time_elapsed, Voc.start_time, bind. rewrite Es. reflexivity.
  - unfold Voc.progress, Voc.start_time, bind. rewrite Es. reflexivity.
  - unfold K.shutdown, K.instrument, bind. rewrite Ei. reflexivity.
Qed.

Lemma accessors_before_startup_witness :
  K.instrument Bench.fresh = (Ret VNone, Bench.fresh) /\
  MPP.progress Bench.mpp Bench.fresh = (Ret 0%Q, Bench.fresh) /\
  K.shutdown Bench.fresh = (Ret tt, Bench.fresh).
Proof.
  destruct (accessors_before_startup Bench.fresh Bench.mpp Bench.voc)
    as (H1 & _ & _ & _ & _ & H2 & _ & _ & _ & _ & H3);
    try (vm_compute; reflexivity).
  repeat split; assumption.
Defined.

(** *** Reshaping the flat buffer *)

Lemma reshape_length {A} (rows cols : nat) (data : list A) :
  length (K.reshape rows cols data) = rows.
Proof.
  revert data. induction rows as [|r IH]; intros data; simpl; [reflexivity|].
  now rewrite IH.
Qed.

Lemma reshape_concat {A} (rows cols : nat) (data : list A) :
  length data = rows * cols -> concat (K.reshape rows cols data) = data.
Proof.
  revert data. induction rows as [|r IH]; intros data Hlen; simpl in *.
  - destruct data; [reflexivity | discriminate].
  - rewrite IH.
    + apply firstn_skipn.
    + rewrite length_skipn. lia.
Qed.

Lemma reshape_widths {A} (rows cols : nat) (data : list A) :
  length data = rows * cols ->
  Forall (fun r => length r = cols) (K.reshape rows cols data).
Proof.
  revert data. induction rows as [|r IH]; intros data Hlen; simpl in *.
  - constructor.
  - constructor.
    + rewrite length_firstn. lia.
    + apply IH. rewrite length_skipn. lia.
Qed.

(** [get_elements] never yields an empty list: [split] returns at least
    one field. *)
Lemma split_nonempty (sep : ascii) (s : string) : split sep s <> [].
Proof.
  induction s as [|c s IH]; simpl; [discriminate|].
  destruct (Ascii.eqb c sep); [discriminate|].
  destruct (split sep s); [contradiction | discriminate].
Qed.

Lemma get_elements_nonempty (w w' : World) (els : list string) :
  K.get_elements w = (Ret els, w') -> els <> [].
Proof.
  unfold K.get_elements, bind.
  destruct (K.ask ":format:elements?" w) as [[r| |] w1]; try discriminate.
  unfold ret. intros [= <- <-]. apply split_nonempty.
Qed.

(** X2. A [set_elements] that returns has stored a non-empty element
    list. *)
Lemma set_elements_nonempty (elms : list string) (w w' : World) :
  K.set_elements elms w = (Ret tt, w') ->
  exists els, attrs w' !! K.elements_attr = Some (VElems els) /\ els <> [].
Proof.
  unfold K.set_elements.
  destruct (forallb _ elms); [|discriminate].
  unfold bind at 1.
  destruct (K.call _ w) as [[i| |] w1]; try discriminate.
  unfold bind at 1.
  destruct (K.get_elements w1) as [[els| |] w2] eqn:E; try discriminate.
  unfold setattr. intros [= <-]. exists els. split.
  - simpl. apply lookup_insert_eq.
  - exact (get_elements_nonempty _ _ _ E).
Qed.

(** C3. With the measurement elements known (a non-empty list, as
    [get_elements] always produces), [format_data] on a flat sequence of
    length [k * len(elements)] returns [k] rows, each as wide as the
    element list, whose row-major flattening is the input; on a length
    that is no multiple of the number of elements it raises the
    [ValueError] of the integrity check. *)
Theorem format_data_reshape (w : World) (els : list string) (data : list Q) :
  attrs w !! K.elements_attr = Some (VElems els) ->
  els <> [] ->
  (forall k, length data = k * length els ->
     exists rows,
       K.format_data data w = (Ret rows, w) /\
       length rows = k /\
       Forall (fun r => length r = length els) rows /\
       concat rows = data) /\
  ((forall k, length data <> k * length els) ->
     K.format_data data w =
       (Raise (ValueError "Invalid data length. Data is not divisible by number of elements."), w)).
Proof.
  intros Hel Hne.
  assert (Hc : length els <> 0) by (destruct els; [congruence | simpl; lia]).
  unfold K.format_data, bind, K.elements.
  rewrite (attr_or_None_present _ _ _ Hel).
  apply Nat.eqb_neq in Hc as Hc'. rewrite Hc'.
  split.
  - intros k Hk.
    assert (Hm : length data mod length els = 0)
      by (rewrite Hk; apply Nat.Div0.mod_mul).
    assert (Hd : length data / length els = k)
      by (rewrite Hk; now apply Nat.div_mul).
    rewrite Hm, Hd. simpl. eexists. split; [reflexivity|].
    split; [apply reshape_length|].
    split; [now apply reshape_widths | now apply reshape_concat].
  - intros Hk.
    destruct (length data mod length els =? 0) eqn:E; [|reflexivity].
    apply Nat.eqb_eq in E. exfalso.
    apply (Hk (length data / length els)).
    pose proof (Nat.div_mod_eq (length data) (length els)). lia.
Qed.

Lemma format_data_reshape_witness :
  exists rows,
    K.format_data [1; 2; 3; 4; 5; 6]%Q (Bench.world 3 5 2) = (Ret rows, Bench.world 3 5 2) /\
    length rows = 2 /\
    Forall (fun r => length r = 3) rows /\
    concat rows = [1; 2; 3; 4; 5; 6]%Q.
Proof.
  destruct (format_data_reshape (Bench.world 3 5 2) ["VOLT"; "CURR"; "TIME"]
              [1; 2; 3; 4; 5; 6]%Q) as [H _].
  - vm_compute. reflexivity.
  - discriminate.
  - apply (H 2). reflexivity.
Defined.

(** *** Driver calls of a procedure that holds an instrument *)

Lemma instrument_set (w : World) :
  instr_set w -> K.instrument w = (Ret VInstrument, w).
Proof. intros H. now apply attr_or_None_present. Qed.

Lemma call_set (o : op) (w : World) : instr_set w -> K.call o w = dev o w.
Proof.
  intros H. unfold K.call, bind. now rewrite (instrument_set w H).
Qed.

Lemma shutdown_set (w : World) :
  instr_set w ->
  K.shutdown w =
    match fault w (length (oplog w)) with
    | Some e => (Raise e, log_op Shutdown w)
    | None => (Ret tt, log_op Shutdown w)
    end.
Proof.
  intros H. unfold K.shutdown, bind. rewrite (instrument_set w H). simpl.
  rewrite (instrument_set w H). unfold dev.
  destruct (fault w (length (oplog w))); reflexivity.
Qed.

Lemma call_step (o : op) (w : World) :
  instr_set w ->
  K.call o w =
    match fault w (length (oplog w)) with
    | Some e => (Raise e, log_op o w)
    | None => (Ret (length (oplog w)), log_op o w)
    end.
Proof.
  intros H. rewrite (call_set o w H). unfold dev.
  destruct (fault w (length (oplog w))); reflexivity.
Qed.

Lemma log_op_length (o : op) (w : World) :
  length (oplog (log_op o w)) = length (oplog w) + 1.
Proof. simpl. rewrite length_app. reflexivity. Qed.

Lemma dev_attrs (o : op) (w : World) : attrs (snd (dev o w)) = attrs w.
Proof. unfold dev. now destruct (fault w (length (oplog w))). Qed.

Lemma call_attrs (o : op) (w : World) : attrs (snd (K.call o w)) = attrs w.
Proof.
  unfold K.call, bind, K.instrument, K.attr_or_None, try_except, getattr.
  destruct (attrs w !! K.instrument_attr) as [[]|]; simpl;
    try reflexivity; apply dev_attrs.
Qed.

(** A [startup] that returns leaves the procedure with an instrument. *)
Lemma startup_sets_instrument (p : K.Params) (w w' : World) :
  K.startup p w = (Ret tt, w') -> instr_set w'.
Proof.
  unfold K.startup. destruct (K.port p) as [prt|]; [|discriminate].
  unfold bind at 1.
  destruct (dev (Connect prt) w) as [[i| |] w1]; try discriminate.
  unfold bind at 1. unfold setattr at 1. cbv beta iota.
  set (w2 := set_attrs (insert K.instrument_attr VInstrument) w1).
  assert (H2 : instr_set w2) by (unfold instr_set, w2; simpl; apply lookup_insert_eq).
  unfold bind at 1.
  pose proof (call_attrs Reset w2) as Ha.
  destruct (K.call Reset w2) as [[i'| |] w3]; try discriminate. simpl in Ha.
  unfold bind at 1.
  destruct (K.use_front_terminals p).
  - pose proof (call_attrs UseFrontTerminals w3) as Hb.
    destruct (K.call UseFrontTerminals w3) as [[i''| |] w4]; try discriminate.
    simpl in Hb. unfold ret. intros [= <-].
    unfold instr_set. rewrite Hb, Ha. exact H2.
  - pose proof (call_attrs UseRearTerminals w3) as Hb.
    destruct (K.call UseRearTerminals w3) as [[i''| |] w4]; try discriminate.
    simpl in Hb. unfold ret. intros [= <-].
    unfold instr_set. rewrite Hb, Ha. exact H2.
Qed.

(** On the fresh bench [startup] of the tracker completes, leaves an
    instrument and stores the element list the driver reported. *)
Lemma mpp_startup_runs :
  fst (MPP.startup Bench.mpp Bench.fresh) = Ret tt /\
  instr_set (snd (MPP.startup Bench.mpp Bench.fresh)) /\
  attrs (snd (MPP.startup Bench.mpp Bench.fresh)) !! K.elements_attr
    = Some (VElems ["VOLT"; "CURR"; "TIME"]).
Proof. repeat split; vm_compute; reflexivity. Qed.

(** *** Cancellation *)

Lemma quiet_same_polls (w w' : World) (l : list op) :
  stop_signal w' = stop_signal w ->
  fault w' = fault w ->
  instr_set w' ->
  polls w' = polls w ->
  oplog w' = oplog w ++ l ->
  quiet w w'.
Proof.
  intros Hs Hf Hi Hp Hl. unfold quiet.
  split; [assumption|]. split; [assumption|]. split; [assumption|].
  split; [lia|]. split; [intros k Hk; lia|].
  exists l. assumption.
Qed.

Lemma quiet_refl (w : World) : instr_set w -> quiet w w.
Proof.
  intros H. apply (quiet_same_polls w w []); try reflexivity || assumption.
  now rewrite app_nil_r.
Qed.

Lemma quiet_trans (w w1 w2 : World) : quiet w w1 -> quiet w1 w2 -> quiet w w2.
Proof.
  intros (Hs & Hf & Hi & Hp & Hq & l & Hl) (Hs' & Hf' & Hi' & Hp' & Hq' & l' & Hl').
  unfold quiet.
  split; [congruence|]. split; [congruence|]. split; [assumption|].
  split; [lia|]. split.
  - intros k Hk. destruct (Nat.lt_ge_cases k (polls w1)).
    + apply Hq. lia.
    + rewrite <- Hs. apply Hq'. lia.
  - exists (l ++ l'). rewrite Hl', Hl. now rewrite app_assoc.
Qed.

Lemma quiet_cancelled (w w1 w2 : World) (e : exn) :
  quiet w w1 -> cancelled w1 w2 e -> cancelled w w2 e.
Proof.
  intros (Hs & Hf & Hi & Hp & Hq & l & Hl) (l' & Hl' & Hp' & Ht & Hq' & He).
  exists (l ++ l').
  split; [rewrite Hl', Hl; now rewrite !app_assoc|].
  split; [lia|].
  split; [now rewrite <- Hs|].
  split.
  - intros k Hk. destruct (Nat.lt_ge_cases k (polls w1)).
    + apply Hq. lia.
    + rewrite <- Hs. apply Hq'. lia.
  - intros Hn. apply He. rewrite Hf, Hl.
    now rewrite <- app_assoc.
Qed.

Lemma post_after_quiet {A} (w w1 : World) (res : outcome A * World) :
  quiet w w1 -> post w1 res -> post w res.
Proof.
  intros Hq [H | (e & He & Hc)].
  - left. eapply quiet_trans; eassumption.
  - right. exists e. split; [assumption|]. eapply quiet_cancelled; eassumption.
Qed.

Lemma quiet_instr (w w' : World) : quiet w w' -> instr_set w'.
Proof. intros (_ & _ & H & _). exact H. Qed.

Lemma cancel_outcome_Ret {A} (w w' : World) (a : A) : ~ cancel_outcome w (Ret a, w').
Proof. intros (e & He & _). discriminate. Qed.

Lemma cancel_outcome_OutOfGas {A} (w w' : World) : ~ cancel_outcome w (@OutOfGas A, w').
Proof. intros (e & He & _). discriminate. Qed.

Lemma calm_ok {A} (m : M A) : calm m -> ok m.
Proof. intros H w Hw. left. now apply H. Qed.

Lemma ok_ret {A} (a : A) : ok (ret a).
Proof. intros w Hw. left. now apply quiet_refl. Qed.

Lemma ok_raise {A} (e : exn) : ok (@raise A e).
Proof. intros w Hw. left. now apply quiet_refl. Qed.

Lemma ok_out_of_gas {A} : ok (@out_of_gas A).
Proof. intros w Hw. left. now apply quiet_refl. Qed.

Lemma ok_bind {A B} (m : M A) (k : A -> M B) :
  ok m -> (forall a, ok (k a)) -> ok (bind m k).
Proof.
  intros Hm Hk w Hw. unfold bind.
  specialize (Hm w Hw).
  destruct (m w) as [[a|e|] w1] eqn:E.
  - destruct Hm as [Hq | Hc].
    + eapply post_after_quiet; [exact Hq|].
      apply Hk. exact (quiet_instr _ _ Hq).
    + exfalso. exact (cancel_outcome_Ret _ _ _ Hc).
  - destruct Hm as [Hq | (e' & He' & Hc)].
    + left. exact Hq.
    + right. exists e'. simpl in He'. injection He' as ->.
      split; [reflexivity | exact Hc].
  - destruct Hm as [Hq | Hc].
    + left. exact Hq.
    + exfalso. exact (cancel_outcome_OutOfGas _ _ Hc).
Qed.

Lemma calm_ret {A} (a : A) : calm (ret a).
Proof. intros w Hw. now apply quiet_refl. Qed.

Lemma calm_raise {A} (e : exn) : calm (@raise A e).
Proof. intros w Hw. now apply quiet_refl. Qed.

Lemma calm_bind {A B} (m : M A) (k : A -> M B) :
  calm m -> (forall a, calm (k a)) -> calm (bind m k).
Proof.
  intros Hm Hk w Hw. unfold bind.
  specialize (Hm w Hw).
  destruct (m w) as [[a|e|] w1] eqn:E; simpl in *; try assumption.
  eapply quiet_trans; [exact Hm|].
  apply Hk. exact (quiet_instr _ _ Hm).
Qed.

Lemma ok_try_except {A} (m : M A) (h : exn -> M A) :
  calm m -> (forall e, ok (h e)) -> ok (try_except m h).
Proof.
  intros Hm Hh w Hw. unfold try_except.
  specialize (Hm w Hw).
  destruct (m w) as [[a|e|] w1] eqn:E; simpl in *.
  - left. exact Hm.
  - eapply post_after_quiet; [exact Hm|].
    apply Hh. exact (quiet_instr _ _ Hm).
  - left. exact Hm.
Qed.

Lemma calm_try_except {A} (m : M A) (h : exn -> M A) :
  calm m -> (forall e, calm (h e)) -> calm (try_except m h).
Proof.
  intros Hm Hh w Hw. unfold try_except.
  specialize (Hm w Hw).
  destruct (m w) as [[a|e|] w1] eqn:E; simpl in *; try assumption.
  eapply quiet_trans; [exact Hm|].
  apply Hh. exact (quiet_instr _ _ Hm).
Qed.

Lemma calm_getattr (name : string) : calm (getattr name).
Proof.
  intros w Hw. unfold getattr.
  destruct (attrs w !! name); simpl; now apply quiet_refl.
Qed.

Lemma calm_setattr (name : string) (v : pyval) :
  name <> K.instrument_attr -> calm (setattr name v).
Proof.
  intros Hn w Hw. unfold setattr; simpl.
  apply (quiet_same_polls _ _ []); simpl; try reflexivity.
  - unfold instr_set; simpl. rewrite lookup_insert_ne by assumption. exact Hw.
  - now rewrite app_nil_r.
Qed.

Lemma calm_time_time : calm time_time.
Proof.
  intros w Hw. unfold time_time; simpl.
  apply (quiet_same_polls _ _ []); simpl; try reflexivity || assumption.
  now rewrite app_nil_r.
Qed.

Lemma calm_sleep (secs : Q) : calm (sleep secs).
Proof.
  unfold sleep. destruct (Qlt_bool secs 0); [apply calm_raise | apply calm_ret].
Qed.

Lemma calm_emit (r : row) : calm (emit r).
Proof.
  intros w Hw. unfold emit; simpl.
  apply (quiet_same_polls _ _ []); simpl; try reflexivity || assumption.
  now rewrite app_nil_r.
Qed.

Lemma calm_dev (o : op) : calm (dev o).
Proof.
  intros w Hw. unfold dev.
  destruct (fault w (length (oplog w))); simpl;
    apply (quiet_same_polls _ _ [o]); simpl; reflexivity || assumption.
Qed.

Lemma calm_read {A} (f : World -> A) : calm (fun w => (Ret (f w), w)).
Proof. intros w Hw. now apply quiet_refl. Qed.

Lemma calm_set_source (v : Q) : calm (fun w => (Ret tt, set_source v w)).
Proof.
  intros w Hw; simpl.
  apply (quiet_same_polls _ _ []); simpl; try reflexivity || assumption.
  now rewrite app_nil_r.
Qed.

Lemma calm_attr_or_None (name : string) : calm (K.attr_or_None name).
Proof.
  intros w Hw. unfold K.attr_or_None, try_except, getattr.
  destruct (attrs w !! name); simpl; now apply quiet_refl.
Qed.

Lemma calm_call (o : op) : calm (K.call o).
Proof.
  intros w Hw. rewrite (call_set o w Hw). now apply calm_dev.
Qed.

Lemma calm_shutdown : calm K.shutdown.
Proof.
  intros w Hw. rewrite (shutdown_set w Hw).
  destruct (fault w (length (oplog w))); simpl;
    apply (quiet_same_polls _ _ [Shutdown]); simpl; reflexivity || assumption.
Qed.

Create HintDb calm.
#[local] Hint Resolve calm_attr_or_None calm_call calm_shutdown : calm.

Ltac calm_step :=
  first
    [ apply calm_ret | apply calm_raise | apply calm_getattr
    | apply calm_time_time | apply calm_sleep | apply calm_emit
    | apply calm_dev | apply calm_read | apply calm_set_source
    | apply calm_setattr; discriminate
    | solve [auto with calm]
    | apply calm_bind; [ | intros ? ]
    | apply calm_try_except; [ | intros ? ]
    | progress cbv zeta
    | match goal with
      | |- calm (match ?x with _ => _ end) => destruct x
      end ].

Ltac calm_tac := repeat calm_step.

Lemma calm_ask (cmd : string) : calm (K.ask cmd).
Proof. unfold K.ask. calm_tac. Qed.

Lemma calm_format_data (data : list Q) : calm (K.format_data data).
Proof. unfold K.format_data, K.elements. calm_tac. Qed.

#[local] Hint Resolve calm_ask calm_format_data : calm.

(** The cooperative wait: every pass that polls [True] shuts the
    instrument down and raises; the loop is never re-entered after it. *)
Lemma ok_wait_for_loop (gas : nat) (end_ interval : Q) :
  ok (K.wait_for_loop gas end_ interval).
Proof.
  induction gas as [|g IH]; simpl.
  - apply ok_out_of_gas.
  - intros w Hw. unfold bind at 1. unfold time_time at 1.
    assert (H1 : quiet w (tick_clock w)) by (apply (calm_time_time w Hw)).
    assert (Hi1 : instr_set (tick_clock w)) by exact Hw.
    destruct (Qlt_bool (clock w (clock_reads w)) end_).
    + unfold bind at 1. unfold should_stop at 1. cbv beta iota.
      assert (Hi2 : instr_set (tick_polls (tick_clock w))) by exact Hw.
      destruct (stop_signal (tick_clock w) (polls (tick_clock w))) eqn:Es.
      * right. unfold bind. rewrite (shutdown_set _ Hi2). simpl in Es |- *.
        destruct (fault w (length (oplog w))) as [e|] eqn:Ef.
        -- exists e. split; [reflexivity|]. exists []. simpl.
           split; [reflexivity|]. split; [lia|].
           split; [now rewrite Nat.sub_0_r|].
           split; [intros k Hk; lia|].
           rewrite app_nil_r. congruence.
        -- exists K.user_stop. split; [reflexivity|]. exists []. simpl.
           split; [reflexivity|]. split; [lia|].
           split; [now rewrite Nat.sub_0_r|].
           split; [intros k Hk; lia|].
           reflexivity.
      * assert (H2 : quiet w (tick_polls (tick_clock w))).
        { unfold quiet; simpl. simpl in Es.
          split; [reflexivity|]. split; [reflexivity|]. split; [exact Hw|].
          split; [lia|]. split.
          - intros k Hk. assert (k = polls w) as -> by lia. exact Es.
          - exists []. now rewrite app_nil_r. }
        eapply post_after_quiet; [exact H2|].
        assert (Hok : ok (sleep interval ;; K.wait_for_loop g end_ interval))
          by (apply ok_bind; [apply calm_ok, calm_sleep | intros _; apply IH]).
        exact (Hok _ Hi2).
    + left. exact H1.
Qed.

Lemma ok_wait_for (gas : nat) (seconds interval : Q) :
  ok (K.wait_for gas seconds interval).
Proof.
  unfold K.wait_for. apply ok_bind.
  - apply calm_ok, calm_time_time.
  - intros now. apply ok_wait_for_loop.
Qed.

Create HintDb okdb.
#[local] Hint Resolve ok_wait_for : okdb.

Ltac ok_step :=
  first
    [ apply ok_ret | apply ok_raise | apply ok_out_of_gas
    | solve [auto with okdb]
    | solve [apply calm_ok; calm_tac]
    | apply ok_bind; [ | intros ? ]
    | apply ok_try_except; [ solve [calm_tac] | intros ? ]
    | progress cbv zeta
    | match goal with
      | |- ok (match ?x with _ => _ end) => destruct x
      end ].

Ltac ok_tac := repeat ok_step.

Lemma calm_mpp_time_elapsed : calm MPP.time_elapsed.
Proof. unfold MPP.time_elapsed, MPP.start_time. calm_tac. Qed.

#[local] Hint Resolve calm_mpp_time_elapsed : calm.

Lemma calm_mpp_progress (p : MPP.Params) : calm (MPP.progress p).
Proof. unfold MPP.progress, MPP.start_time. calm_tac. Qed.

Lemma calm_get_source_voltage : calm MPP.get_source_voltage.
Proof. unfold MPP.get_source_voltage. calm_tac. Qed.

Lemma calm_set_source_voltage (v : Q) : calm (MPP.set_source_voltage v).
Proof. unfold MPP.set_source_voltage. calm_tac. Qed.

Lemma calm_mpp_measure (p : MPP.Params) : calm (MPP._measure p).
Proof. unfold MPP._measure. calm_tac. Qed.

Lemma calm_mpp_elements_index (name : string) : calm (MPP.elements_index name).
Proof. unfold MPP.elements_index, K.elements. calm_tac. Qed.

#[local] Hint Resolve calm_mpp_progress calm_get_source_voltage
  calm_set_source_voltage calm_mpp_measure calm_mpp_elements_index : calm.

Lemma calm_measure_datum (p : MPP.Params) : calm (MPP._measure_datum p).
Proof. unfold MPP._measure_datum. calm_tac. Qed.

Lemma calm_time_remaining (start interval : Q) : calm (MPP._time_remaining start interval).
Proof. unfold MPP._time_remaining. calm_tac. Qed.

Lemma calm_decision (p : MPP.Params) (dir : Z) (d1 d2 : Q * list Q) :
  calm (MPP.decision p dir d1 d2).
Proof. unfold MPP.decision. calm_tac. Qed.

#[local] Hint Resolve calm_measure_datum calm_time_remaining calm_decision : calm.

Lemma ok_cycle (gas : nat) (p : MPP.Params) : ok (MPP.cycle gas p).
Proof. unfold MPP.cycle. ok_tac. Qed.

#[local] Hint Resolve ok_cycle : okdb.

Lemma ok_baseline_loop (gas fuel : nat) (p : MPP.Params) (powers : list Q) :
  ok (MPP.baseline_loop gas fuel p powers).
Proof.
  revert powers. induction fuel as [|f IH]; intros powers; simpl.
  - apply ok_out_of_gas.
  - ok_tac; apply IH.
Qed.

Lemma ok_probe_loop (gas n : nat) (p : MPP.Params) (powers : list Q) :
  ok (MPP.probe_loop gas n p powers).
Proof.
  revert powers. induction n as [|n IH]; intros powers; simpl.
  - apply ok_ret.
  - ok_tac; apply IH.
Qed.

#[local] Hint Resolve ok_baseline_loop ok_probe_loop : okdb.

Lemma ok_baseline (gas : nat) (p : MPP.Params) : ok (MPP._baseline gas p).
Proof. unfold MPP._baseline. ok_tac. Qed.

Lemma ok_probe (gas : nat) (p : MPP.Params) (dir : Z) : ok (MPP._probe gas p dir).
Proof. unfold MPP._probe. ok_tac. Qed.

#[local] Hint Resolve ok_baseline ok_probe : okdb.

Lemma ok_loop_body (gas : nat) (p : MPP.Params) (dir : Z) :
  ok (MPP.loop_body gas p dir).
Proof. unfold MPP.loop_body. ok_tac. Qed.

#[local] Hint Resolve ok_loop_body : okdb.

Lemma ok_mpp_execute_loop (gas fuel : nat) (p : MPP.Params) (dir : Z) :
  ok (MPP.execute_loop gas fuel p dir).
Proof.
  revert dir. induction fuel as [|f IH]; intros dir; simpl.
  - apply ok_out_of_gas.
  - ok_tac; apply IH.
Qed.

#[local] Hint Resolve ok_mpp_execute_loop : okdb.

Lemma ok_mpp_execute (gas : nat) (p : MPP.Params) : ok (MPP.execute gas p).
Proof. unfold MPP.execute, K.execute, MPP.start_time. ok_tac. Qed.

Lemma calm_voc_time_elapsed : calm Voc.time_elapsed.
Proof. unfold Voc.time_elapsed, Voc.start_time. calm_tac. Qed.

#[local] Hint Resolve calm_voc_time_elapsed : calm.

Lemma calm_voc_progress (p : Voc.Params) : calm (Voc.progress p).
Proof. unfold Voc.progress, Voc.start_time. calm_tac. Qed.

Lemma calm_get_data (p : Voc.Params) : calm (Voc._get_data p).
Proof. unfold Voc._get_data. calm_tac. Qed.

Lemma calm_voc_elements_index (name : string) : calm (Voc.elements_index name).
Proof. unfold Voc.elements_index, K.elements. calm_tac. Qed.

#[local] Hint Resolve calm_voc_progress calm_get_data calm_voc_elements_index : calm.

Lemma calm_voc_measure (p : Voc.Params) : calm (Voc._measure p).
Proof. unfold Voc._measure. calm_tac. Qed.

Lemma calm_settled (p : Voc.Params) (data : list Voc.Datum) : calm (Voc._settled p data).
Proof. unfold Voc._settled, Voc._extract_voltage. calm_tac. Qed.

#[local] Hint Resolve calm_voc_measure calm_settled : calm.

Lemma ok_voc_execute_loop (gas fuel : nat) (p : Voc.Params) (data : list Voc.Datum) :
  ok (Voc.execute_loop gas fuel p data).
Proof.
  revert data. induction fuel as [|f IH]; intros data; simpl.
  - apply ok_out_of_gas.
  - ok_tac; apply IH.
Qed.

#[local] Hint Resolve ok_voc_execute_loop : okdb.

Lemma ok_voc_execute (gas : nat) (p : Voc.Params) : ok (Voc.execute gas p).
Proof. unfold Voc.execute, K.execute, Voc.start_time. ok_tac. Qed.

Lemma observed_not_quiet (w w' : World) : stop_observed w w' -> ~ quiet w w'.
Proof.
  intros (k & Hk & Ht) (_ & _ & _ & _ & Hq & _).
  rewrite (Hq k Hk) in Ht. discriminate.
Qed.

Lemma ok_cancel {A} (m : M A) (w : World) :
  ok m -> instr_set w -> stop_observed w (snd (m w)) -> cancel_outcome w (m w).
Proof.
  intros Hok Hw Hobs. destruct (Hok w Hw) as [Hq | Hc]; [|exact Hc].
  exfalso. exact (observed_not_quiet _ _ Hobs Hq).
Qed.

(** C8. On a procedure that holds an instrument, whenever a poll of the
    stop flag made by [wait_for] answers [True] - in a call of [wait_for]
    itself, or anywhere in a run of the tracker's or of the Voc
    detector's [execute] - the computation ends with an exception; the
    last driver call is the instrument shutdown and that poll is the last
    one made, so no measurement follows it; and the exception is
    [RuntimeError( 'Procedure stopped by user.' )] unless the shutdown
    call itself raised. *)
Theorem cancellation_ends_the_run (gas : nat) (seconds interval : Q)
    (pm : MPP.Params) (pv : Voc.Params) (w : World) :
  instr_set w ->
  (stop_observed w (snd (K.wait_for gas seconds interval w)) ->
     cancel_outcome w (K.wait_for gas seconds interval w)) /\
  (stop_observed w (snd (MPP.execute gas pm w)) ->
     cancel_outcome w (MPP.execute gas pm w)) /\
  (stop_observed w (snd (Voc.execute gas pv w)) ->
     cancel_outcome w (Voc.execute gas pv w)).
Proof.
  intros Hw. repeat split; intros Hobs.
  - exact (ok_cancel _ w (ok_wait_for gas seconds interval) Hw Hobs).
  - exact (ok_cancel _ w (ok_mpp_execute gas pm) Hw Hobs).
  - exact (ok_cancel _ w (ok_voc_execute gas pv) Hw Hobs).
Qed.

Lemma cancellation_ends_the_run_witness :
  (stop_observed Bench.world_stopping (snd (K.wait_for 5 3 1 Bench.world_stopping)) /\
   cancel_outcome Bench.world_stopping (K.wait_for 5 3 1 Bench.world_stopping)) /\
  (stop_observed Bench.world_stopping (snd (MPP.execute 5 Bench.mpp Bench.world_stopping)) /\
   cancel_outcome Bench.world_stopping (MPP.execute 5 Bench.mpp Bench.world_stopping)) /\
  (stop_observed Bench.world_stopping (snd (Voc.execute 5 Bench.voc Bench.world_stopping)) /\
   cancel_outcome Bench.world_stopping (Voc.execute 5 Bench.voc Bench.world_stopping)).
Proof.
  destruct (cancellation_ends_the_run 5 3 1 Bench.mpp Bench.voc Bench.world_stopping)
    as (H1 & H2 & H3).
  - vm_compute. reflexivity.
  - assert (O1 : stop_observed Bench.world_stopping
                   (snd (K.wait_for 5 3 1 Bench.world_stopping)))
      by (exists 0; vm_compute; split; [lia | reflexivity]).
    assert (O2 : stop_observed Bench.world_stopping
                   (snd (MPP.execute 5 Bench.mpp Bench.world_stopping)))
      by (exists 0; vm_compute; split; [lia | reflexivity]).
    assert (O3 : stop_observed Bench.world_stopping
                   (snd (Voc.execute 5 Bench.voc Bench.world_stopping)))
      by (exists 0; vm_compute; split; [lia | reflexivity]).
    repeat split; auto.
Defined.

(** *** The Voc window *)

(** X19. Whenever the window overflows, what [window_update] keeps is
    the front of the list, that is the oldest samples. *)
Lemma window_update_overflow (p : Voc.Params) (data : list Voc.Datum) (datum : Voc.Datum) :
  (0 < Voc.threshold_points p)%Z ->
  (Voc.threshold_points p < Z.of_nat (length data) + 1)%Z ->
  Voc.window_update p data datum =
    firstn (length data + 1 - Z.to_nat (Voc.threshold_points p)) (data ++ [datum]).
Proof.
  intros Hpos Hlt. unfold Voc.window_update, Voc.slice_to.
  rewrite length_app. simpl length.
  replace (Voc.threshold_points p <? Z.of_nat (length data + 1))%Z with true
    by (symmetry; apply Z.ltb_lt; lia).
  replace (- Voc.threshold_points p <? 0)%Z with true
    by (symmetry; apply Z.ltb_lt; lia).
  f_equal. lia.
Qed.

(** *** The Voc detector never reports [Settled] *)

Lemma settled_raises (p : Voc.Params) (data : list Voc.Datum) (w : World) :
  Voc._settled p data w =
    (Raise (TypeError "_extract_voltage() missing 1 required positional argument: 'data'"), w).
Proof. reflexivity. Qed.

Lemma execute_loop_never_settled (gas fuel : nat) (p : Voc.Params)
    (data : list Voc.Datum) (w w' : World) :
  Voc.execute_loop gas fuel p data w <> (Ret Voc.Settled, w').
Proof.
  revert data w. induction fuel as [|f IH]; intros data w; simpl.
  - discriminate.
  - unfold bind at 1.
    destruct (Voc.progress p w) as [[pr| |] w1]; try discriminate.
    destruct (Qlt_bool pr 1); [|discriminate].
    unfold bind at 1.
    destruct (Voc._measure p w1) as [[datum| |] w2]; try discriminate.
    unfold bind at 1.
    destruct (Voc.threshold_points p <=? _)%Z.
    + rewrite settled_raises. discriminate.
    + unfold ret at 1. cbv beta iota.
      unfold bind at 1.
      destruct (K.wait_for gas _ _ w2) as [[[]| |] w3]; try discriminate.
      apply IH.
Qed.

Lemma execute_never_settled (gas : nat) (p : Voc.Params) (w w' : World) :
  Voc.execute gas p w <> (Ret Voc.Settled, w').
Proof.
  unfold Voc.execute, K.execute.
  unfold bind at 1. unfold ret at 1. cbv beta iota.
  unfold bind at 1. unfold time_time at 1. cbv beta iota.
  unfold bind at 1. unfold setattr at 1. cbv beta iota.
  unfold bind at 1.
  destruct (Voc.start_time _) as [[st| |] w1]; try discriminate.
  destruct st; try discriminate.
  unfold bind at 1. unfold setattr at 1. cbv beta iota.
  unfold bind at 1.
  destruct (K.call EnableSource _) as [[i| |] w2]; try discriminate.
  apply execute_loop_never_settled.
Qed.

(** C4 on the code. With the settings of [main.py] ([threshold_points =
    5], [std_threshold = 0.01]) and five identical readings of 0.62 V, the
    fifth pass of the loop calls [_settled], which raises [TypeError]
    from the one-argument call of the two-parameter static method: the run
    ends with that exception after emitting five rows, not in [Settled].
    A reading that keeps alternating between 0.7 V and 0.5 V ends the
    same way at the fifth pass, long before [max_time], not in
    [TimedOut].  For every input, no run of [execute] returns through the
    [Settled] path. *)
Theorem voc_constant_signal_raises :
  fst (Voc.execute 10 Bench.voc (Bench.world (62 # 100) 0 1)) =
    Raise (TypeError "_extract_voltage() missing 1 required positional argument: 'data'") /\
  length (emitted (snd (Voc.execute 10 Bench.voc (Bench.world (62 # 100) 0 1)))) = 5 /\
  Voc.std_le (repeat (62 # 100)%Q 5) (Voc.std_threshold Bench.voc) = true /\
  fst (Voc.execute 10 Bench.voc Bench.world_noisy) =
    Raise (TypeError "_extract_voltage() missing 1 required positional argument: 'data'") /\
  map (fun r => nth 1 (map snd r) 0%Q)
      (emitted (snd (Voc.execute 10 Bench.voc Bench.world_noisy)))
    = [7 # 10; 5 # 10; 7 # 10; 5 # 10; 7 # 10]%Q /\
  Voc.std_le [7 # 10; 5 # 10; 7 # 10; 5 # 10; 7 # 10]%Q (Voc.std_threshold Bench.voc) = false /\
  (forall gas p w w', Voc.execute gas p w <> (Ret Voc.Settled, w')).
Proof.
  repeat (split; [vm_compute; reflexivity|]).
  intros. apply execute_never_settled.
Qed.

(** *** The window along a run *)

(** [execute_loop] is the repetition of [pass]. *)
Lemma execute_loop_pass (gas f : nat) (p : Voc.Params) (data : list Voc.Datum) (w : World) :
  Voc.execute_loop gas (S f) p data w =
    match Voc_Loop.pass gas p data w with
    | (Ret (inl x), w') => (Ret x, w')
    | (Ret (inr (_, data')), w') => Voc.execute_loop gas f p data' w'
    | (Raise e, w') => (Raise e, w')
    | (OutOfGas, w') => (OutOfGas, w')
    end.
Proof.
  cbn [Voc.execute_loop]. unfold Voc_Loop.pass, bind.
  destruct (Voc.progress p w) as [[pr| |] w1]; try reflexivity.
  destruct (Qlt_bool pr 1); [|reflexivity].
  destruct (Voc._measure p w1) as [[datum| |] w2]; try reflexivity.
  cbv zeta.
  destruct (Voc.threshold_points p <=? _)%Z.
  - rewrite settled_raises. reflexivity.
  - unfold ret at 1 3. cbv beta iota.
    destruct (K.wait_for gas _ _ w2) as [[[]| |] w3]; reflexivity.
Qed.





(** *** Sweep step normalisation *)

(** The sign of the normalised step, and when it is the negated one. *)
Lemma effective_step_cases (p : JV.Params) :
  ~ (JV.voltage_step p == 0)%Q ->
  ~ (JV.start_voltage p == JV.end_voltage p)%Q ->
  Qsign (JV.effective_step p) = Qsign (JV.end_voltage p - JV.start_voltage p) /\
  (Qsign (JV.voltage_step p) <> Qsign (JV.end_voltage p - JV.start_voltage p) ->
     JV.effective_step p = (JV.voltage_step p * -1)%Q) /\
  (Qsign (JV.voltage_step p) = Qsign (JV.end_voltage p - JV.start_voltage p) ->
     JV.effective_step p = JV.voltage_step p).
Proof.
  intros Hstep Hspan. unfold JV.effective_step.
  set (a := JV.start_voltage p) in *. set (b := JV.end_voltage p) in *.
  set (s := JV.voltage_step p) in *.
  destruct (Qlt_bool b a) eqn:Eba, (Qlt_bool 0 s) eqn:Es0,
           (Qlt_bool a b) eqn:Eab, (Qlt_bool s 0) eqn:E0s; simpl;
    repeat match goal with
           | H : Qlt_bool _ _ = true |- _ => apply Qlt_bool_iff in H
           | H : Qlt_bool _ _ = false |- _ => apply Qlt_bool_false in H
           end;
    try (exfalso; lra).
  all: first
    [ assert (Hd : (b - a < 0)%Q) by lra;
      apply Qsign_neg in Hd; rewrite Hd
    | assert (Hd : (0 < b - a)%Q) by lra;
      apply Qsign_pos in Hd; rewrite Hd ].
  all: first
    [ assert (Hs : (s < 0)%Q) by lra;
      assert (Hs' : (s * -1 > 0)%Q) by lra;
      apply Qsign_neg in Hs; apply Qsign_pos in Hs'
    | assert (Hs : (0 < s)%Q) by lra;
      assert (Hs' : (s * -1 < 0)%Q) by lra;
      apply Qsign_pos in Hs; apply Qsign_neg in Hs' ].
  all: rewrite ?Hs, ?Hs'; repeat split; intros; congruence.
Qed.

Section Appends.

Variable P : op -> Prop.

Lemma appends_nothing {A} (m : M A) :
  (forall w, oplog (snd (m w)) = oplog w) -> appends P m.
Proof.
  intros H w. exists []. rewrite H, app_nil_r. split; [reflexivity | constructor].
Qed.

Lemma appends_bind {A B} (m : M A) (k : A -> M B) :
  appends P m -> (forall a, appends P (k a)) -> appends P (bind m k).
Proof.
  intros Hm Hk w. unfold bind.
  destruct (Hm w) as (l & Hl & HP).
  destruct (m w) as [[a|e|] w1]; simpl in *.
  - destruct (Hk a w1) as (l' & Hl' & HP').
    exists (l ++ l'). rewrite Hl', Hl, app_assoc.
    split; [reflexivity | now apply Forall_app].
  - exists l. now split.
  - exists l. now split.
Qed.

Lemma appends_try_except {A} (m : M A) (h : exn -> M A) :
  appends P m -> (forall e, appends P (h e)) -> appends P (try_except m h).
Proof.
  intros Hm Hh w. unfold try_except.
  destruct (Hm w) as (l & Hl & HP).
  destruct (m w) as [[a|e|] w1]; simpl in *.
  - exists l. now split.
  - destruct (Hh e w1) as (l' & Hl' & HP').
    exists (l ++ l'). rewrite Hl', Hl, app_assoc.
    split; [reflexivity | now apply Forall_app].
  - exists l. now split.
Qed.

Lemma appends_ret {A} (a : A) : appends P (ret a).
Proof. now apply appends_nothing. Qed.

Lemma appends_raise {A} (e : exn) : appends P (@raise A e).
Proof. now apply appends_nothing. Qed.

Lemma appends_getattr (name : string) : appends P (getattr name).
Proof.
  apply appends_nothing. intros w. unfold getattr.
  now destruct (attrs w !! name).
Qed.

Lemma appends_setattr (name : string) (v : pyval) : appends P (setattr name v).
Proof. now apply appends_nothing. Qed.

Lemma appends_sleep (secs : Q) : appends P (sleep secs).
Proof.
  unfold sleep. destruct (Qlt_bool secs 0); [apply appends_raise | apply appends_ret].
Qed.

Lemma appends_read {A} (f : World -> A) : appends P (fun w => (Ret (f w), w)).
Proof. now apply appends_nothing. Qed.

Lemma appends_dev (o : op) : P o -> appends P (dev o).
Proof.
  intros Ho w. exists [o]. unfold dev.
  destruct (fault w (length (oplog w))); simpl; (split; [reflexivity|]);
    constructor; assumption || constructor.
Qed.

Lemma appends_instrument : appends P K.instrument.
Proof.
  unfold K.instrument, K.attr_or_None.
  apply appends_try_except; [apply appends_getattr|].
  intros []; apply appends_ret || apply appends_raise.
Qed.

Lemma appends_call (o : op) : P o -> appends P (K.call o).
Proof.
  intros Ho. unfold K.call. apply appends_bind; [apply appends_instrument|].
  intros []; apply appends_raise || now apply appends_dev.
Qed.

End Appends.

Ltac appends_step :=
  first
    [ apply appends_ret | apply appends_raise | apply appends_getattr
    | apply appends_setattr | apply appends_sleep | apply appends_read
    | apply appends_dev; intros ? [=]
    | apply appends_call; intros ? [=]
    | apply appends_bind; [ | intros ? ]
    | progress cbv zeta
    | match goal with
      | |- appends _ (match ?x with _ => _ end) => destruct x
      end ].

(** Whatever [startup] writes as the sweep step is [effective_step]. *)
Lemma startup_programs_effective_step (p : JV.Params) :
  appends (step_is (JV.effective_step p)) (JV.startup p).
Proof.
  unfold JV.startup, K.startup, K.set_elements, K.get_elements, K.ask.
  repeat appends_step.
  all: congruence.
Qed.

(** On the bench the downward sweep completes and the log holds the
    step command with the negated step. *)
Lemma startup_writes_negated_step :
  fst (JV.startup Bench.jv_down (Bench.world_replying "VOLT,CURR" "11")) = Ret tt /\
  In (WriteNum JV.step_cmd ((1 # 100) * -1)%Q)
     (oplog (snd (JV.startup Bench.jv_down (Bench.world_replying "VOLT,CURR" "11")))).
Proof.
  split; [vm_compute; reflexivity|].
  vm_compute. do 9 right. left. reflexivity.
Qed.

Lemma appends_at {A} (P : op -> Prop) (m : M A) (w w' : World) (r : outcome A) :
  appends P m -> m w = (r, w') -> exists l, oplog w' = oplog w ++ l.
Proof.
  intros Ha E. destruct (Ha w) as (l & Hl & _). rewrite E in Hl. eauto.
Qed.

Lemma call_logs (o : op) (w w' : World) (i : nat) :
  K.call o w = (Ret i, w') -> oplog w' = oplog w ++ [o].
Proof.
  unfold K.call, bind, K.instrument, K.attr_or_None, try_except, getattr.
  destruct (attrs w !! K.instrument_attr) as [[| | |]|]; simpl; try discriminate.
  unfold dev. destruct (fault w (length (oplog w))); [discriminate|].
  intros [= _ <-]. reflexivity.
Qed.

(** A [startup] that returns has sent the step command, and with the
    normalised step. *)
Lemma startup_sends_effective_step (p : JV.Params) (w w' : World) :
  JV.startup p w = (Ret tt, w') ->
  exists l1 l2,
    oplog w' = oplog w ++ l1 ++ WriteNum JV.step_cmd (JV.effective_step p) :: l2.
Proof.
  set (P := step_is (JV.effective_step p)).
  intros H. unfold JV.startup in H. cbv zeta in H.
  unfold bind at 1 in H.
  destruct (K.startup (JV.base p) w) as [[[]| |] w1] eqn:E1; try discriminate.
  unfold bind at 1 in H.
  destruct (K.call (Write ":format:data ascii") w1) as [[i2| |] w2] eqn:E2; try discriminate.
  unfold bind at 1 in H.
  destruct (K.call (ApplyVoltage None (JV.max_current p)) w2) as [[i3| |] w3] eqn:E3;
    try discriminate.
  unfold bind at 1 in H.
  destruct (K.set_elements ["voltage"; "current"] w3) as [[[]| |] w4] eqn:E4; try discriminate.
  unfold bind at 1 in H.
  destruct (K.call (WriteNum ":source:voltage:start" (JV.start_voltage p)) w4)
    as [[i5| |] w5] eqn:E5; try discriminate.
  unfold bind at 1 in H.
  destruct (K.call (WriteNum ":source:voltage:stop" (JV.end_voltage p)) w5)
    as [[i6| |] w6] eqn:E6; try discriminate.
  unfold bind at 1 in H.
  destruct (K.call (WriteNum JV.step_cmd (JV.effective_step p)) w6)
    as [[i7| |] w7] eqn:E7; try discriminate.
  assert (A1 : appends P (K.startup (JV.base p)))
    by (unfold K.startup; repeat appends_step; congruence).
  assert (A4 : appends P (K.set_elements ["voltage"; "current"]))
    by (unfold K.set_elements, K.get_elements, K.ask; repeat appends_step; congruence).
  pose proof (appends_at P _ _ _ _ A1 E1) as H1.
  pose proof (appends_at P _ _ _ _ A4 E4) as H4.
  assert (Hr : exists l, oplog w' = oplog w7 ++ l).
  { match type of H with
    | ?m w7 = _ =>
        assert (Ar : appends P m)
          by (unfold K.ask; repeat appends_step; congruence);
        exact (appends_at P m _ _ _ Ar H)
    end. }
  destruct H1 as (l1 & H1). destruct H4 as (l4 & H4). destruct Hr as (lr & Hr).
  apply call_logs in E2, E3, E5, E6, E7.
  exists (l1 ++ [Write ":format:data ascii"] ++ [ApplyVoltage None (JV.max_current p)]
          ++ l4 ++ [WriteNum ":source:voltage:start" (JV.start_voltage p)]
          ++ [WriteNum ":source:voltage:stop" (JV.end_voltage p)]), lr.
  rewrite Hr, E7, E6, E5, H4, E3, E2, H1.
  rewrite <- !app_assoc. reflexivity.
Qed.

(** C6. When the caller's step is not zero and the sweep is not empty, the
    step that [startup] programs has the sign of [end_voltage -
    start_voltage]: a [startup] that returns has sent the
    [:source:voltage:step] command with [effective_step], every step
    command [startup] sends carries [effective_step], and
    [effective_step] has the sign of the sweep; it is the negated caller
    step exactly when the caller's sign disagrees with the sweep
    direction, and the caller's step itself otherwise. *)
Theorem effective_step_sign (p : JV.Params) (w : World) :
  ~ (JV.voltage_step p == 0)%Q ->
  ~ (JV.start_voltage p == JV.end_voltage p)%Q ->
  (exists l, oplog (snd (JV.startup p w)) = oplog w ++ l /\
             Forall (step_is (JV.effective_step p)) l /\
             (fst (JV.startup p w) = Ret tt ->
              In (WriteNum JV.step_cmd (JV.effective_step p)) l)) /\
  Qsign (JV.effective_step p) = Qsign (JV.end_voltage p - JV.start_voltage p) /\
  (Qsign (JV.voltage_step p) <> Qsign (JV.end_voltage p - JV.start_voltage p) ->
     JV.effective_step p = (JV.voltage_step p * -1)%Q) /\
  (Qsign (JV.voltage_step p) = Qsign (JV.end_voltage p - JV.start_voltage p) ->
     JV.effective_step p = JV.voltage_step p).
Proof.
  intros Hstep Hspan. split.
  - destruct (startup_programs_effective_step p w) as (l & Hl & Hall).
    exists l. split; [exact Hl|]. split; [exact Hall|].
    destruct (JV.startup p w) as [r w'] eqn:E. simpl in *. intros ->.
    destruct (startup_sends_effective_step p w w' E) as (l1 & l2 & Hs).
    rewrite Hl in Hs. apply app_inv_head in Hs. rewrite Hs.
    apply in_or_app. right. left. reflexivity.
  - now apply effective_step_cases.
Qed.

Lemma effective_step_sign_witness :
  fst (JV.startup Bench.jv_down (Bench.world_replying "VOLT,CURR" "11")) = Ret tt /\
  In (WriteNum JV.step_cmd ((1 # 100) * -1)%Q)
     (oplog (snd (JV.startup Bench.jv_down (Bench.world_replying "VOLT,CURR" "11")))) /\
  Qsign (JV.effective_step Bench.jv_down) = (-1)%Z.
Proof.
  assert (Hret : fst (JV.startup Bench.jv_down (Bench.world_replying "VOLT,CURR" "11")) = Ret tt)
    by (vm_compute; reflexivity).
  destruct (effective_step_sign Bench.jv_down (Bench.world_replying "VOLT,CURR" "11"))
    as ((l & Hl & _ & Hin) & H1 & H2 & _).
  - unfold Qeq; simpl; lia.
  - unfold Qeq; simpl; lia.
  - split; [exact Hret|]. split.
    + rewrite Hl. apply in_or_app. right.
      pose proof (Hin Hret) as Hi. rewrite H2 in Hi by (vm_compute; discriminate).
      exact Hi.
    + rewrite H1. reflexivity.
Defined.


(** *** The summarized power of one acquisition cycle *)

(** Whatever [_measure_datum] returns, its power is the mean of the
    products of all the columns of the formatted buffer, and the element
    list holds TIME, VOLT and CURR at the positions the means were read
    from. *)
Lemma measure_datum_power (p : MPP.Params) (w w' : World) (d : MPP.Datum) :
  MPP._measure_datum p w = (Ret d, w') ->
  exists data w1 els it iv ic,
    MPP._measure p w = (Ret data, w1) /\
    attrs w1 !! K.elements_attr = Some (VElems els) /\
    index "TIME" els = Some it /\
    index "VOLT" els = Some iv /\
    index "CURR" els = Some ic /\
    MPP.d_power d = mean (MPP.row_prods data).
Proof.
  unfold MPP._measure_datum. unfold bind at 1.
  destruct (MPP._measure p w) as [[data| |] w1]; try discriminate.
  assert (Hidx : forall name (w0 : World) (r : outcome nat) (w0' : World),
             MPP.elements_index name w0 = (r, w0') -> w0' = w0 /\
             forall i, r = Ret i ->
               exists els, attrs w0 !! K.elements_attr = Some (VElems els) /\
                           index name els = Some i).
  { intros name w0 r w0'. unfold MPP.elements_index, bind, K.elements,
      K.attr_or_None, try_except, getattr.
    destruct (attrs w0 !! K.elements_attr) as [[]|] eqn:E; simpl;
      try (intros [= <- <-]; split; [reflexivity | intros; discriminate]).
    destruct (index name l) eqn:Ei; simpl; intros [= <- <-];
      (split; [reflexivity|]); intros i [= <-].
    eauto. }
  unfold bind at 1.
  destruct (MPP.elements_index "TIME" w1) as [[it| |] w2] eqn:Et; try discriminate.
  destruct (Hidx _ _ _ _ Et) as [-> Ht]. destruct (Ht it eq_refl) as (els & Hel & Hit).
  unfold bind at 1.
  destruct (MPP.time_elapsed w1) as [[te| |] w3] eqn:Ete; try discriminate.
  unfold bind at 1.
  destruct (MPP.elements_index "VOLT" w3) as [[iv| |] w4] eqn:Ev; try discriminate.
  destruct (Hidx _ _ _ _ Ev) as [-> Hv]. destruct (Hv iv eq_refl) as (els' & Hel' & Hiv).
  unfold bind at 1.
  destruct (MPP.elements_index "CURR" w3) as [[ic| |] w5] eqn:Ec; try discriminate.
  destruct (Hidx _ _ _ _ Ec) as [-> Hc]. destruct (Hc ic eq_refl) as (els'' & Hel'' & Hic).
  unfold bind, emit, ret. intros [= <- <-].
  assert (Hw3 : attrs w3 = attrs w1).
  { revert Ete. unfold MPP.time_elapsed, bind, MPP.start_time, K.attr_or_None,
      try_except, getattr, time_time, ret, raise.
    destruct (attrs w1 !! "_start_time") as [[]|]; simpl;
      try (intros [= <- <-]; reflexivity);
      destruct (attrs w1 !! "_start_time") as [[]|]; simpl;
      intros [= <- <-]; reflexivity. }
  rewrite Hw3 in Hel', Hel''. rewrite Hel in Hel', Hel''.
  injection Hel' as <-. injection Hel'' as <-.
  exists data, w1, els, it, iv, ic. repeat split; assumption || reflexivity.
Qed.

(** C2 on the code. With the elements [VOLT, CURR, TIME] and a buffer
    holding the one row (3 V, 5 A, 2 s), [_measure_datum] reports the
    voltage 3, the current 5 and the power 30 = 3 * 5 * 2, the product of
    all three columns, where the mean of voltage times current is 15. *)
Theorem measure_datum_multiplies_time :
  exists d w',
    MPP._measure_datum Bench.mpp (Bench.world 3 5 2) = (Ret d, w') /\
    (MPP.d_voltage d == 3)%Q /\
    (MPP.d_current d == 5)%Q /\
    (MPP.d_power d == 30)%Q /\
    (claimed_power 0 1 [[3; 5; 2]%Q] == 15)%Q /\
    ~ (MPP.d_power d == claimed_power 0 1 [[3; 5; 2]%Q])%Q.
Proof.
  eexists. eexists. split; [vm_compute; reflexivity|].
  repeat split; try (vm_compute; reflexivity).
  vm_compute. discriminate.
Qed.

(** *** The perturb-and-observe decision *)

(** [_better_voltage] returns the probe voltage unless the baseline
    comparator is strictly larger. *)
Lemma better_voltage_cases (p : MPP.Params) (v1 v2 : Q) (p1 p2 : list Q) :
  let '(m1, m2) := MPP.comparators p p1 p2 in
  ((m1 <= m2)%Q -> MPP._better_voltage p (v1, p1) (v2, p2) = v2) /\
  ((m2 < m1)%Q -> MPP._better_voltage p (v1, p1) (v2, p2) = v1).
Proof.
  unfold MPP._better_voltage.
  destruct (MPP.comparators p p1 p2) as [m1 m2].
  destruct (Qlt_bool m2 m1) eqn:E.
  - apply Qlt_bool_iff in E. split; intros H; [exfalso; lra | reflexivity].
  - apply Qlt_bool_false in E. split; intros H; [reflexivity | exfalso; lra].
Qed.

(** The loop flips [probe_direction], and writes the baseline voltage
    back, exactly when the voltage [_better_voltage] returned equals the
    baseline voltage. *)
Lemma decision_direction (p : MPP.Params) (dir : Z) (d1 d2 : Q * list Q)
    (w w' : World) (dir' : Z) :
  MPP.decision p dir d1 d2 w = (Ret dir', w') ->
  ((MPP._better_voltage p d1 d2 == fst d1)%Q -> dir' = (dir * -1)%Z) /\
  (~ (MPP._better_voltage p d1 d2 == fst d1)%Q -> dir' = dir /\ w' = w).
Proof.
  unfold MPP.decision.
  destruct (Qeq_bool (MPP._better_voltage p d1 d2) (fst d1)) eqn:E.
  - apply Qeq_bool_iff in E. unfold bind.
    destruct (MPP.set_source_voltage (fst d1) w) as [[[]| |] w1]; try discriminate.
    unfold ret. intros [= <- <-]. split; [reflexivity | contradiction].
  - unfold ret. intros [= <- <-].
    split; [|split; reflexivity].
    intros H. apply Qeq_bool_iff in H. congruence.
Qed.

Lemma slice_from_last_n {A} (n : Z) (l : list A) :
  (0 < n)%Z -> MPP.slice_from (- n) l = last_n (Z.to_nat n) l.
Proof.
  intros Hn. unfold MPP.slice_from, last_n.
  replace (- n <? 0)%Z with true by (symmetry; apply Z.ltb_lt; lia).
  f_equal. lia.
Qed.

(** With at least one point to compare, the comparators of the code are
    the sums the design document describes. *)
Lemma comparators_as_claimed (p : MPP.Params) (p1 p2 : list Q) :
  (0 < MPP.num_points p p1 p2)%Z ->
  let '(m1, m2) := MPP.comparators p p1 p2 in
  let '(c1, c2) := claimed_comparators p p1 p2 in
  (m1 == c1)%Q /\ (m2 == c2)%Q.
Proof.
  intros Hn. unfold MPP.comparators, claimed_comparators.
  rewrite !slice_from_last_n by assumption.
  destruct (MPP.power_production_mode p); simpl; split; lra.
Qed.

(** C1 on the code. With [probe_interval = 0] the baseline phase
    returns an empty power list.  For the empty baseline and the probe
    powers [1, 2, 3] ([probe_points = 3], consumption mode) the number of
    compared points is 0 and the slice [p2[ -0: ]] is all of [p2]: the
    code compares 0 with -6, returns the baseline voltage and flips the
    direction, where the sums of the last 0 elements are 0 and 0, a tie,
    for which the probe is to be kept and the direction left alone.  A
    whole pass of the loop on the bench flips the direction likewise. *)
Theorem decision_on_empty_baseline :
  fst (MPP._baseline 5 Bench.mpp (Bench.world 3 5 2)) = Ret (0%Q, []) /\
  MPP.num_points Bench.mpp [] [1; 2; 3]%Q = 0%Z /\
  (fst (MPP.comparators Bench.mpp [] [1; 2; 3]%Q) == 0)%Q /\
  (snd (MPP.comparators Bench.mpp [] [1; 2; 3]%Q) == -6)%Q /\
  (fst (claimed_comparators Bench.mpp [] [1; 2; 3]%Q) == 0)%Q /\
  (snd (claimed_comparators Bench.mpp [] [1; 2; 3]%Q) == 0)%Q /\
  MPP._better_voltage Bench.mpp (0%Q, []) (5 # 100, [1; 2; 3]%Q) = 0%Q /\
  fst (MPP.decision Bench.mpp 1 (0%Q, []) (5 # 100, [1; 2; 3]%Q) (Bench.world 3 5 2))
    = Ret (-1)%Z /\
  fst (MPP.loop_body 5 Bench.mpp 1 (Bench.world 3 5 2)) = Ret (-1)%Z.
Proof.
  repeat split; vm_compute; reflexivity.
Qed.

(** *** Failures during a buffer acquisition *)





(** *** Seeding the JV end voltage *)

Lemma round_end_voc_comp (v v' step : Q) :
  (v == v')%Q -> (Main.round_end_voc v step == Main.round_end_voc v' step)%Q.
Proof.
  intros H. unfold Main.round_end_voc.
  assert (Hd : (v / step == v' / step)%Q) by (rewrite H; reflexivity).
  rewrite (Qlt_bool_comp 0 0 (v / step) (v' / step)) by (reflexivity || assumption).
  destruct (Qlt_bool 0 (v' / step)).
  - rewrite (Qceiling_comp _ _ Hd). reflexivity.
  - rewrite (Qfloor_comp _ _ Hd). reflexivity.
Qed.

(** C9, as the design document has it, fails: over exact rationals
    [ceil( 0.62 / 0.01 ) * 0.01] is not 0.63. *)
Lemma end_voltage_062_is_not_063 :
  ~ (Main.round_end_voc (62 # 100) Main.jv_voltage_step == 63 # 100)%Q.
Proof.
  vm_compute. discriminate.
Qed.

(** C9, amended. For a measured Voc of 0.62 V (the mean of the last five
    recorded voltages) and the JV step of 0.01 V, the rounding sets the JV
    end voltage to 0.62 V: 0.62 / 0.01 is the integer 62 and the ceiling
    leaves it where it is. *)
Theorem end_voltage_062_is_kept (voltages : list Q) :
  (Main.voc_measured voltages == 62 # 100)%Q ->
  (Main.jv_end_voltage voltages == 62 # 100)%Q.
Proof.
  intros H. unfold Main.jv_end_voltage.
  rewrite (round_end_voc_comp _ _ _ H).
  vm_compute. reflexivity.
Qed.

Lemma end_voltage_062_is_kept_witness :
  (Main.jv_end_voltage (repeat (62 # 100)%Q 7) == 62 # 100)%Q.
Proof.
  apply end_voltage_062_is_kept. vm_compute. reflexivity.
Defined.

(** ** Further properties of the code *)

(** *** The base procedure *)

Lemma lower_in_valid_elms (elm : string) :
  existsb (String.eqb (lower elm)) K.valid_elms = true <-> In (lower elm) K.valid_elms.
Proof.
  rewrite existsb_exists. split.
  - intros (x & Hx & He). apply String.eqb_eq in He. now subst.
  - intros H. exists (lower elm). split; [assumption | apply String.eqb_refl].
Qed.

(** X1. [set_elements] refuses a list with an element whose lower-case
    form is not one of the five valid names: it raises [ValueError]
    before any driver call and leaves the procedure as it was.  A list of
    valid names, in any letter case, is sent to the instrument as one
    [:format:elements] command with the names joined by commas. *)
Theorem set_elements_validates (elms : list string) (w : World) :
  ((exists elm, In elm elms /\ ~ In (lower elm) K.valid_elms) ->
   K.set_elements elms w = (Raise (ValueError "Invalid element."), w)) /\
  ((forall elm, In elm elms -> In (lower elm) K.valid_elms) ->
   instr_set w ->
   exists rest,
     oplog (snd (K.set_elements elms w)) =
       oplog w ++ Write (String.append ":format:elements " (join "," elms)) :: rest).
Proof.
  unfold K.set_elements. split.
  - intros (elm & Hin & Hbad).
    destruct (forallb _ elms) eqn:E; [|reflexivity].
    exfalso. apply Hbad. apply lower_in_valid_elms.
    rewrite forallb_forall in E. now apply E.
  - intros Hall Hw.
    assert (E : forallb (fun elm => existsb (String.eqb (lower elm)) K.valid_elms) elms = true).
    { apply forallb_forall. intros x Hx. apply lower_in_valid_elms. now apply Hall. }
    rewrite E. unfold bind at 1. rewrite (call_step _ w Hw).
    destruct (fault w (length (oplog w))).
    + exists []. reflexivity.
    + unfold bind at 1. unfold K.get_elements, K.ask. unfold bind at 1. unfold bind at 1.
      rewrite (call_step _ _ (Hw : instr_set (log_op _ w))).
      destruct (fault _ _); simpl; eexists; rewrite <- app_assoc; reflexivity.
Qed.

Lemma set_elements_validates_witness :
  K.set_elements ["voltage"; "power"] (Bench.world 3 5 2)
    = (Raise (ValueError "Invalid element."), Bench.world 3 5 2) /\
  exists rest,
    oplog (snd (K.set_elements ["TIME"; "Voltage"] (Bench.world 3 5 2))) =
      oplog (Bench.world 3 5 2) ++ Write ":format:elements TIME,Voltage" :: rest.
Proof.
  split.
  - apply (set_elements_validates ["voltage"; "power"] (Bench.world 3 5 2)).
    exists "power". split; [simpl; auto|].
    vm_compute. intuition discriminate.
  - apply (set_elements_validates ["TIME"; "Voltage"] (Bench.world 3 5 2)).
    + intros elm [<- | [<- | []]]; vm_compute; auto.
    + vm_compute. reflexivity.
Defined.

(** X3. [startup] without a port raises [RuntimeError] and touches
    nothing.  A [startup] that returns has connected to the port, reset
    the instrument and selected the front or the rear terminals as
    [use_front_terminals] says, in this order and with no other driver
    call, and the procedure holds the instrument. *)
Theorem startup_connects (p : K.Params) (w w' : World) :
  (K.port p = None ->
   K.startup p w = (Raise (RuntimeError "Port has not been set."), w)) /\
  (K.startup p w = (Ret tt, w') ->
   exists prt,
     K.port p = Some prt /\
     instr_set w' /\
     oplog w' = oplog w ++ [Connect prt; Reset;
                            if K.use_front_terminals p
                            then UseFrontTerminals else UseRearTerminals]).
Proof.
  unfold K.startup. split.
  - intros ->. reflexivity.
  - destruct (K.port p) as [prt|]; [|discriminate].
    unfold bind at 1. unfold dev at 1.
    destruct (fault w (length (oplog w))); [discriminate|].
    unfold bind at 1. unfold setattr at 1. cbv beta iota.
    set (w2 := set_attrs (insert K.instrument_attr VInstrument) (log_op (Connect prt) w)).
    assert (H2 : instr_set w2) by (unfold instr_set, w2; simpl; apply lookup_insert_eq).
    unfold bind at 1. rewrite (call_step _ _ H2).
    destruct (fault w2 (length (oplog w2))); [discriminate|].
    unfold bind at 1.
    destruct (K.use_front_terminals p);
      rewrite (call_step _ _ (H2 : instr_set (log_op Reset w2)));
      destruct (fault _ _); try discriminate;
      unfold ret; intros [= <-]; exists prt;
      (split; [reflexivity|]); (split; [exact H2|]);
      simpl; rewrite <- !app_assoc; reflexivity.
Qed.

Lemma startup_connects_witness :
  exists prt,
    K.port Bench.port = Some prt /\
    instr_set (snd (K.startup Bench.port Bench.fresh)) /\
    oplog (snd (K.startup Bench.port Bench.fresh))
      = [Connect prt; Reset; UseFrontTerminals].
Proof.
  destruct (startup_connects Bench.port Bench.fresh (snd (K.startup Bench.port Bench.fresh)))
    as [_ H].
  apply H. vm_compute. reflexivity.
Defined.

Lemma set_elements_nonempty_witness :
  exists els,
    attrs (snd (K.set_elements ["voltage"; "current"] (Bench.world 3 5 2)))
      !! K.elements_attr = Some (VElems els) /\ els <> [].
Proof.
  apply (set_elements_nonempty ["voltage"; "current"] (Bench.world 3 5 2)).
  vm_compute. reflexivity.
Defined.

(** The wait loop when the stop flag stays down: [n] passes, each with
    one clock reading below [end_] and one poll, then the reading that
    ends the loop. *)
Lemma wait_for_loop_completes (interval end_ : Q) (n : nat) :
  (0 <= interval)%Q ->
  forall (gas : nat) (w : World),
    n < gas ->
    (forall i, i < n -> (clock w (clock_reads w + i) < end_)%Q) ->
    ~ (clock w (clock_reads w + n) < end_)%Q ->
    (forall i, i < n -> stop_signal w (polls w + i) = false) ->
    exists w',
      K.wait_for_loop gas end_ interval w = (Ret tt, w') /\
      polls w' = polls w + n /\
      clock_reads w' = clock_reads w + n + 1 /\
      clock w' = clock w /\
      stop_signal w' = stop_signal w /\
      oplog w' = oplog w /\
      attrs w' = attrs w /\
      emitted w' = emitted w /\
      source_voltage w' = source_voltage w.
Proof.
  intros Hint. induction n as [|n IH]; intros gas w Hgas Hlt Hge Hstop.
  - destruct gas as [|g]; [lia|]. simpl. unfold bind, time_time.
    rewrite Nat.add_0_r in Hge.
    destruct (Qlt_bool (clock w (clock_reads w)) end_) eqn:E.
    + apply Qlt_bool_iff in E. contradiction.
    + eexists. split; [reflexivity|]. simpl. repeat split; lia.
  - destruct gas as [|g]; [lia|]. simpl. unfold bind at 1. unfold time_time at 1.
    cbv beta iota.
    assert (E : Qlt_bool (clock w (clock_reads w)) end_ = true).
    { apply Qlt_bool_iff. specialize (Hlt 0). rewrite Nat.add_0_r in Hlt. apply Hlt. lia. }
    rewrite E. unfold bind at 1. unfold should_stop at 1. cbv beta iota.
    assert (Es : stop_signal (tick_clock w) (polls (tick_clock w)) = false).
    { simpl. specialize (Hstop 0). rewrite Nat.add_0_r in Hstop. apply Hstop. lia. }
    rewrite Es. unfold bind at 1. unfold sleep at 1.
    assert (Ei : Qlt_bool interval 0 = false) by (now apply Qlt_bool_false).
    rewrite Ei. unfold ret at 1. cbv beta iota.
    destruct (IH g (tick_polls (tick_clock w))) as (w' & Hr & Hp & Hc & Hk & Hs & Ho & Ha & He & Hv).
    + lia.
    + intros i Hi. simpl. replace (S (clock_reads w + i)) with (clock_reads w + S i) by lia.
      apply Hlt. lia.
    + simpl. replace (S (clock_reads w + n)) with (clock_reads w + S n) by lia. exact Hge.
    + intros i Hi. simpl. replace (S (polls w + i)) with (polls w + S i) by lia.
      apply Hstop. lia.
    + exists w'. split; [exact Hr|]. simpl in *. repeat split; try assumption; lia.
Qed.

(** X4. A wait during which the stop flag stays down and whose loop
    reads the clock [n] times below the deadline and then at or past it
    returns normally (given more than [n] passes of gas): it has polled
    the flag [n] times, read the clock [n + 2] times, and made no driver
    call. *)
Theorem wait_for_completes (gas n : nat) (seconds interval : Q) (w : World) :
  (0 <= interval)%Q ->
  n < gas ->
  (forall i, i < n ->
     (clock w (clock_reads w + 1 + i) < clock w (clock_reads w) + seconds)%Q) ->
  ~ (clock w (clock_reads w + 1 + n) < clock w (clock_reads w) + seconds)%Q ->
  (forall i, i < n -> stop_signal w (polls w + i) = false) ->
  exists w',
    K.wait_for gas seconds interval w = (Ret tt, w') /\
    polls w' = polls w + n /\
    clock_reads w' = clock_reads w + n + 2 /\
    oplog w' = oplog w /\
    attrs w' = attrs w.
Proof.
  intros Hint Hgas Hlt Hge Hstop. unfold K.wait_for, bind, time_time.
  destruct (wait_for_loop_completes interval (clock w (clock_reads w) + seconds)%Q n Hint
              gas (tick_clock w)) as (w' & Hr & Hp & Hc & _ & _ & Ho & Ha & _).
  - exact Hgas.
  - intros i Hi. simpl. replace (S (clock_reads w + i)) with (clock_reads w + 1 + i) by lia.
    now apply Hlt.
  - simpl. replace (S (clock_reads w + n)) with (clock_reads w + 1 + n) by lia. exact Hge.
  - exact Hstop.
  - exists w'. split; [exact Hr|]. simpl in *. repeat split; try assumption; lia.
Qed.

Lemma wait_for_completes_witness :
  exists w',
    K.wait_for 5 (5 # 2) 1 (Bench.world 3 5 2) = (Ret tt, w') /\
    polls w' = 2 /\ clock_reads w' = 4 /\ oplog w' = [] /\
    attrs w' = attrs (Bench.world 3 5 2).
Proof.
  apply (wait_for_completes 5 2 (5 # 2) 1 (Bench.world 3 5 2)).
  - unfold Qle; simpl; lia.
  - lia.
  - intros i Hi. destruct i as [|[|i]]; [vm_compute; reflexivity | vm_compute; reflexivity | lia].
  - vm_compute. discriminate.
  - reflexivity.
Defined.

(** X5. A wait for no time or for a negative time (a cycle that
    overran) on a clock that does not run backwards is a no-op: it
    returns at once, without polling the stop flag and without a driver
    call. *)
Theorem wait_for_overrun (gas : nat) (seconds interval : Q) (w : World) :
  0 < gas ->
  (seconds <= 0)%Q ->
  (clock w (clock_reads w) <= clock w (S (clock_reads w)))%Q ->
  K.wait_for gas seconds interval w = (Ret tt, tick_clock (tick_clock w)).
Proof.
  intros Hgas Hs Hmono. unfold K.wait_for, bind, time_time.
  destruct gas as [|g]; [lia|]. simpl. unfold bind, time_time. simpl.
  destruct (Qlt_bool _ _) eqn:E; [|reflexivity].
  apply Qlt_bool_iff in E. exfalso. lra.
Qed.

Lemma wait_for_overrun_witness :
  K.wait_for 1 (-2) 1 (Bench.world 3 5 2)
    = (Ret tt, tick_clock (tick_clock (Bench.world 3 5 2))).
Proof.
  apply wait_for_overrun.
  - lia.
  - unfold Qle; simpl; lia.
  - unfold Qle; simpl; lia.
Defined.

(** *** Progress and the end of the run *)

Lemma Qdiv_le_mono (x y b : Q) : (0 < b)%Q -> (x <= y)%Q -> (x / b <= y / b)%Q.
Proof.
  intros Hb Hxy. unfold Qdiv. apply Qmult_le_compat_r; [assumption|].
  apply Qlt_le_weak, Qinv_lt_0_compat, Hb.
Qed.

Lemma Qdiv_nonneg (x b : Q) : (0 < b)%Q -> (0 <= x)%Q -> (0 <= x / b)%Q.
Proof.
  intros Hb Hx. unfold Qdiv. apply Qmult_le_0_compat; [assumption|].
  apply Qlt_le_weak, Qinv_lt_0_compat, Hb.
Qed.

Lemma Qdiv_ge_1 (x b : Q) : (0 < b)%Q -> (b <= x)%Q -> (1 <= x / b)%Q.
Proof.
  intros Hb Hx. apply Qle_shift_div_l; [assumption|]. lra.
Qed.

Lemma cap_at_1_le (x : Q) : (MPP.cap_at_1 x <= 1)%Q.
Proof.
  unfold MPP.cap_at_1. destruct (Qlt_bool 1 x) eqn:E; [lra|].
  now apply Qlt_bool_false in E.
Qed.

Lemma cap_at_1_mono (x y : Q) : (x <= y)%Q -> (MPP.cap_at_1 x <= MPP.cap_at_1 y)%Q.
Proof.
  intros H. unfold MPP.cap_at_1.
  destruct (Qlt_bool 1 x) eqn:Ex, (Qlt_bool 1 y) eqn:Ey;
    repeat match goal with
           | H : Qlt_bool _ _ = true |- _ => apply Qlt_bool_iff in H
           | H : Qlt_bool _ _ = false |- _ => apply Qlt_bool_false in H
           end; lra.
Qed.

Lemma cap_at_1_nonneg (x : Q) : (0 <= x)%Q -> (0 <= MPP.cap_at_1 x)%Q.
Proof.
  intros H. unfold MPP.cap_at_1. destruct (Qlt_bool 1 x); lra.
Qed.

Lemma cap_at_1_full (x : Q) : (1 <= x)%Q -> (MPP.cap_at_1 x == 1)%Q.
Proof.
  intros H. unfold MPP.cap_at_1. destruct (Qlt_bool 1 x) eqn:E; [reflexivity|].
  apply Qlt_bool_false in E. lra.
Qed.

Lemma mpp_time_elapsed_started (s : Q) (w : World) :
  attrs w !! "_start_time" = Some (VNum s) ->
  MPP.time_elapsed w = (Ret (clock w (clock_reads w) - s)%Q, tick_clock w).
Proof.
  intros H. unfold MPP.time_elapsed, MPP.start_time, bind.
  rewrite (attr_or_None_present _ _ _ H). unfold time_time.
  rewrite (attr_or_None_present "_start_time" (VNum s) (tick_clock w) H). reflexivity.
Qed.

Lemma mpp_progress_started (p : MPP.Params) (s : Q) (w : World) :
  attrs w !! "_start_time" = Some (VNum s) ->
  (0 < MPP.run_time p)%Q ->
  MPP.progress p w =
    (Ret (MPP.cap_at_1 ((clock w (clock_reads w) - s) / (MPP.run_time p * 60))%Q),
     tick_clock w).
Proof.
  intros H Hr. unfold MPP.progress, MPP.start_time, bind.
  rewrite (attr_or_None_present _ _ _ H), (mpp_time_elapsed_started s w H).
  destruct (Qeq_bool (MPP.run_time p * 60) 0) eqn:E; [|reflexivity].
  apply Qeq_bool_iff in E. exfalso. lra.
Qed.

Lemma voc_time_elapsed_started (s : Q) (w : World) :
  attrs w !! "_start_time" = Some (VNum s) ->
  Voc.time_elapsed w = (Ret (clock w (clock_reads w) - s)%Q, tick_clock w).
Proof. exact (mpp_time_elapsed_started s w). Qed.

Lemma voc_progress_started (p : Voc.Params) (s : Q) (w : World) :
  attrs w !! "_start_time" = Some (VNum s) ->
  (0 < Voc.max_time p)%Z ->
  Voc.progress p w =
    (Ret (MPP.cap_at_1 ((clock w (clock_reads w) - s) / inject_Z (Voc.max_time p))%Q),
     tick_clock w).
Proof.
  intros H Hr. unfold Voc.progress, Voc.start_time, bind.
  rewrite (attr_or_None_present _ _ _ H), (voc_time_elapsed_started s w H).
  destruct (Voc.max_time p =? 0)%Z eqn:E; [|reflexivity].
  apply Z.eqb_eq in E. lia.
Qed.

Lemma inject_Z_pos (z : Z) : (0 < z)%Z -> (0 < inject_Z z)%Q.
Proof. intros H. unfold Qlt; simpl. lia. Qed.

(** X6. On a started tracker with a positive [run_time], [progress]
    returns, reads the clock once and changes nothing else; it never
    exceeds 1, is not negative once the clock is at or past the start
    time, does not decrease when the clock reading grows, and is 1 as soon
    as [60 * run_time] seconds have elapsed. *)
Theorem mpp_progress_monotone (p : MPP.Params) (s : Q) (w1 w2 : World) :
  (0 < MPP.run_time p)%Q ->
  attrs w1 !! "_start_time" = Some (VNum s) ->
  attrs w2 !! "_start_time" = Some (VNum s) ->
  (clock w1 (clock_reads w1) <= clock w2 (clock_reads w2))%Q ->
  exists p1 p2,
    MPP.progress p w1 = (Ret p1, tick_clock w1) /\
    MPP.progress p w2 = (Ret p2, tick_clock w2) /\
    (p1 <= p2)%Q /\ (p2 <= 1)%Q /\
    ((s <= clock w1 (clock_reads w1))%Q -> (0 <= p1)%Q) /\
    ((s + 60 * MPP.run_time p <= clock w2 (clock_reads w2))%Q -> (p2 == 1)%Q).
Proof.
  intros Hr H1 H2 Hc.
  assert (Hb : (0 < MPP.run_time p * 60)%Q) by lra.
  eexists. eexists.
  split; [exact (mpp_progress_started p s w1 H1 Hr)|].
  split; [exact (mpp_progress_started p s w2 H2 Hr)|].
  split; [apply cap_at_1_mono, Qdiv_le_mono; [assumption | lra]|].
  split; [apply cap_at_1_le|].
  split.
  - intros Hs. apply cap_at_1_nonneg, Qdiv_nonneg; [assumption | lra].
  - intros Hs. apply cap_at_1_full, Qdiv_ge_1; [assumption | lra].
Qed.

Lemma mpp_progress_monotone_witness :
  exists p1 p2,
    MPP.progress Bench.mpp (Bench.world 3 5 2) = (Ret p1, tick_clock (Bench.world 3 5 2)) /\
    MPP.progress Bench.mpp (tick_clock (Bench.world 3 5 2))
      = (Ret p2, tick_clock (tick_clock (Bench.world 3 5 2))) /\
    (p1 <= p2)%Q /\ (p2 <= 1)%Q.
Proof.
  destruct (mpp_progress_monotone Bench.mpp 0 (Bench.world 3 5 2)
              (tick_clock (Bench.world 3 5 2)))
    as (p1 & p2 & H1 & H2 & H3 & H4 & _).
  - unfold Qlt; simpl; lia.
  - vm_compute. reflexivity.
  - vm_compute. reflexivity.
  - unfold Qle; simpl; lia.
  - exists p1, p2. repeat split; assumption.
Defined.

(** X7. The same for the Voc detector, whose budget is [max_time]
    seconds: on a started detector with a positive [max_time], [progress]
    returns after one clock reading, never exceeds 1, is not negative once
    the clock is at or past the start time, does not decrease when the
    clock reading grows, and is 1 as soon as [max_time] seconds have
    elapsed. *)
Theorem voc_progress_monotone (p : Voc.Params) (s : Q) (w1 w2 : World) :
  (0 < Voc.max_time p)%Z ->
  attrs w1 !! "_start_time" = Some (VNum s) ->
  attrs w2 !! "_start_time" = Some (VNum s) ->
  (clock w1 (clock_reads w1) <= clock w2 (clock_reads w2))%Q ->
  exists p1 p2,
    Voc.progress p w1 = (Ret p1, tick_clock w1) /\
    Voc.progress p w2 = (Ret p2, tick_clock w2) /\
    (p1 <= p2)%Q /\ (p2 <= 1)%Q /\
    ((s <= clock w1 (clock_reads w1))%Q -> (0 <= p1)%Q) /\
    ((s + inject_Z (Voc.max_time p) <= clock w2 (clock_reads w2))%Q -> (p2 == 1)%Q).
Proof.
  intros Hr H1 H2 Hc.
  pose proof (inject_Z_pos _ Hr) as Hb.
  eexists. eexists.
  split; [exact (voc_progress_started p s w1 H1 Hr)|].
  split; [exact (voc_progress_started p s w2 H2 Hr)|].
  split; [apply cap_at_1_mono, Qdiv_le_mono; [assumption | lra]|].
  split; [apply cap_at_1_le|].
  split.
  - intros Hs. apply cap_at_1_nonneg, Qdiv_nonneg; [assumption | lra].
  - intros Hs. apply cap_at_1_full, Qdiv_ge_1; [assumption | lra].
Qed.

Lemma voc_progress_monotone_witness :
  exists p1 p2,
    Voc.progress Bench.voc (Bench.world 3 5 2) = (Ret p1, tick_clock (Bench.world 3 5 2)) /\
    Voc.progress Bench.voc (tick_clock (Bench.world 3 5 2))
      = (Ret p2, tick_clock (tick_clock (Bench.world 3 5 2))) /\
    (p1 <= p2)%Q /\ (p2 <= 1)%Q.
Proof.
  destruct (voc_progress_monotone Bench.voc 0 (Bench.world 3 5 2)
              (tick_clock (Bench.world 3 5 2)))
    as (p1 & p2 & H1 & H2 & H3 & H4 & _).
  - reflexivity.
  - vm_compute. reflexivity.
  - vm_compute. reflexivity.
  - unfold Qle; simpl; lia.
  - exists p1, p2. repeat split; assumption.
Defined.

(** X8. Once the budget has elapsed the loops end on their next test,
    before any driver call: the tracker's loop returns with the direction
    it had, the Voc detector's loop leaves through the timed-out path with
    its window untouched; both have only read the clock once. *)
Theorem loops_stop_at_budget (gas fuel : nat) (pm : MPP.Params) (pv : Voc.Params)
    (s : Q) (dir : Z) (data : list Voc.Datum) (w : World) :
  attrs w !! "_start_time" = Some (VNum s) ->
  ((0 < MPP.run_time pm)%Q ->
   (s + 60 * MPP.run_time pm <= clock w (clock_reads w))%Q ->
   MPP.execute_loop gas (S fuel) pm dir w = (Ret dir, tick_clock w)) /\
  ((0 < Voc.max_time pv)%Z ->
   (s + inject_Z (Voc.max_time pv) <= clock w (clock_reads w))%Q ->
   Voc.execute_loop gas (S fuel) pv data w = (Ret Voc.TimedOut, tick_clock w)).
Proof.
  intros Hs. split; intros Hr Hb; simpl; unfold bind at 1.
  - rewrite (mpp_progress_started pm s w Hs Hr).
    assert (E : (MPP.cap_at_1 ((clock w (clock_reads w) - s) / (MPP.run_time pm * 60)) == 1)%Q)
      by (apply cap_at_1_full, Qdiv_ge_1; lra).
    rewrite (Qlt_bool_comp _ 1 1 1 E (Qeq_refl 1)). reflexivity.
  - rewrite (voc_progress_started pv s w Hs Hr).
    pose proof (inject_Z_pos _ Hr) as Hp.
    assert (E : (MPP.cap_at_1 ((clock w (clock_reads w) - s) / inject_Z (Voc.max_time pv)) == 1)%Q)
      by (apply cap_at_1_full, Qdiv_ge_1; lra).
    rewrite (Qlt_bool_comp _ 1 1 1 E (Qeq_refl 1)). reflexivity.
Qed.

Lemma loops_stop_at_budget_witness :
  MPP.execute_loop 5 1 Rig.mpp_short 1
      (Nat.iter 12 tick_clock (Bench.world 3 5 2))
    = (Ret 1%Z, Nat.iter 13 tick_clock (Bench.world 3 5 2)).
Proof.
  destruct (loops_stop_at_budget 5 0 Rig.mpp_short Bench.voc 0 1 []
              (Nat.iter 12 tick_clock (Bench.world 3 5 2))) as [H _].
  - vm_compute. reflexivity.
  - apply H.
    + unfold Qlt; simpl; lia.
    + vm_compute. discriminate.
Defined.

(** The first lines of [execute], up to the first driver call. *)
Lemma mpp_execute_begins (gas : nat) (p : MPP.Params) (w : World) :
  MPP.execute gas p w =
    (K.call EnableSource ;;
     MPP.set_source_voltage (MPP.initial_voltage p) ;;
     MPP.execute_loop gas gas p 1%Z) (begun (60 * MPP.run_time p) w).
Proof.
  unfold MPP.execute, K.execute.
  unfold bind at 1. unfold ret at 1. cbv beta iota.
  unfold bind at 1. unfold time_time at 1. cbv beta iota.
  unfold bind at 1. unfold setattr at 1. cbv beta iota.
  unfold bind at 1. unfold MPP.start_time.
  rewrite (attr_or_None_present "_start_time" (VNum (clock w (clock_reads w))))
    by apply lookup_insert_eq.
  unfold bind at 1. unfold setattr at 1. cbv beta iota.
  reflexivity.
Qed.

Lemma voc_execute_begins (gas : nat) (p : Voc.Params) (w : World) :
  Voc.execute gas p w =
    (K.call EnableSource ;;
     Voc.execute_loop gas gas p []) (begun (inject_Z (Voc.max_time p)) w).
Proof.
  unfold Voc.execute, K.execute.
  unfold bind at 1. unfold ret at 1. cbv beta iota.
  unfold bind at 1. unfold time_time at 1. cbv beta iota.
  unfold bind at 1. unfold setattr at 1. cbv beta iota.
  unfold bind at 1. unfold Voc.start_time.
  rewrite (attr_or_None_present "_start_time" (VNum (clock w (clock_reads w))))
    by apply lookup_insert_eq.
  unfold bind at 1. unfold setattr at 1. cbv beta iota.
  reflexivity.
Qed.

Lemma begun_instr (budget : Q) (w : World) : instr_set w -> instr_set (begun budget w).
Proof.
  intros H. unfold instr_set, begun; simpl.
  rewrite !lookup_insert_ne by discriminate. exact H.
Qed.

Lemma begun_start (budget : Q) (w : World) :
  attrs (begun budget w) !! "_start_time" = Some (VNum (clock w (clock_reads w))).
Proof.
  unfold begun; simpl. rewrite lookup_insert_ne by discriminate. apply lookup_insert_eq.
Qed.

Lemma mpp_progress_zero (p : MPP.Params) (s : Q) (w : World) :
  attrs w !! "_start_time" = Some (VNum s) ->
  (MPP.run_time p == 0)%Q ->
  MPP.progress p w = (Raise ZeroDivisionError, tick_clock w).
Proof.
  intros H Hr. unfold MPP.progress, MPP.start_time, bind.
  rewrite (attr_or_None_present _ _ _ H), (mpp_time_elapsed_started s w H).
  assert (E : Qeq_bool (MPP.run_time p * 60) 0 = true)
    by (apply Qeq_bool_iff; rewrite Hr; reflexivity).
  now rewrite E.
Qed.

Lemma voc_progress_zero (p : Voc.Params) (s : Q) (w : World) :
  attrs w !! "_start_time" = Some (VNum s) ->
  Voc.max_time p = 0%Z ->
  Voc.progress p w = (Raise ZeroDivisionError, tick_clock w).
Proof.
  intros H Hr. unfold Voc.progress, Voc.start_time, bind.
  rewrite (attr_or_None_present _ _ _ H), (voc_time_elapsed_started s w H).
  now rewrite Hr.
Qed.

(** X9. A zero budget is a division by zero: on a procedure that holds
    an instrument whose first driver calls succeed, the tracker's
    [execute] with [run_time = 0] enables the source, sets the initial
    voltage and then raises [ZeroDivisionError] from the first [progress]
    test; the Voc detector's [execute] with [max_time = 0] does so after
    enabling the source.  No measurement is taken. *)
Theorem zero_budget_raises (gas : nat) (pm : MPP.Params) (pv : Voc.Params) (w : World) :
  instr_set w ->
  0 < gas ->
  fault w (length (oplog w)) = None ->
  ((MPP.run_time pm == 0)%Q ->
   fault w (length (oplog w) + 1) = None ->
   fst (MPP.execute gas pm w) = Raise ZeroDivisionError /\
   oplog (snd (MPP.execute gas pm w))
     = oplog w ++ [EnableSource; SetSourceVoltage (MPP.initial_voltage pm)] /\
   emitted (snd (MPP.execute gas pm w)) = emitted w) /\
  (Voc.max_time pv = 0%Z ->
   fst (Voc.execute gas pv w) = Raise ZeroDivisionError /\
   oplog (snd (Voc.execute gas pv w)) = oplog w ++ [EnableSource] /\
   emitted (snd (Voc.execute gas pv w)) = emitted w).
Proof.
  intros Hw Hgas F0. destruct gas as [|g]; [lia|]. split.
  - intros Hr F1.
    set (w0 := begun (60 * MPP.run_time pm) w).
    assert (Hw0 : instr_set w0) by now apply begun_instr.
    assert (E : MPP.execute (S g) pm w =
                (Raise ZeroDivisionError,
                 tick_clock (set_source (MPP.initial_voltage pm)
                               (log_op (SetSourceVoltage (MPP.initial_voltage pm))
                                  (log_op EnableSource w0))))).
    { rewrite mpp_execute_begins. fold w0.
      unfold bind at 1. rewrite (call_step _ _ Hw0).
      change (fault w0 (length (oplog w0))) with (fault w (length (oplog w))). rewrite F0.
      unfold bind at 1. unfold MPP.set_source_voltage. unfold bind at 1.
      rewrite (call_step _ _ (Hw0 : instr_set (log_op EnableSource w0))).
      rewrite log_op_length.
      change (fault (log_op EnableSource w0) (length (oplog w0) + 1))
        with (fault w (length (oplog w) + 1)).
      rewrite F1. cbv beta iota.
      simpl MPP.execute_loop. unfold bind at 1.
      rewrite (mpp_progress_zero pm (clock w (clock_reads w)));
        [reflexivity | apply begun_start | exact Hr]. }
    rewrite E. simpl. repeat split; try reflexivity.
    now rewrite <- app_assoc.
  - intros Hr.
    set (w0 := begun (inject_Z (Voc.max_time pv)) w).
    assert (Hw0 : instr_set w0) by now apply begun_instr.
    assert (E : Voc.execute (S g) pv w =
                (Raise ZeroDivisionError, tick_clock (log_op EnableSource w0))).
    { rewrite voc_execute_begins. fold w0.
      unfold bind at 1. rewrite (call_step _ _ Hw0).
      change (fault w0 (length (oplog w0))) with (fault w (length (oplog w))). rewrite F0.
      simpl Voc.execute_loop. unfold bind at 1.
      rewrite (voc_progress_zero pv (clock w (clock_reads w)));
        [reflexivity | apply begun_start | exact Hr]. }
    rewrite E. simpl. repeat split; reflexivity.
Qed.

Lemma zero_budget_raises_witness :
  fst (MPP.execute 3 Rig.mpp_zero (Bench.world 3 5 2)) = Raise ZeroDivisionError /\
  oplog (snd (MPP.execute 3 Rig.mpp_zero (Bench.world 3 5 2)))
    = [EnableSource; SetSourceVoltage 0].
Proof.
  destruct (zero_budget_raises 3 Rig.mpp_zero Bench.voc (Bench.world 3 5 2)) as [H _].
  - vm_compute. reflexivity.
  - lia.
  - reflexivity.
  - destruct H as (H1 & H2 & _).
    + reflexivity.
    + reflexivity.
    + split; assumption.
Defined.

(** *** What a computation leaves alone *)

Section Keeps.

Context {B : Type} (f : World -> B).

Hypothesis f_attrs : forall g w, f (set_attrs g w) = f w.
Hypothesis f_clock : forall w, f (tick_clock w) = f w.
Hypothesis f_polls : forall w, f (tick_polls w) = f w.
Hypothesis f_log : forall o w, f (log_op o w) = f w.

Lemma keeps_ret {A} (a : A) : keeps f (ret a).
Proof. intros w. reflexivity. Qed.

Lemma keeps_raise {A} (e : exn) : keeps f (@raise A e).
Proof. intros w. reflexivity. Qed.

Lemma keeps_out_of_gas {A} : keeps f (@out_of_gas A).
Proof. intros w. reflexivity. Qed.

Lemma keeps_bind {A C} (m : M A) (k : A -> M C) :
  keeps f m -> (forall a, keeps f (k a)) -> keeps f (bind m k).
Proof.
  intros Hm Hk w. unfold bind. specialize (Hm w).
  destruct (m w) as [[a|e|] w1]; simpl in *; try assumption.
  rewrite <- Hm. apply Hk.
Qed.

Lemma keeps_try_except {A} (m : M A) (h : exn -> M A) :
  keeps f m -> (forall e, keeps f (h e)) -> keeps f (try_except m h).
Proof.
  intros Hm Hh w. unfold try_except. specialize (Hm w).
  destruct (m w) as [[a|e|] w1]; simpl in *; try assumption.
  rewrite <- Hm. apply Hh.
Qed.

Lemma keeps_getattr (name : string) : keeps f (getattr name).
Proof. intros w. unfold getattr. now destruct (attrs w !! name). Qed.

Lemma keeps_setattr (name : string) (v : pyval) : keeps f (setattr name v).
Proof. intros w. apply f_attrs. Qed.

Lemma keeps_time_time : keeps f time_time.
Proof. intros w. apply f_clock. Qed.

Lemma keeps_sleep (secs : Q) : keeps f (sleep secs).
Proof. intros w. unfold sleep. now destruct (Qlt_bool secs 0). Qed.

Lemma keeps_should_stop : keeps f should_stop.
Proof. intros w. apply f_polls. Qed.

Lemma keeps_dev (o : op) : keeps f (dev o).
Proof. intros w. unfold dev. destruct (fault w (length (oplog w))); apply f_log. Qed.

Lemma keeps_read {A} (g : World -> A) : keeps f (fun w => (Ret (g w), w)).
Proof. intros w. reflexivity. Qed.

Lemma keeps_attr_or_None (name : string) : keeps f (K.attr_or_None name).
Proof.
  unfold K.attr_or_None. apply keeps_try_except; [apply keeps_getattr|].
  intros []; apply keeps_ret || apply keeps_raise.
Qed.

Lemma keeps_call (o : op) : keeps f (K.call o).
Proof.
  unfold K.call, K.instrument. apply keeps_bind; [apply keeps_attr_or_None|].
  intros []; apply keeps_raise || apply keeps_dev.
Qed.

Lemma keeps_shutdown : keeps f K.shutdown.
Proof.
  unfold K.shutdown, K.instrument. apply keeps_bind; [apply keeps_attr_or_None|].
  intros v. destruct (is_truthy v); [|apply keeps_ret].
  apply keeps_bind; [apply keeps_attr_or_None|].
  intros []; try apply keeps_raise.
  apply keeps_bind; [apply keeps_dev | intros; apply keeps_ret].
Qed.

Lemma keeps_format_data (data : list Q) : keeps f (K.format_data data).
Proof.
  unfold K.format_data, K.elements. apply keeps_bind; [apply keeps_attr_or_None|].
  intros []; try apply keeps_raise. cbv zeta.
  destruct (_ =? 0); [apply keeps_raise|].
  destruct (_ =? 0); [apply keeps_ret | apply keeps_raise].
Qed.

Lemma keeps_wait_for_loop (gas : nat) (end_ interval : Q) :
  keeps f (K.wait_for_loop gas end_ interval).
Proof.
  induction gas as [|g IH]; simpl; [apply keeps_out_of_gas|].
  apply keeps_bind; [apply keeps_time_time|]. intros now.
  destruct (Qlt_bool now end_); [|apply keeps_ret].
  apply keeps_bind; [apply keeps_should_stop|]. intros [].
  - apply keeps_bind; [apply keeps_shutdown | intros; apply keeps_raise].
  - apply keeps_bind; [apply keeps_sleep | intros; apply IH].
Qed.

Lemma keeps_wait_for (gas : nat) (seconds interval : Q) :
  keeps f (K.wait_for gas seconds interval).
Proof.
  unfold K.wait_for. apply keeps_bind; [apply keeps_time_time|].
  intros. apply keeps_wait_for_loop.
Qed.

Lemma keeps_elements_index (name : string) : keeps f (MPP.elements_index name).
Proof.
  unfold MPP.elements_index, K.elements. apply keeps_bind; [apply keeps_attr_or_None|].
  intros []; try apply keeps_raise.
  destruct (index name l); [apply keeps_ret | apply keeps_raise].
Qed.

Lemma keeps_time_elapsed : keeps f MPP.time_elapsed.
Proof.
  unfold MPP.time_elapsed, MPP.start_time.
  apply keeps_bind; [apply keeps_attr_or_None|].
  intros []; try apply keeps_ret;
    (apply keeps_bind; [apply keeps_time_time|]; intros;
     apply keeps_bind; [apply keeps_attr_or_None|];
     intros []; apply keeps_ret || apply keeps_raise).
Qed.

Lemma keeps_mpp_progress (p : MPP.Params) : keeps f (MPP.progress p).
Proof.
  unfold MPP.progress, MPP.start_time.
  apply keeps_bind; [apply keeps_attr_or_None|].
  intros []; try apply keeps_ret;
    (apply keeps_bind; [apply keeps_time_elapsed|]; intros; cbv zeta;
     destruct (Qeq_bool _ 0); [apply keeps_raise | apply keeps_ret]).
Qed.

Lemma keeps_voc_progress (p : Voc.Params) : keeps f (Voc.progress p).
Proof.
  unfold Voc.progress, Voc.start_time.
  apply keeps_bind; [apply keeps_attr_or_None|].
  intros []; try apply keeps_ret;
    (apply keeps_bind; [apply keeps_time_elapsed|]; intros;
     destruct (_ =? 0)%Z; [apply keeps_raise | apply keeps_ret]).
Qed.

Lemma keeps_mpp_measure (p : MPP.Params) : keeps f (MPP._measure p).
Proof.
  unfold MPP._measure.
  repeat (apply keeps_bind; [apply keeps_call | intros ?]).
  apply keeps_bind; [apply keeps_read | intros; apply keeps_format_data].
Qed.

Lemma keeps_get_data (p : Voc.Params) : keeps f (Voc._get_data p).
Proof.
  unfold Voc._get_data.
  apply keeps_bind.
  - apply keeps_try_except; [|intros; apply keeps_shutdown].
    repeat (apply keeps_bind; [apply keeps_call | intros ?]). apply keeps_ret.
  - intros. apply keeps_bind; [apply keeps_call | intros; apply keeps_read].
Qed.

Lemma keeps_time_remaining (start interval : Q) :
  keeps f (MPP._time_remaining start interval).
Proof.
  unfold MPP._time_remaining. apply keeps_bind; [apply keeps_time_time|].
  intros. apply keeps_ret.
Qed.

Lemma keeps_get_source_voltage : keeps f MPP.get_source_voltage.
Proof.
  unfold MPP.get_source_voltage.
  apply keeps_bind; [apply keeps_call | intros; apply keeps_read].
Qed.

End Keeps.

(** Facts of the form [m w = (r, w')] give [f w' = f w]. *)
Lemma keeps_at {B A} (f : World -> B) (m : M A) (w w' : World) (r : outcome A) :
  keeps f m -> m w = (r, w') -> f w' = f w.
Proof. intros H E. specialize (H w). now rewrite E in H. Qed.

Ltac frame := intros; reflexivity.

(** *** One summarized sample *)

Lemma index_lt (name : string) (l : list string) (i : nat) :
  index name l = Some i -> i < length l.
Proof.
  revert i. induction l as [|y t IH]; intros i; simpl; [discriminate|].
  destruct (String.eqb y name).
  - intros [= <-]. lia.
  - destruct (index name t) as [j|]; simpl; [|discriminate].
    intros [= <-]. specialize (IH j eq_refl). lia.
Qed.

Lemma nth_map_seq (g : nat -> Q) (n i : nat) :
  i < n -> nth i (map g (seq 0 n)) 0%Q = g i.
Proof.
  intros H. rewrite (nth_indep _ 0%Q (g 0)) by (rewrite length_map, length_seq; exact H).
  rewrite map_nth. f_equal. now rewrite seq_nth.
Qed.

Lemma nth_col_means (data : list (list Q)) (n i : nat) :
  Forall (fun r => length r = n) data ->
  i < n ->
  nth i (MPP.col_means (MPP.width data) data) 0%Q = col_mean i data.
Proof.
  intros Hall Hi. destruct data as [|r rest].
  - destruct i; reflexivity.
  - unfold MPP.col_means. inversion Hall as [|? ? Hr _]; subst.
    simpl MPP.width. now rewrite nth_map_seq.
Qed.

(** What [format_data] returns: rows as wide as the element list, whose
    concatenation is the input; the world is untouched. *)
Lemma format_data_shape (flat : list Q) (data : list (list Q)) (w w' : World) :
  K.format_data flat w = (Ret data, w') ->
  w' = w /\
  exists els,
    attrs w !! K.elements_attr = Some (VElems els) /\
    els <> [] /\
    Forall (fun r => length r = length els) data /\
    concat data = flat.
Proof.
  unfold K.format_data, bind, K.elements, K.attr_or_None, try_except, getattr.
  destruct (attrs w !! K.elements_attr) as [[| |els|]|] eqn:E; simpl; try discriminate.
  destruct (length els =? 0) eqn:E0; [discriminate|].
  destruct (length flat mod length els =? 0) eqn:Em; [|discriminate].
  unfold ret. intros [= <- <-]. split; [reflexivity|].
  apply Nat.eqb_neq in E0. apply Nat.eqb_eq in Em.
  assert (Hlen : length flat = length flat / length els * length els).
  { pose proof (Nat.div_mod_eq (length flat) (length els)). lia. }
  exists els. split; [reflexivity|].
  split; [intros ->; now apply E0|].
  split; [now apply reshape_widths | now apply reshape_concat].
Qed.

Lemma elements_index_found (name : string) (w w' : World) (i : nat) :
  MPP.elements_index name w = (Ret i, w') ->
  w' = w /\
  exists els, attrs w !! K.elements_attr = Some (VElems els) /\ index name els = Some i.
Proof.
  unfold MPP.elements_index, bind, K.elements, K.attr_or_None, try_except, getattr.
  destruct (attrs w !! K.elements_attr) as [[| |els|]|] eqn:E; simpl; try discriminate.
  destruct (index name els) eqn:Ei; simpl; [|discriminate].
  unfold ret. intros [= <- <-]. eauto.
Qed.

(** What [_measure_datum] has emitted and computed when it returns. *)
Lemma measure_datum_returns (p : MPP.Params) (w w' : World) (d : MPP.Datum) :
  MPP._measure_datum p w = (Ret d, w') ->
  emitted w' = emitted w ++ [mpp_row d] /\
  source_voltage w' = source_voltage w /\
  exists data w1 els iv ic,
    MPP._measure p w = (Ret data, w1) /\
    attrs w1 !! K.elements_attr = Some (VElems els) /\
    Forall (fun r => length r = length els) data /\
    index "VOLT" els = Some iv /\
    index "CURR" els = Some ic /\
    MPP.d_voltage d = col_mean iv data /\
    MPP.d_current d = col_mean ic data /\
    MPP.d_power d = mean (MPP.row_prods data).
Proof.
  unfold MPP._measure_datum. unfold bind at 1.
  destruct (MPP._measure p w) as [[data| |] w1] eqn:Em; try discriminate.
  pose proof (keeps_at emitted _ _ _ _ (keeps_mpp_measure emitted ltac:(frame) p) Em) as Hem.
  pose proof (keeps_at source_voltage _ _ _ _
                (keeps_mpp_measure source_voltage ltac:(frame) p) Em) as Hsv.
  assert (Hshape : exists els, attrs w1 !! K.elements_attr = Some (VElems els) /\
                               Forall (fun r => length r = length els) data).
  { revert Em. unfold MPP._measure.
    unfold bind at 1. destruct (K.call _ w) as [[?| |] wa]; try discriminate.
    unfold bind at 1. destruct (K.call _ wa) as [[?| |] wb]; try discriminate.
    unfold bind at 1. destruct (K.call _ wb) as [[?| |] wc]; try discriminate.
    unfold bind at 1. destruct (K.call _ wc) as [[i| |] wd]; try discriminate.
    unfold bind at 1. cbv beta iota. intros Hf.
    destruct (format_data_shape _ _ _ _ Hf) as (-> & els & He & _ & Hall & _).
    exists els. split; assumption. }
  destruct Hshape as (els & Hel & Hall).
  cbv zeta. unfold bind at 1.
  destruct (MPP.elements_index "TIME" w1) as [[it| |] w2] eqn:Et; try discriminate.
  destruct (elements_index_found _ _ _ _ Et) as (-> & _).
  unfold bind at 1.
  destruct (MPP.time_elapsed w1) as [[te| |] w3] eqn:Ete; try discriminate.
  pose proof (keeps_at emitted _ _ _ _ (keeps_time_elapsed emitted ltac:(frame)) Ete) as Hem3.
  pose proof (keeps_at source_voltage _ _ _ _
                (keeps_time_elapsed source_voltage ltac:(frame)) Ete) as Hsv3.
  pose proof (keeps_at attrs _ _ _ _ (keeps_time_elapsed attrs ltac:(frame)) Ete) as Hat3.
  unfold bind at 1.
  destruct (MPP.elements_index "VOLT" w3) as [[iv| |] w4] eqn:Ev; try discriminate.
  destruct (elements_index_found _ _ _ _ Ev) as (-> & els' & Hel' & Hiv).
  unfold bind at 1.
  destruct (MPP.elements_index "CURR" w3) as [[ic| |] w5] eqn:Ec; try discriminate.
  destruct (elements_index_found _ _ _ _ Ec) as (-> & els'' & Hel'' & Hic).
  rewrite Hat3, Hel in Hel', Hel''. injection Hel' as <-. injection Hel'' as <-.
  unfold bind, emit, ret. intros [= <- <-].
  split; [simpl; unfold mpp_row; simpl; now rewrite Hem3, Hem|].
  split; [simpl; now rewrite Hsv3, Hsv|].
  exists data, w1, els, iv, ic.
  split; [reflexivity|]. split; [assumption|]. split; [assumption|].
  split; [assumption|]. split; [assumption|]. simpl.
  split; [apply (nth_col_means _ (length els)); [assumption | eapply index_lt; eassumption]|].
  split; [apply (nth_col_means _ (length els)); [assumption | eapply index_lt; eassumption]|].
  reflexivity.
Qed.

(** X10. Whenever [_measure_datum] returns, it has emitted exactly one
    row, the row of the datum it returns; the voltage and the current of
    that datum are the means of the VOLT and CURR columns of the formatted
    buffer and its power is the mean of the products of all the columns of
    each row; the source voltage is what it was. *)
Theorem measure_datum_reports_means (p : MPP.Params) (w w' : World) (d : MPP.Datum) :
  MPP._measure_datum p w = (Ret d, w') ->
  emitted w' = emitted w ++ [mpp_row d] /\
  source_voltage w' = source_voltage w /\
  exists data w1 els iv ic,
    MPP._measure p w = (Ret data, w1) /\
    attrs w1 !! K.elements_attr = Some (VElems els) /\
    Forall (fun r => length r = length els) data /\
    index "VOLT" els = Some iv /\
    index "CURR" els = Some ic /\
    MPP.d_voltage d = col_mean iv data /\
    MPP.d_current d = col_mean ic data /\
    MPP.d_power d = mean (MPP.row_prods data).
Proof. exact (measure_datum_returns p w w' d). Qed.

Lemma measure_datum_reports_means_witness :
  exists d,
    fst (MPP._measure_datum Bench.mpp (Bench.world 3 5 2)) = Ret d /\
    emitted (snd (MPP._measure_datum Bench.mpp (Bench.world 3 5 2))) = [mpp_row d].
Proof.
  destruct (MPP._measure_datum Bench.mpp (Bench.world 3 5 2)) as [[d| |] w'] eqn:E;
    try (vm_compute in E; discriminate).
  exists d. split; [reflexivity|].
  destruct (measure_datum_reports_means Bench.mpp (Bench.world 3 5 2) w' d E) as (H & _).
  exact H.
Defined.

(** *** The phases of the tracker *)

Lemma get_source_voltage_ret (w w' : World) (v : Q) :
  MPP.get_source_voltage w = (Ret v, w') ->
  v = source_voltage w /\ source_voltage w' = source_voltage w /\
  emitted w' = emitted w.
Proof.
  unfold MPP.get_source_voltage. unfold bind.
  destruct (K.call GetSourceVoltage w) as [[i| |] w1] eqn:E; try discriminate.
  intros [= <- <-].
  pose proof (keeps_at source_voltage _ _ _ _ (keeps_call source_voltage ltac:(frame) _) E).
  pose proof (keeps_at emitted _ _ _ _ (keeps_call emitted ltac:(frame) _) E).
  repeat split; congruence.
Qed.

Lemma set_source_voltage_ret (v : Q) (w w' : World) :
  MPP.set_source_voltage v w = (Ret tt, w') ->
  source_voltage w' = v /\ emitted w' = emitted w.
Proof.
  unfold MPP.set_source_voltage. unfold bind.
  destruct (K.call (SetSourceVoltage v) w) as [[i| |] w1] eqn:E; try discriminate.
  intros [= <-].
  pose proof (keeps_at emitted _ _ _ _ (keeps_call emitted ltac:(frame) _) E).
  split; [reflexivity | assumption].
Qed.

(** One acquisition cycle that returns has emitted one row, whose power
    is the value it returns, and has left the source voltage alone. *)
Lemma cycle_ret (gas : nat) (p : MPP.Params) (w w' : World) (pw : Q) :
  MPP.cycle gas p w = (Ret pw, w') ->
  source_voltage w' = source_voltage w /\
  exists r, emitted w' = emitted w ++ [r] /\ row_power r = pw.
Proof.
  unfold MPP.cycle. unfold bind at 1. unfold time_time at 1. cbv beta iota.
  unfold bind at 1.
  destruct (MPP._measure_datum p (tick_clock w)) as [[d| |] w2] eqn:Ed; try discriminate.
  destruct (measure_datum_returns _ _ _ _ Ed) as (Hem & Hsv & _).
  unfold bind at 1.
  destruct (MPP._time_remaining _ _ w2) as [[tr| |] w3] eqn:Et; try discriminate.
  pose proof (keeps_at emitted _ _ _ _ (keeps_time_remaining emitted ltac:(frame) _ _) Et) as Hem3.
  pose proof (keeps_at source_voltage _ _ _ _
                (keeps_time_remaining source_voltage ltac:(frame) _ _) Et) as Hsv3.
  unfold bind at 1.
  destruct (K.wait_for gas tr 1 w3) as [[[]| |] w4] eqn:Ew; try discriminate.
  pose proof (keeps_at emitted _ _ _ _
                (keeps_wait_for emitted ltac:(frame) ltac:(frame) ltac:(frame) _ _ _) Ew) as Hem4.
  pose proof (keeps_at source_voltage _ _ _ _
                (keeps_wait_for source_voltage ltac:(frame) ltac:(frame) ltac:(frame) _ _ _) Ew)
    as Hsv4.
  unfold ret. intros [= <- <-].
  split; [simpl in *; congruence|].
  exists (mpp_row d). split; [simpl in *; congruence | reflexivity].
Qed.

Lemma probe_loop_ret (gas : nat) (p : MPP.Params) (n : nat) :
  forall (powers ps : list Q) (w w' : World),
    MPP.probe_loop gas n p powers w = (Ret ps, w') ->
    source_voltage w' = source_voltage w /\
    exists rows,
      emitted w' = emitted w ++ rows /\
      ps = powers ++ map row_power rows /\
      length rows = n.
Proof.
  induction n as [|n IH]; intros powers ps w w'; simpl.
  - unfold ret. intros [= <- <-]. split; [reflexivity|].
    exists []. now rewrite !app_nil_r.
  - unfold bind at 1.
    destruct (MPP.cycle gas p w) as [[pw| |] w1] eqn:Ec; try discriminate.
    destruct (cycle_ret _ _ _ _ _ Ec) as (Hsv & r & Hem & Hr).
    intros Hl. destruct (IH _ _ _ _ Hl) as (Hsv' & rows & Hem' & Hps & Hn).
    split; [congruence|].
    exists (r :: rows). split; [rewrite Hem', Hem; now rewrite <- app_assoc|].
    split; [rewrite Hps; simpl; rewrite Hr; now rewrite <- app_assoc | simpl; lia].
Qed.

Lemma baseline_loop_ret (gas : nat) (p : MPP.Params) (fuel : nat) :
  forall (powers ps : list Q) (w w' : World),
    MPP.baseline_loop gas fuel p powers w = (Ret ps, w') ->
    source_voltage w' = source_voltage w /\
    exists rows,
      emitted w' = emitted w ++ rows /\
      ps = powers ++ map row_power rows.
Proof.
  induction fuel as [|f IH]; intros powers ps w w'; simpl; [discriminate|].
  unfold bind at 1. unfold time_time at 1. cbv beta iota.
  unfold bind at 1. unfold getattr at 1. simpl attrs.
  destruct (attrs w !! MPP.last_probe_attr) as [[|t| |]|]; try discriminate.
  destruct (Qlt_bool _ _).
  - unfold bind at 1.
    destruct (MPP.cycle gas p (tick_clock w)) as [[pw| |] w1] eqn:Ec; try discriminate.
    destruct (cycle_ret _ _ _ _ _ Ec) as (Hsv & r & Hem & Hr).
    intros Hl. destruct (IH _ _ _ _ Hl) as (Hsv' & rows & Hem' & Hps).
    split; [simpl in *; congruence|].
    exists (r :: rows). split; [rewrite Hem', Hem; simpl; now rewrite <- app_assoc|].
    rewrite Hps; simpl; rewrite Hr; now rewrite <- app_assoc.
  - unfold ret. intros [= <- <-]. split; [reflexivity|].
    exists []. now rewrite !app_nil_r.
Qed.

(** What a baseline phase that returns leaves behind. *)
Lemma baseline_returns (gas : nat) (p : MPP.Params) (w w' : World)
    (v : Q) (powers : list Q) :
  MPP._baseline gas p w = (Ret (v, powers), w') ->
  v = source_voltage w /\
  source_voltage w' = source_voltage w /\
  exists rows, emitted w' = emitted w ++ rows /\ powers = map row_power rows.
Proof.
  unfold MPP._baseline. unfold bind at 1.
  destruct (try_except _ _ w) as [[[]| |] w1] eqn:Et; try discriminate.
  assert (Hk : keeps source_voltage
                 (try_except (getattr MPP.last_probe_attr ;; ret tt)
                    (fun e => match e with
                              | AttributeError _ =>
                                  now <- time_time ;; setattr MPP.last_probe_attr (VNum now)
                              | _ => raise e
                              end))).
  { apply keeps_try_except.
    - apply keeps_bind; [apply keeps_getattr | intros; apply keeps_ret].
    - intros []; try apply keeps_raise.
      apply keeps_bind; [apply keeps_time_time; frame | intros; apply keeps_setattr; frame]. }
  assert (Hk' : keeps emitted
                 (try_except (getattr MPP.last_probe_attr ;; ret tt)
                    (fun e => match e with
                              | AttributeError _ =>
                                  now <- time_time ;; setattr MPP.last_probe_attr (VNum now)
                              | _ => raise e
                              end))).
  { apply keeps_try_except.
    - apply keeps_bind; [apply keeps_getattr | intros; apply keeps_ret].
    - intros []; try apply keeps_raise.
      apply keeps_bind; [apply keeps_time_time; frame | intros; apply keeps_setattr; frame]. }
  pose proof (keeps_at _ _ _ _ _ Hk Et) as Hsv1.
  pose proof (keeps_at _ _ _ _ _ Hk' Et) as Hem1.
  unfold bind at 1.
  destruct (MPP.baseline_loop gas gas p [] w1) as [[ps| |] w2] eqn:El; try discriminate.
  destruct (baseline_loop_ret _ _ _ _ _ _ _ El) as (Hsv2 & rows & Hem2 & Hps).
  unfold bind at 1.
  destruct (MPP.get_source_voltage w2) as [[v0| |] w3] eqn:Eg; try discriminate.
  destruct (get_source_voltage_ret _ _ _ Eg) as (Hv & Hsv3 & Hem3).
  unfold ret. intros H. inversion H; subst.
  split; [congruence|]. split; [congruence|].
  exists rows. split; [congruence | reflexivity].
Qed.

(** X11. A baseline phase that returns gives back the source voltage it
    found and leaves it there; the powers it returns are, in order, the
    power columns of exactly the rows it emitted. *)
Theorem baseline_contract (gas : nat) (p : MPP.Params) (w w' : World)
    (v : Q) (powers : list Q) :
  MPP._baseline gas p w = (Ret (v, powers), w') ->
  v = source_voltage w /\
  source_voltage w' = source_voltage w /\
  exists rows, emitted w' = emitted w ++ rows /\ powers = map row_power rows.
Proof. exact (baseline_returns gas p w w' v powers). Qed.

Lemma baseline_contract_witness :
  exists w',
    MPP._baseline 5 Bench.mpp (Bench.world 3 5 2) = (Ret (0%Q, []), w') /\
    source_voltage w' = 0%Q.
Proof.
  exists (snd (MPP._baseline 5 Bench.mpp (Bench.world 3 5 2))).
  assert (E : MPP._baseline 5 Bench.mpp (Bench.world 3 5 2)
              = (Ret (0%Q, []), snd (MPP._baseline 5 Bench.mpp (Bench.world 3 5 2))))
    by (vm_compute; reflexivity).
  split; [exact E|].
  destruct (baseline_contract 5 Bench.mpp (Bench.world 3 5 2) _ _ _ E) as (_ & H & _).
  exact H.
Defined.

(** What a probe phase that returns leaves behind. *)
Lemma probe_returns (gas : nat) (p : MPP.Params) (direction : Z) (w w' : World)
    (v : Q) (powers : list Q) :
  MPP._probe gas p direction w = (Ret (v, powers), w') ->
  v = (source_voltage w + inject_Z direction * MPP.probe_step p)%Q /\
  source_voltage w' = v /\
  length powers = Z.to_nat (MPP.probe_points p) /\
  (exists rows, emitted w' = emitted w ++ rows /\ powers = map row_power rows) /\
  exists t, attrs w' !! MPP.last_probe_attr = Some (VNum t).
Proof.
  unfold MPP._probe. unfold bind at 1.
  destruct (MPP.get_source_voltage w) as [[v0| |] w1] eqn:Eg; try discriminate.
  destruct (get_source_voltage_ret _ _ _ Eg) as (Hv0 & Hsv1 & Hem1).
  unfold bind at 1.
  destruct (MPP.set_source_voltage _ w1) as [[[]| |] w2] eqn:Es; try discriminate.
  destruct (set_source_voltage_ret _ _ _ Es) as (Hsv2 & Hem2).
  unfold bind at 1.
  destruct (MPP.get_source_voltage w2) as [[v1| |] w3] eqn:Eg3; try discriminate.
  destruct (get_source_voltage_ret _ _ _ Eg3) as (_ & Hsv3 & Hem3).
  unfold bind at 1.
  destruct (MPP.probe_loop _ _ _ _ w3) as [[ps| |] w4] eqn:El; try discriminate.
  destruct (probe_loop_ret _ _ _ _ _ _ _ El) as (Hsv4 & rows & Hem4 & Hps & Hn).
  unfold bind at 1. unfold time_time at 1. cbv beta iota.
  unfold bind at 1. unfold setattr at 1. cbv beta iota.
  unfold bind at 1.
  match goal with
  | |- context [MPP.get_source_voltage ?x] =>
      destruct (MPP.get_source_voltage x) as [[v2| |] w5] eqn:Eg5; try discriminate
  end.
  destruct (get_source_voltage_ret _ _ _ Eg5) as (Hv5 & Hsv5 & Hem5).
  pose proof (keeps_at attrs _ _ _ _ (keeps_get_source_voltage attrs ltac:(frame)) Eg5) as Hat5.
  unfold ret. intros H. inversion H; subst. simpl in *.
  split; [congruence|]. split; [congruence|].
  split; [now rewrite length_map|].
  split; [exists rows; split; [congruence | reflexivity]|].
  eexists. rewrite Hat5. apply lookup_insert_eq.
Qed.

(** X12. A probe phase that returns has moved the source voltage by
    [direction * probe_step] and left it there, which is also the voltage
    it returns; it has collected exactly [probe_points] powers (none for a
    negative setting), which are, in order, the power columns of exactly
    the rows it emitted; and it has recorded a time of last probe. *)
Theorem probe_contract (gas : nat) (p : MPP.Params) (direction : Z) (w w' : World)
    (v : Q) (powers : list Q) :
  MPP._probe gas p direction w = (Ret (v, powers), w') ->
  v = (source_voltage w + inject_Z direction * MPP.probe_step p)%Q /\
  source_voltage w' = v /\
  length powers = Z.to_nat (MPP.probe_points p) /\
  (exists rows, emitted w' = emitted w ++ rows /\ powers = map row_power rows) /\
  exists t, attrs w' !! MPP.last_probe_attr = Some (VNum t).
Proof. exact (probe_returns gas p direction w w' v powers). Qed.

Lemma probe_contract_witness :
  exists v powers w',
    MPP._probe 5 Bench.mpp 1 (Bench.world 3 5 2) = (Ret (v, powers), w') /\
    (v == 5 # 100)%Q /\ source_voltage w' = v /\ length powers = 3.
Proof.
  destruct (MPP._probe 5 Bench.mpp 1 (Bench.world 3 5 2)) as [[[v powers]| |] w'] eqn:E;
    try (vm_compute in E; discriminate).
  destruct (probe_contract 5 Bench.mpp 1 (Bench.world 3 5 2) w' v powers E)
    as (Hv & Hs & Hl & _).
  exists v, powers, w'. split; [reflexivity|].
  split; [rewrite Hv; vm_compute; reflexivity|].
  split; assumption.
Defined.

(** *** The decision and the hill climb *)

Lemma Qsum_mono (a b : list Q) : Forall2 Qle a b -> (Qsum a <= Qsum b)%Q.
Proof.
  induction 1 as [|x y a b Hxy Hab IH]; unfold Qsum in *; simpl; lra.
Qed.

(** X13. With at least one point to compare, that is with
    [n = min( probe_points, |p1|, |p2| ) >= 1], [_better_voltage] returns
    the probe voltage whenever the probe is at least as good at every
    compared point: in power-production mode when each of the last [n]
    probe powers is at least the baseline power at the same position, in
    consumption mode when each is at most that baseline power.  Equal
    series select the probe. *)
Theorem better_voltage_with_points (p : MPP.Params) (v1 v2 : Q) (p1 p2 : list Q) :
  (0 < MPP.num_points p p1 p2)%Z ->
  let n := Z.to_nat (MPP.num_points p p1 p2) in
  (MPP.power_production_mode p = true ->
     Forall2 Qle (last_n n p1) (last_n n p2) ->
     MPP._better_voltage p (v1, p1) (v2, p2) = v2) /\
  (MPP.power_production_mode p = false ->
     Forall2 Qle (last_n n p2) (last_n n p1) ->
     MPP._better_voltage p (v1, p1) (v2, p2) = v2).
Proof.
  intros Hn n.
  pose proof (better_voltage_cases p v1 v2 p1 p2) as Hc.
  pose proof (comparators_as_claimed p p1 p2 Hn) as Ha.
  unfold claimed_comparators in Ha. cbv zeta in Ha. fold n in Ha.
  destruct (MPP.comparators p p1 p2) as [m1 m2].
  destruct Hc as [Hle _].
  split; intros Hm Hall; rewrite Hm in Ha; destruct Ha as [Ha1 Ha2];
    apply Hle; apply Qsum_mono in Hall; lra.
Qed.

Lemma better_voltage_with_points_witness :
  MPP._better_voltage Bench.mpp (0, [4; 1; 2; 3])%Q (5 # 100, [1; 2; 2])%Q = (5 # 100)%Q.
Proof.
  destruct (better_voltage_with_points Bench.mpp 0 (5 # 100) [4; 1; 2; 3]%Q [1; 2; 2]%Q)
    as [_ H].
  - reflexivity.
  - apply H; [reflexivity|].
    change (Forall2 Qle [1; 2; 2]%Q [1; 2; 3]%Q).
    repeat (constructor; [unfold Qle; simpl; lia|]). constructor.
Defined.

(** The two outcomes of the comparison that ends a pass. *)
Lemma decision_returns (p : MPP.Params) (dir dir' : Z) (d1 d2 : Q * list Q)
    (w w' : World) :
  MPP.decision p dir d1 d2 w = (Ret dir', w') ->
  ((MPP._better_voltage p d1 d2 == fst d1)%Q ->
     dir' = (- dir)%Z /\
     source_voltage w' = fst d1 /\
     emitted w' = emitted w /\
     (instr_set w -> oplog w' = oplog w ++ [SetSourceVoltage (fst d1)])) /\
  (~ (MPP._better_voltage p d1 d2 == fst d1)%Q -> dir' = dir /\ w' = w).
Proof.
  unfold MPP.decision.
  destruct (Qeq_bool (MPP._better_voltage p d1 d2) (fst d1)) eqn:E.
  - apply Qeq_bool_iff in E. unfold bind.
    destruct (MPP.set_source_voltage (fst d1) w) as [[[]| |] w1] eqn:Es; try discriminate.
    unfold ret. intros [= <- <-]. split; [|contradiction].
    intros _. destruct (set_source_voltage_ret _ _ _ Es) as (Hsv & Hem).
    split; [lia|]. split; [assumption|]. split; [assumption|].
    intros Hw. revert Es. unfold MPP.set_source_voltage, bind.
    rewrite (call_step _ _ Hw). destruct (fault w (length (oplog w))); [discriminate|].
    intros [= <-]. reflexivity.
  - unfold ret. intros [= <- <-]. split; [|split; reflexivity].
    intros H. apply Qeq_bool_iff in H. congruence.
Qed.

(** X14. A decision that returns has done one of two things.  If the
    voltage [_better_voltage] chose equals the baseline voltage - the
    baseline won, or the probe won at the very same voltage, as with a
    zero probe step - the direction is negated and the instrument is set
    to the baseline voltage by one driver call.  Otherwise the direction
    and the world are exactly as before. *)
Theorem decision_effect (p : MPP.Params) (dir dir' : Z) (d1 d2 : Q * list Q)
    (w w' : World) :
  MPP.decision p dir d1 d2 w = (Ret dir', w') ->
  ((MPP._better_voltage p d1 d2 == fst d1)%Q ->
     dir' = (- dir)%Z /\
     source_voltage w' = fst d1 /\
     emitted w' = emitted w /\
     (instr_set w -> oplog w' = oplog w ++ [SetSourceVoltage (fst d1)])) /\
  (~ (MPP._better_voltage p d1 d2 == fst d1)%Q -> dir' = dir /\ w' = w).
Proof. exact (decision_returns p dir dir' d1 d2 w w'). Qed.

Lemma decision_effect_witness :
  fst (MPP.decision Bench.mpp 1 (0, [9])%Q (5 # 100, [1])%Q (Bench.world 3 5 2))
    = Ret 1%Z /\
  snd (MPP.decision Bench.mpp 1 (0, [9])%Q (5 # 100, [1])%Q (Bench.world 3 5 2))
    = Bench.world 3 5 2.
Proof.
  destruct (decision_effect Bench.mpp 1 1 (0, [9])%Q (5 # 100, [1])%Q
              (Bench.world 3 5 2) (Bench.world 3 5 2)) as [_ H].
  - vm_compute. reflexivity.
  - destruct H as [H1 H2]; [vm_compute; discriminate|].
    split; vm_compute; reflexivity.
Defined.

(** The direction and the source voltage after one pass of the loop. *)
Lemma loop_body_returns (gas : nat) (p : MPP.Params) (dir dir' : Z) (w w' : World) :
  MPP.loop_body gas p dir w = (Ret dir', w') ->
  (dir' = (- dir)%Z /\ source_voltage w' = source_voltage w) \/
  (dir' = dir /\
   source_voltage w' = (source_voltage w + inject_Z dir * MPP.probe_step p)%Q).
Proof.
  unfold MPP.loop_body. unfold bind at 1.
  destruct (MPP._baseline gas p w) as [[[v1 p1]| |] w1] eqn:Eb; try discriminate.
  destruct (baseline_returns _ _ _ _ _ _ Eb) as (Hv1 & Hsv1 & _).
  unfold bind at 1.
  destruct (MPP._probe gas p dir w1) as [[[v2 p2]| |] w2] eqn:Ep; try discriminate.
  destruct (probe_returns _ _ _ _ _ _ _ Ep) as (Hv2 & Hsv2 & _).
  intros Hd. destruct (decision_returns _ _ _ _ _ _ _ Hd) as [Hflip Hkeep].
  destruct (Qeq_dec (MPP._better_voltage p (v1, p1) (v2, p2)) (fst (v1, p1))) as [E|E].
  - left. destruct (Hflip E) as (-> & Hs & _). simpl in Hs. split; congruence.
  - right. destruct (Hkeep E) as (-> & ->). split; congruence.
Qed.

(** X15. One pass of the tracker's loop that returns is one step of the
    hill climb: either the direction is negated and the source voltage is
    back where the pass found it, or the direction is kept and the source
    voltage has moved by [direction * probe_step]. *)
Theorem loop_body_step (gas : nat) (p : MPP.Params) (dir dir' : Z) (w w' : World) :
  MPP.loop_body gas p dir w = (Ret dir', w') ->
  (dir' = (- dir)%Z /\ source_voltage w' = source_voltage w) \/
  (dir' = dir /\
   source_voltage w' = (source_voltage w + inject_Z dir * MPP.probe_step p)%Q).
Proof. exact (loop_body_returns gas p dir dir' w w'). Qed.

Lemma loop_body_step_witness :
  fst (MPP.loop_body 5 Bench.mpp 1 (Bench.world 3 5 2)) = Ret (-1)%Z /\
  source_voltage (snd (MPP.loop_body 5 Bench.mpp 1 (Bench.world 3 5 2))) = 0%Q.
Proof.
  destruct (MPP.loop_body 5 Bench.mpp 1 (Bench.world 3 5 2)) as [[d| |] w'] eqn:E;
    try (vm_compute in E; discriminate).
  assert (Hd : d = (-1)%Z) by (vm_compute in E; congruence).
  destruct (loop_body_step 5 Bench.mpp 1 d (Bench.world 3 5 2) w' E) as [[_ H] | [H _]].
  - split; [simpl; congruence | exact H].
  - exfalso. rewrite Hd in H. discriminate.
Defined.

Lemma mpp_execute_loop_direction (gas : nat) (p : MPP.Params) (fuel : nat) :
  forall (dir d : Z) (w w' : World),
    (dir = 1 \/ dir = -1)%Z ->
    MPP.execute_loop gas fuel p dir w = (Ret d, w') ->
    (d = 1 \/ d = -1)%Z.
Proof.
  induction fuel as [|f IH]; intros dir d w w' Hdir; simpl; [discriminate|].
  unfold bind at 1.
  destruct (MPP.progress p w) as [[pr| |] w1] eqn:Ep; try discriminate.
  destruct (Qlt_bool pr 1).
  - unfold bind at 1.
    destruct (MPP.loop_body gas p dir w1) as [[dir'| |] w2] eqn:El; try discriminate.
    intros Hl. apply (IH dir' d w2 w'); [|exact Hl].
    destruct (loop_body_returns _ _ _ _ _ _ El) as [[-> _] | [-> _]]; lia.
  - unfold ret. intros [= <- <-]. assumption.
Qed.

(** X16. A run of the tracker's [execute] that returns ends with a
    [probe_direction] of 1 or -1: the tracker starts with 1 and a pass
    either keeps the direction or negates it. *)
Theorem mpp_execute_direction (gas : nat) (p : MPP.Params) (w w' : World) (d : Z) :
  MPP.execute gas p w = (Ret d, w') ->
  (d = 1 \/ d = -1)%Z.
Proof.
  rewrite mpp_execute_begins. unfold bind at 1.
  destruct (K.call EnableSource _) as [[i| |] w1]; try discriminate.
  unfold bind at 1.
  destruct (MPP.set_source_voltage _ w1) as [[[]| |] w2]; try discriminate.
  apply mpp_execute_loop_direction. lia.
Qed.

Lemma mpp_execute_direction_witness :
  exists d w',
    MPP.execute 20 Rig.mpp_short (Bench.world 3 5 2) = (Ret d, w') /\
    (d = 1 \/ d = -1)%Z.
Proof.
  destruct (MPP.execute 20 Rig.mpp_short (Bench.world 3 5 2)) as [[d| |] w'] eqn:E;
    try (vm_compute in E; discriminate).
  exists d, w'. split; [reflexivity|].
  exact (mpp_execute_direction 20 Rig.mpp_short (Bench.world 3 5 2) w' d E).
Defined.

(** *** The Voc detector *)

(** What the Voc [_measure] has emitted and computed when it returns. *)
Lemma voc_measure_returns (p : Voc.Params) (w w' : World) (d : Voc.Datum) :
  Voc._measure p w = (Ret d, w') ->
  emitted w' = emitted w ++ [voc_row d] /\
  exists flat w1 data els iv ic,
    Voc._get_data p w = (Ret flat, w1) /\
    attrs w1 !! K.elements_attr = Some (VElems els) /\
    Forall (fun r => length r = length els) data /\
    concat data = flat /\
    index "VOLT" els = Some iv /\
    index "CURR" els = Some ic /\
    Voc.d_voltage d = col_mean iv data /\
    Voc.d_current d = col_mean ic data.
Proof.
  unfold Voc._measure. unfold bind at 1.
  destruct (Voc._get_data p w) as [[flat| |] w1] eqn:Eg; try discriminate.
  pose proof (keeps_at emitted _ _ _ _ (keeps_get_data emitted ltac:(frame) p) Eg) as Hem.
  unfold bind at 1.
  destruct (K.format_data flat w1) as [[data| |] w2] eqn:Ef; try discriminate.
  destruct (format_data_shape _ _ _ _ Ef) as (-> & els & Hel & _ & Hall & Hcat).
  cbv zeta. change Voc.elements_index with MPP.elements_index.
  change Voc.time_elapsed with MPP.time_elapsed.
  unfold bind at 1.
  destruct (MPP.elements_index "TIME" w1) as [[it| |] w3] eqn:Et; try discriminate.
  destruct (elements_index_found _ _ _ _ Et) as (-> & _).
  unfold bind at 1.
  destruct (MPP.time_elapsed w1) as [[te| |] w4] eqn:Ete; try discriminate.
  pose proof (keeps_at emitted _ _ _ _ (keeps_time_elapsed emitted ltac:(frame)) Ete) as Hem4.
  pose proof (keeps_at attrs _ _ _ _ (keeps_time_elapsed attrs ltac:(frame)) Ete) as Hat4.
  unfold bind at 1.
  destruct (MPP.elements_index "VOLT" w4) as [[iv| |] w5] eqn:Ev; try discriminate.
  destruct (elements_index_found _ _ _ _ Ev) as (-> & els' & Hel' & Hiv).
  unfold bind at 1.
  destruct (MPP.elements_index "CURR" w4) as [[ic| |] w6] eqn:Ec; try discriminate.
  destruct (elements_index_found _ _ _ _ Ec) as (-> & els'' & Hel'' & Hic).
  rewrite Hat4, Hel in Hel', Hel''. injection Hel' as <-. injection Hel'' as <-.
  unfold bind, emit, ret. intros [= <- <-].
  split; [simpl; unfold voc_row; simpl; now rewrite Hem4, Hem|].
  exists flat, w1, data, els, iv, ic.
  split; [reflexivity|]. split; [assumption|]. split; [assumption|].
  split; [assumption|]. split; [assumption|]. split; [assumption|]. simpl.
  split; apply (nth_col_means _ (length els)); try assumption; eapply index_lt; eassumption.
Qed.

(** X17. Whenever the Voc detector's [_measure] returns, it has emitted
    exactly one row, the row of the datum it returns, and the voltage and
    the current of that datum are the means of the VOLT and CURR columns
    of the buffer [_get_data] returned, reshaped to the width of the
    element list. *)
Theorem voc_measure_reports_means (p : Voc.Params) (w w' : World) (d : Voc.Datum) :
  Voc._measure p w = (Ret d, w') ->
  emitted w' = emitted w ++ [voc_row d] /\
  exists flat w1 data els iv ic,
    Voc._get_data p w = (Ret flat, w1) /\
    attrs w1 !! K.elements_attr = Some (VElems els) /\
    Forall (fun r => length r = length els) data /\
    concat data = flat /\
    index "VOLT" els = Some iv /\
    index "CURR" els = Some ic /\
    Voc.d_voltage d = col_mean iv data /\
    Voc.d_current d = col_mean ic data.
Proof. exact (voc_measure_returns p w w' d). Qed.

Lemma voc_measure_reports_means_witness :
  exists d,
    fst (Voc._measure Bench.voc (Bench.world (62 # 100) 0 1)) = Ret d /\
    emitted (snd (Voc._measure Bench.voc (Bench.world (62 # 100) 0 1))) = [voc_row d].
Proof.
  destruct (Voc._measure Bench.voc (Bench.world (62 # 100) 0 1)) as [[d| |] w'] eqn:E;
    try (vm_compute in E; discriminate).
  exists d. split; [reflexivity|].
  destruct (voc_measure_reports_means Bench.voc _ w' d E) as (H & _).
  exact H.
Defined.

(** The size and the content of the window after one update. *)
Lemma window_update_fits (p : Voc.Params) (data : list Voc.Datum) (datum : Voc.Datum) :
  (0 <= Voc.threshold_points p)%Z ->
  (Z.of_nat (length data) <= Voc.threshold_points p)%Z ->
  (Z.of_nat (length (Voc.window_update p data datum)) <= Voc.threshold_points p)%Z /\
  (exists k, Voc.window_update p data datum = firstn k (data ++ [datum])) /\
  ((Z.of_nat (length data) < Voc.threshold_points p)%Z ->
     Voc.window_update p data datum = data ++ [datum]).
Proof.
  intros Hpos Hlen. unfold Voc.window_update, Voc.slice_to.
  rewrite length_app. simpl length.
  destruct (Voc.threshold_points p <? Z.of_nat (length data + 1))%Z eqn:E.
  - apply Z.ltb_lt in E.
    destruct (- Voc.threshold_points p <? 0)%Z eqn:E'.
    + split; [rewrite length_firstn, length_app; simpl; lia|].
      split; [eexists; reflexivity | lia].
    + split; [rewrite length_firstn, length_app; simpl; lia|].
      split; [eexists; reflexivity | lia].
  - apply Z.ltb_ge in E. split; [rewrite length_app; simpl; lia|].
    split; [|reflexivity].
    exists (length (data ++ [datum])). now rewrite firstn_all.
Qed.

(** X18. Appending to a window that holds at most [threshold_points]
    samples gives a window that holds at most [threshold_points] samples
    again; what is kept is always a front part of the appended list, and
    the whole appended list as long as it fits. *)
Theorem window_update_bounded (p : Voc.Params) (data : list Voc.Datum) (datum : Voc.Datum) :
  (0 <= Voc.threshold_points p)%Z ->
  (Z.of_nat (length data) <= Voc.threshold_points p)%Z ->
  (Z.of_nat (length (Voc.window_update p data datum)) <= Voc.threshold_points p)%Z /\
  (exists k, Voc.window_update p data datum = firstn k (data ++ [datum])) /\
  ((Z.of_nat (length data) < Voc.threshold_points p)%Z ->
     Voc.window_update p data datum = data ++ [datum]).
Proof. exact (window_update_fits p data datum). Qed.

Lemma window_update_bounded_witness :
  (Z.of_nat (length (Voc.window_update Bench.voc2 [Bench.sample 1; Bench.sample 2]
                       (Bench.sample 3))) <= 2)%Z /\
  Voc.window_update Bench.voc2 [Bench.sample 1] (Bench.sample 2)
    = [Bench.sample 1; Bench.sample 2].
Proof.
  split.
  - destruct (window_update_bounded Bench.voc2 [Bench.sample 1; Bench.sample 2]
                (Bench.sample 3)) as [H _]; [simpl; lia | simpl; lia | exact H].
  - destruct (window_update_bounded Bench.voc2 [Bench.sample 1] (Bench.sample 2))
      as (_ & _ & H); [simpl; lia | simpl; lia |]. apply H. simpl. lia.
Defined.

Lemma window_update_overflow_witness :
  Voc.window_update Bench.voc2 [Bench.sample 1; Bench.sample 2] (Bench.sample 3)
    = firstn 1 [Bench.sample 1; Bench.sample 2; Bench.sample 3].
Proof.
  apply (window_update_overflow Bench.voc2 [Bench.sample 1; Bench.sample 2] (Bench.sample 3)).
  - reflexivity.
  - reflexivity.
Defined.

Lemma voc_execute_loop_short (gas : nat) (p : Voc.Params) (fuel : nat) :
  forall (data : list Voc.Datum) (w w' : World) (x : Voc.exit_path),
    (Z.of_nat (length data) < Voc.threshold_points p)%Z ->
    Voc.execute_loop gas fuel p data w = (Ret x, w') ->
    x = Voc.TimedOut /\
    exists rows,
      emitted w' = emitted w ++ rows /\
      (Z.of_nat (length data + length rows) < Voc.threshold_points p)%Z.
Proof.
  induction fuel as [|f IH]; intros data w w' x Hlen; simpl; [discriminate|].
  unfold bind at 1.
  destruct (Voc.progress p w) as [[pr| |] w1] eqn:Ep; try discriminate.
  pose proof (keeps_at emitted _ _ _ _ (keeps_voc_progress emitted ltac:(frame) p) Ep) as Hem1.
  destruct (Qlt_bool pr 1).
  - unfold bind at 1.
    destruct (Voc._measure p w1) as [[datum| |] w2] eqn:Em; try discriminate.
    destruct (voc_measure_returns _ _ _ _ Em) as (Hem2 & _).
    destruct (window_update_fits p data datum) as (_ & _ & Hfit); [lia | lia |].
    rewrite (Hfit Hlen). rewrite length_app. simpl length.
    unfold bind at 1.
    destruct (Voc.threshold_points p <=? Z.of_nat (length data + 1))%Z eqn:E.
    + rewrite settled_raises. discriminate.
    + apply Z.leb_gt in E. unfold ret at 1. cbv beta iota.
      unfold bind at 1.
      destruct (K.wait_for gas _ _ w2) as [[[]| |] w3] eqn:Ew; try discriminate.
      pose proof (keeps_at emitted _ _ _ _
                    (keeps_wait_for emitted ltac:(frame) ltac:(frame) ltac:(frame) _ _ _) Ew)
        as Hem3.
      intros Hl.
      assert (Hlen' : (Z.of_nat (length (data ++ [datum])) < Voc.threshold_points p)%Z)
        by (rewrite length_app; simpl; lia).
      destruct (IH _ _ _ _ Hlen' Hl) as (-> & rows & Hem4 & Hn).
      split; [reflexivity|]. exists (voc_row datum :: rows).
      split; [rewrite Hem4, Hem3, Hem2, Hem1; now rewrite <- app_assoc|].
      rewrite length_app in Hn. simpl in *. lia.
  - unfold ret. intros [= <- <-]. split; [reflexivity|].
    exists []. rewrite app_nil_r. split; [congruence | simpl; lia].
Qed.

(** X20. With a window of at least one sample, a run of the Voc
    detector's [execute] that returns has left through the timed-out path
    and has emitted fewer rows than [threshold_points]: a run that
    collects [threshold_points] samples ends in the exception of
    [_settled] instead. *)
Theorem voc_execute_returns_short (gas : nat) (p : Voc.Params) (w w' : World)
    (x : Voc.exit_path) :
  (0 < Voc.threshold_points p)%Z ->
  Voc.execute gas p w = (Ret x, w') ->
  x = Voc.TimedOut /\
  exists rows,
    emitted w' = emitted w ++ rows /\
    (Z.of_nat (length rows) < Voc.threshold_points p)%Z.
Proof.
  intros Htp. rewrite voc_execute_begins. unfold bind at 1.
  destruct (K.call EnableSource _) as [[i| |] w1] eqn:Ec; try discriminate.
  pose proof (keeps_at emitted _ _ _ _ (keeps_call emitted ltac:(frame) _) Ec) as Hem.
  intros Hl.
  assert (H0 : (Z.of_nat (length (@nil Voc.Datum)) < Voc.threshold_points p)%Z)
    by (simpl; lia).
  destruct (voc_execute_loop_short gas p gas [] w1 w' x H0 Hl)
    as (-> & rows & Hem' & Hn).
  split; [reflexivity|]. exists rows. split; [rewrite Hem', Hem; reflexivity|].
  simpl in Hn. exact Hn.
Qed.

Lemma voc_execute_returns_short_witness :
  exists w',
    Voc.execute 20 Bench.voc Rig.voc_world_fast
      = (Ret Voc.TimedOut, w') /\
    exists rows, emitted w' = rows /\ (Z.of_nat (length rows) < 5)%Z.
Proof.
  destruct (Voc.execute 20 Bench.voc Rig.voc_world_fast)
    as [[x| |] w'] eqn:E; try (vm_compute in E; discriminate).
  assert (Htp : (0 < Voc.threshold_points Bench.voc)%Z) by reflexivity.
  destruct (voc_execute_returns_short 20 Bench.voc _ w' x Htp E)
    as (-> & rows & Hem & Hn).
  exists w'. split; [reflexivity|]. exists rows. split; [exact Hem | exact Hn].
Defined.

(** *** The tracker never shuts the instrument down on its own *)

Lemma tidy_of_calm {A} (m : M A) :
  calm m -> appends not_shutdown m -> tidy m.
Proof.
  intros Hc Ha w Hw.
  destruct (Hc w Hw) as (Hs & _ & Hi & Hp & _ & l & Hl).
  destruct (Ha w) as (l' & Hl' & HP).
  split; [assumption|]. split; [assumption|]. split; [assumption|].
  exists l'. split; [assumption|]. intros _ Hin.
  exact (proj1 (List.Forall_forall _ _) HP _ Hin eq_refl).
Qed.

Lemma tidy_bind {A B} (m : M A) (k : A -> M B) :
  tidy m -> (forall a, tidy (k a)) -> tidy (bind m k).
Proof.
  intros Hm Hk w Hw. unfold bind.
  destruct (Hm w Hw) as (Hs & Hi & Hp & l & Hl & Hn).
  destruct (m w) as [[a|e|] w1]; simpl in *.
  - destruct (Hk a w1 Hi) as (Hs' & Hi' & Hp' & l' & Hl' & Hn').
    split; [congruence|]. split; [assumption|]. split; [lia|].
    exists (l ++ l'). split; [rewrite Hl', Hl; now rewrite app_assoc|].
    intros Hq Hin. apply in_app_or in Hin. destruct Hin as [Hin | Hin].
    + apply Hn; [|exact Hin]. intros j Hj. apply Hq. lia.
    + apply Hn'; [|exact Hin]. intros j Hj. rewrite Hs. apply Hq. lia.
  - split; [assumption|]. split; [assumption|]. split; [assumption|].
    exists l. split; assumption.
  - split; [assumption|]. split; [assumption|]. split; [assumption|].
    exists l. split; assumption.
Qed.

Lemma tidy_try_except {A} (m : M A) (h : exn -> M A) :
  tidy m -> (forall e, tidy (h e)) -> tidy (try_except m h).
Proof.
  intros Hm Hh w Hw. unfold try_except.
  destruct (Hm w Hw) as (Hs & Hi & Hp & l & Hl & Hn).
  destruct (m w) as [[a|e|] w1]; simpl in *.
  - split; [assumption|]. split; [assumption|]. split; [assumption|].
    exists l. split; assumption.
  - destruct (Hh e w1 Hi) as (Hs' & Hi' & Hp' & l' & Hl' & Hn').
    split; [congruence|]. split; [assumption|]. split; [lia|].
    exists (l ++ l'). split; [rewrite Hl', Hl; now rewrite app_assoc|].
    intros Hq Hin. apply in_app_or in Hin. destruct Hin as [Hin | Hin].
    + apply Hn; [|exact Hin]. intros j Hj. apply Hq. lia.
    + apply Hn'; [|exact Hin]. intros j Hj. rewrite Hs. apply Hq. lia.
  - split; [assumption|]. split; [assumption|]. split; [assumption|].
    exists l. split; assumption.
Qed.

Lemma appends_keeps {A} (P : op -> Prop) (m : M A) : keeps oplog m -> appends P m.
Proof. intros H. now apply appends_nothing. Qed.

Ltac nos_step :=
  first
    [ apply appends_ret | apply appends_raise | apply appends_getattr
    | apply appends_setattr | apply appends_sleep | apply appends_read
    | apply appends_instrument
    | apply appends_call; discriminate
    | apply appends_keeps; solve
        [ apply keeps_time_time; frame
        | apply keeps_time_elapsed; frame
        | apply keeps_mpp_progress; frame
        | apply keeps_time_remaining; frame
        | apply keeps_elements_index
        | apply keeps_format_data
        | intros ?; reflexivity ]
    | apply appends_bind; [ | intros ? ]
    | apply appends_try_except; [ | intros ? ]
    | progress cbv zeta
    | match goal with
      | |- appends _ (match ?x with _ => _ end) => destruct x
      end ].

Ltac nos_tac := repeat nos_step.

Lemma nos_measure_datum (p : MPP.Params) : appends not_shutdown (MPP._measure_datum p).
Proof. unfold MPP._measure_datum, MPP._measure, emit. nos_tac. Qed.

Lemma nos_get_source_voltage : appends not_shutdown MPP.get_source_voltage.
Proof. unfold MPP.get_source_voltage. nos_tac. Qed.

Lemma nos_set_source_voltage (v : Q) : appends not_shutdown (MPP.set_source_voltage v).
Proof. unfold MPP.set_source_voltage. nos_tac. Qed.

Lemma nos_decision (p : MPP.Params) (dir : Z) (d1 d2 : Q * list Q) :
  appends not_shutdown (MPP.decision p dir d1 d2).
Proof.
  unfold MPP.decision. cbv zeta. destruct (Qeq_bool _ _); [|apply appends_ret].
  apply appends_bind; [apply nos_set_source_voltage | intros; apply appends_ret].
Qed.

(** The cooperative wait adds a shutdown call only after a poll of the
    stop flag that answered [True]. *)
Lemma tidy_wait_for_loop (gas : nat) (end_ interval : Q) :
  tidy (K.wait_for_loop gas end_ interval).
Proof.
  induction gas as [|g IH]; intros w Hw.
  - simpl. split; [reflexivity|]. split; [assumption|]. split; [lia|].
    exists []. rewrite app_nil_r. split; [reflexivity | intros _ []].
  - destruct (K.wait_for_loop (S g) end_ interval w) as [r w'] eqn:E.
    simpl in E. unfold bind at 1 in E. unfold time_time at 1 in E.
    destruct (Qlt_bool (clock w (clock_reads w)) end_).
    + unfold bind at 1 in E. unfold should_stop at 1 in E. cbv beta iota in E.
      assert (Hi2 : instr_set (tick_polls (tick_clock w))) by exact Hw.
      destruct (stop_signal (tick_clock w) (polls (tick_clock w))) eqn:Es.
      * unfold bind in E. rewrite (shutdown_set _ Hi2) in E. simpl in Es, E.
        destruct (fault w (length (oplog w))); simpl in E;
          injection E as <- <-; simpl;
          (split; [reflexivity|]; split; [exact Hw|]; split; [lia|];
           exists [Shutdown]; split; [reflexivity|];
           intros Hq; rewrite (Hq (polls w)) in Es by lia; discriminate).
      * assert (Ht : tidy (sleep interval ;; K.wait_for_loop g end_ interval)).
        { apply tidy_bind; [|intros; exact IH].
          apply tidy_of_calm; [apply calm_sleep | apply appends_sleep]. }
        destruct (Ht _ Hi2) as (Hs & Hi & Hp & l & Hl & Hn).
        rewrite E in Hs, Hi, Hp, Hl, Hn. simpl in *.
        split; [assumption|]. split; [assumption|]. split; [lia|].
        exists l. split; [assumption|].
        intros Hq. apply Hn. intros j Hj. apply Hq. lia.
    + injection E as <- <-. simpl.
      split; [reflexivity|]. split; [assumption|]. split; [lia|].
      exists []. rewrite app_nil_r. split; [reflexivity | intros _ []].
Qed.

Lemma tidy_wait_for (gas : nat) (seconds interval : Q) :
  tidy (K.wait_for gas seconds interval).
Proof.
  unfold K.wait_for. apply tidy_bind.
  - apply tidy_of_calm; [apply calm_time_time | apply appends_keeps, keeps_time_time; frame].
  - intros. apply tidy_wait_for_loop.
Qed.

Lemma tidy_cycle (gas : nat) (p : MPP.Params) : tidy (MPP.cycle gas p).
Proof.
  unfold MPP.cycle.
  apply tidy_bind;
    [apply tidy_of_calm; [apply calm_time_time | apply appends_keeps, keeps_time_time; frame]|].
  intros. apply tidy_bind;
    [apply tidy_of_calm; [apply calm_measure_datum | apply nos_measure_datum]|].
  intros. apply tidy_bind;
    [apply tidy_of_calm;
       [apply calm_time_remaining | apply appends_keeps, keeps_time_remaining; frame]|].
  intros. apply tidy_bind; [apply tidy_wait_for|].
  intros. apply tidy_of_calm; [apply calm_ret | apply appends_ret].
Qed.

Lemma tidy_baseline_loop (gas fuel : nat) (p : MPP.Params) (powers : list Q) :
  tidy (MPP.baseline_loop gas fuel p powers).
Proof.
  revert powers. induction fuel as [|f IH]; intros powers; simpl.
  - apply tidy_of_calm; [intros w Hw; now apply quiet_refl | apply appends_nothing; frame].
  - apply tidy_bind;
      [apply tidy_of_calm; [apply calm_time_time | apply appends_keeps, keeps_time_time; frame]|].
    intros. apply tidy_bind;
      [apply tidy_of_calm; [apply calm_getattr | apply appends_getattr]|].
    intros []; try (apply tidy_of_calm; [apply calm_raise | apply appends_raise]).
    destruct (Qlt_bool _ _).
    + apply tidy_bind; [apply tidy_cycle | intros; apply IH].
    + apply tidy_of_calm; [apply calm_ret | apply appends_ret].
Qed.

Lemma tidy_probe_loop (gas n : nat) (p : MPP.Params) (powers : list Q) :
  tidy (MPP.probe_loop gas n p powers).
Proof.
  revert powers. induction n as [|n IH]; intros powers; simpl.
  - apply tidy_of_calm; [apply calm_ret | apply appends_ret].
  - apply tidy_bind; [apply tidy_cycle | intros; apply IH].
Qed.

Lemma tidy_get_source_voltage : tidy MPP.get_source_voltage.
Proof. apply tidy_of_calm; [apply calm_get_source_voltage | apply nos_get_source_voltage]. Qed.

Lemma tidy_set_source_voltage (v : Q) : tidy (MPP.set_source_voltage v).
Proof.
  apply tidy_of_calm; [apply calm_set_source_voltage | apply nos_set_source_voltage].
Qed.

Lemma tidy_loop_body (gas : nat) (p : MPP.Params) (dir : Z) : tidy (MPP.loop_body gas p dir).
Proof.
  unfold MPP.loop_body, MPP._baseline, MPP._probe.
  apply tidy_bind.
  - apply tidy_bind.
    + apply tidy_try_except.
      * apply tidy_of_calm; [calm_tac | nos_tac].
      * intros []; apply tidy_of_calm; try (calm_tac; fail); try (nos_tac; fail).
    + intros. apply tidy_bind; [apply tidy_baseline_loop|].
      intros. apply tidy_bind; [apply tidy_get_source_voltage|].
      intros. apply tidy_of_calm; [apply calm_ret | apply appends_ret].
  - intros. apply tidy_bind.
    + apply tidy_bind; [apply tidy_get_source_voltage|].
      intros. apply tidy_bind; [apply tidy_set_source_voltage|].
      intros. apply tidy_bind; [apply tidy_get_source_voltage|].
      intros. apply tidy_bind; [apply tidy_probe_loop|].
      intros. apply tidy_bind;
        [apply tidy_of_calm;
           [apply calm_time_time | apply appends_keeps, keeps_time_time; frame]|].
      intros. apply tidy_bind;
        [apply tidy_of_calm; [apply calm_setattr; discriminate | apply appends_setattr]|].
      intros. apply tidy_bind; [apply tidy_get_source_voltage|].
      intros. apply tidy_of_calm; [apply calm_ret | apply appends_ret].
    + intros. apply tidy_of_calm; [apply calm_decision | apply nos_decision].
Qed.

Lemma tidy_mpp_execute_loop (gas fuel : nat) (p : MPP.Params) (dir : Z) :
  tidy (MPP.execute_loop gas fuel p dir).
Proof.
  revert dir. induction fuel as [|f IH]; intros dir; simpl.
  - apply tidy_of_calm; [intros w Hw; now apply quiet_refl | apply appends_nothing; frame].
  - apply tidy_bind;
      [apply tidy_of_calm;
         [apply calm_mpp_progress | apply appends_keeps, keeps_mpp_progress; frame]|].
    intros pr. destruct (Qlt_bool pr 1).
    + apply tidy_bind; [apply tidy_loop_body | intros; apply IH].
    + apply tidy_of_calm; [apply calm_ret | apply appends_ret].
Qed.

(** X21. In a run of the tracker's [execute] on a procedure that holds
    an instrument, a shutdown call appears in the driver log only if some
    poll of the stop flag answered [True]: no failure of a driver call and
    no other event makes the tracker shut the instrument down. *)
Theorem mpp_shutdown_only_on_stop (gas : nat) (p : MPP.Params) (w : World) :
  instr_set w ->
  exists l,
    oplog (snd (MPP.execute gas p w)) = oplog w ++ l /\
    (In Shutdown l -> stop_observed w (snd (MPP.execute gas p w))).
Proof.
  intros Hw.
  assert (Ht : tidy (K.call EnableSource ;;
                     MPP.set_source_voltage (MPP.initial_voltage p) ;;
                     MPP.execute_loop gas gas p 1%Z)).
  { apply tidy_bind; [apply tidy_of_calm; [apply calm_call | apply appends_call; discriminate]|].
    intros. apply tidy_bind; [apply tidy_set_source_voltage|].
    intros. apply tidy_mpp_execute_loop. }
  rewrite mpp_execute_begins.
  destruct (Ht _ (begun_instr (60 * MPP.run_time p) w Hw)) as (Hs & Hi & Hp & l & Hl & Hn).
  exists l. split; [exact Hl|].
  intros Hin. unfold stop_observed.
  set (w' := snd _) in *.
  change (polls (begun (60 * MPP.run_time p) w)) with (polls w) in *.
  change (stop_signal (begun (60 * MPP.run_time p) w)) with (stop_signal w) in *.
  assert (Hdec : forall n, n <= polls w' - polls w ->
            (exists k, polls w <= k < polls w + n /\ stop_signal w k = true) \/
            (forall k, polls w <= k < polls w + n -> stop_signal w k = false)).
  { induction n as [|n IHn]; intros Hle.
    - right. intros k Hk. lia.
    - destruct IHn as [(k & Hk & Ht') | Hall]; [lia | |].
      + left. exists k. split; [lia | exact Ht'].
      + destruct (stop_signal w (polls w + n)) eqn:E.
        * left. exists (polls w + n). split; [lia | exact E].
        * right. intros k Hk. destruct (Nat.eq_dec k (polls w + n)) as [-> | Hne];
            [exact E | apply Hall; lia]. }
  destruct (Hdec (polls w' - polls w) (Nat.le_refl _)) as [(k & Hk & Ht') | Hall].
  - exists k. split; [lia | exact Ht'].
  - exfalso. apply Hn; [|exact Hin]. intros k Hk. apply Hall. lia.
Qed.

Lemma mpp_shutdown_only_on_stop_witness :
  exists l,
    oplog (snd (MPP.execute 5 Bench.mpp Bench.world_stopping)) = l /\
    In Shutdown l /\
    stop_observed Bench.world_stopping (snd (MPP.execute 5 Bench.mpp Bench.world_stopping)).
Proof.
  destruct (mpp_shutdown_only_on_stop 5 Bench.mpp Bench.world_stopping) as (l & Hl & H).
  - vm_compute. reflexivity.
  - exists l. split; [exact Hl|].
    assert (Hin : In Shutdown l).
    { assert (E : oplog (snd (MPP.execute 5 Bench.mpp Bench.world_stopping))
                  = [] ++ [EnableSource; SetSourceVoltage 0; GetSourceVoltage;
                           GetSourceVoltage; SetSourceVoltage (0 + 1 * (5 # 100));
                           GetSourceVoltage; ConfigBuffer 1; StartBuffer; WaitForBuffer;
                           ReadBuffer; Shutdown]) by (vm_compute; reflexivity).
      rewrite Hl in E. simpl in E. rewrite E. simpl. tauto. }
    split; [exact Hin | exact (H Hin)].
Defined.

(** *** The JV sweep *)

Lemma call_returns (o : op) (w w' : World) (i : nat) :
  K.call o w = (Ret i, w') ->
  instr_set w /\ w' = log_op o w /\ i = length (oplog w).
Proof.
  unfold K.call, bind, K.instrument, K.attr_or_None, try_except, getattr, instr_set.
  destruct (attrs w !! K.instrument_attr) as [[| | |]|] eqn:E; simpl; try discriminate.
  unfold dev. destruct (fault w (length (oplog w))); [discriminate|].
  intros [= <- <-]. auto.
Qed.

Lemma ask_returns (cmd : string) (w w' : World) (s : string) :
  K.ask cmd w = (Ret s, w') ->
  instr_set w /\ w' = log_op (Ask cmd) w /\ s = reply w (length (oplog w)).
Proof.
  unfold K.ask. unfold bind at 1.
  destruct (K.call (Ask cmd) w) as [[i| |] w1] eqn:E; try discriminate.
  destruct (call_returns _ _ _ _ E) as (Hi & -> & ->).
  intros [= <- <-]. auto.
Qed.

(** The world after the rows of a sweep have been emitted. *)
Lemma emit_rows_emits (els : list string) (iv ic : nat) (rows : list (list Q)) (w : World) :
  attrs w !! K.elements_attr = Some (VElems els) ->
  index "VOLT" els = Some iv ->
  index "CURR" els = Some ic ->
  exists w',
    JVS.emit_rows rows w = (Ret tt, w') /\
    attrs w' = attrs w /\
    oplog w' = oplog w /\
    emitted w' =
      emitted w ++ map (fun r => jv_emitted (nth iv r 0%Q) (nth ic r 0%Q)) rows.
Proof.
  intros He Hv Hc. revert w He.
  induction rows as [|r rows IH]; intros w He; simpl.
  - exists w. rewrite app_nil_r. auto.
  - assert (Ev : MPP.elements_index "VOLT" w = (Ret iv, w)).
    { unfold MPP.elements_index, bind, K.elements.
      rewrite (attr_or_None_present _ _ _ He). now rewrite Hv. }
    assert (Ec : MPP.elements_index "CURR" w = (Ret ic, w)).
    { unfold MPP.elements_index, bind, K.elements.
      rewrite (attr_or_None_present _ _ _ He). now rewrite Hc. }
    unfold bind at 1. rewrite Ev. unfold bind at 1. rewrite Ec.
    unfold bind at 1. unfold emit at 1.
    destruct (IH (add_row (jv_emitted (nth iv r 0%Q) (nth ic r 0%Q)) w) He)
      as (w' & E & Ha & Ho & Hem).
    exists w'. unfold jv_emitted in E at 1. split; [exact E|].
    split; [exact Ha|]. split; [exact Ho|].
    rewrite Hem. simpl. now rewrite <- app_assoc.
Qed.

Lemma to_floats_length (float64 : string -> option Q) (fields : list string) (l : list Q) :
  JVS.to_floats float64 fields = Some l -> length l = length fields.
Proof.
  revert l. induction fields as [|f fields IH]; intros l; simpl.
  - now intros [= <-].
  - destruct (float64 f); [|discriminate].
    destruct (JVS.to_floats float64 fields); [|discriminate].
    intros [= <-]. simpl. now rewrite (IH _ eq_refl).
Qed.

(** X22. A sweep asked for a direction other than [1] and [-1] raises
    its [ValueError] before anything is sent to the instrument: the world
    is as it was. *)
Theorem sweep_rejects_direction (float64 : string -> option Q) (d : Z) (w : World) :
  d <> 1%Z -> d <> (-1)%Z ->
  JVS._sweep float64 d w = (Raise JVS.direction_error, w).
Proof.
  intros H1 H2. unfold JVS._sweep. unfold bind at 1.
  apply Z.eqb_neq in H1, H2. rewrite H1, H2. reflexivity.
Qed.

Lemma sweep_rejects_direction_witness :
  JVS._sweep Rig.float12 2 (Rig.jv_world "1,2") =
    (Raise JVS.direction_error, Rig.jv_world "1,2").
Proof. apply sweep_rejects_direction; lia. Defined.

(** What a sweep that returns has done to the driver log and to the
    emitted rows. *)
Lemma sweep_returns (float64 : string -> option Q) (d : Z) (w w' : World) :
  JVS._sweep float64 d w = (Ret tt, w') ->
  (d = 1%Z \/ d = (-1)%Z) /\
  oplog w' =
    oplog w ++ [Write (if (d =? 1)%Z then ":source:sweep:direction up"
                       else ":source:sweep:direction down");
                Write "initiate"; Ask "fetch?"] /\
  exists els iv ic rows,
    attrs w !! K.elements_attr = Some (VElems els) /\
    index "VOLT" els = Some iv /\
    index "CURR" els = Some ic /\
    rows <> [] /\
    Forall (fun r => length r = length els) rows /\
    JVS.to_floats float64 (split "," (reply w (length (oplog w) + 2))) = Some (concat rows) /\
    emitted w' =
      emitted w ++ map (fun r => jv_emitted (nth iv r 0%Q) (nth ic r 0%Q)) rows.
Proof.
  intros H. unfold JVS._sweep in H. unfold bind at 1 in H.
  set (cmd := if (d =? 1)%Z then ":source:sweep:direction up"
              else ":source:sweep:direction down").
  assert (Hd : (d = 1%Z \/ d = (-1)%Z) /\
               exists w1, K.call (Write cmd) w = (Ret (length (oplog w)), w1) /\
                          w1 = log_op (Write cmd) w /\ instr_set w /\
                          (K.call (Write "initiate") ;;
                           rt <- getattr "run_time" ;;
                           match rt with
                           | VNum t => sleep (t * (11 # 10))%Q
                           | _ => raise (TypeError "unsupported operand type(s) for *")
                           end ;;
                           data <- K.ask "fetch?" ;;
                           data <- JVS.format_data_str float64 data ;;
                           JVS.emit_rows data) w1 = (Ret tt, w')).
  { subst cmd. destruct (d =? 1)%Z eqn:E1.
    - apply Z.eqb_eq in E1. split; [now left|].
      unfold bind at 1 in H.
      destruct (K.call _ w) as [[i| |] w1] eqn:Ec; try discriminate.
      destruct (call_returns _ _ _ _ Ec) as (Hi & Hw1 & ->).
      exists w1. auto.
    - destruct (d =? -1)%Z eqn:E2; [|discriminate].
      apply Z.eqb_eq in E2. split; [now right|].
      unfold bind at 1 in H.
      destruct (K.call _ w) as [[i| |] w1] eqn:Ec; try discriminate.
      destruct (call_returns _ _ _ _ Ec) as (Hi & Hw1 & ->).
      exists w1. auto. }
  clear H. destruct Hd as (Hd & w1 & _ & Hw1 & Hi & H).
  split; [exact Hd|].
  unfold bind at 1 in H.
  destruct (K.call (Write "initiate") w1) as [[i| |] w2] eqn:Ec2; try discriminate.
  destruct (call_returns _ _ _ _ Ec2) as (Hi1 & Hw2 & _).
  unfold bind at 1 in H. unfold getattr at 1 in H.
  destruct (attrs w2 !! "run_time") as [[|t| |]|]; try discriminate.
  unfold bind at 1 in H. unfold sleep at 1 in H.
  destruct (Qlt_bool (t * (11 # 10)) 0); [discriminate|].
  unfold ret at 1 in H. cbv beta iota in H.
  unfold bind at 1 in H.
  destruct (K.ask "fetch?" w2) as [[s| |] w3] eqn:Ea; try discriminate.
  destruct (ask_returns _ _ _ _ Ea) as (Hi2 & Hw3 & Hs).
  unfold bind at 1 in H. unfold JVS.format_data_str at 1 in H.
  destruct (JVS.to_floats float64 (split "," s)) as [l|] eqn:Ef; [|discriminate].
  destruct (K.format_data l w3) as [[rows| |] w4] eqn:Efd; try discriminate.
  destruct (format_data_shape _ _ _ _ Efd) as (-> & els & He & Hne & Hall & Hcat).
  assert (Hrows : rows <> []).
  { intros ->. simpl in Hcat. subst l.
    apply to_floats_length in Ef. simpl in Ef.
    pose proof (split_nonempty "," s) as Hs'.
    destruct (split "," s); [contradiction | discriminate]. }
  assert (Hat : attrs w3 = attrs w) by (subst w3 w2 w1; reflexivity).
  assert (Hol : oplog w3 = oplog w ++ [Write cmd; Write "initiate"; Ask "fetch?"]).
  { subst w3 w2 w1. simpl. now rewrite <- !app_assoc. }
  assert (Hem : emitted w3 = emitted w) by (subst w3 w2 w1; reflexivity).
  assert (Hrep : s = reply w (length (oplog w) + 2)).
  { rewrite Hs. subst w2 w1. simpl. rewrite !length_app. simpl.
    f_equal. lia. }
  destruct rows as [|r rows]; [contradiction|].
  assert (Hidx : exists iv ic, index "VOLT" els = Some iv /\ index "CURR" els = Some ic).
  { simpl in H. unfold bind at 1 in H.
    destruct (MPP.elements_index "VOLT" w3) as [[iv| |] wa] eqn:Ev; try discriminate.
    destruct (elements_index_found _ _ _ _ Ev) as (-> & els1 & He1 & Hv).
    unfold bind at 1 in H.
    destruct (MPP.elements_index "CURR" w3) as [[ic| |] wb] eqn:Ecu; try discriminate.
    destruct (elements_index_found _ _ _ _ Ecu) as (-> & els2 & He2 & Hc).
    assert (els1 = els) by congruence. assert (els2 = els) by congruence.
    subst. eauto. }
  destruct Hidx as (iv & ic & Hv & Hc).
  destruct (emit_rows_emits els iv ic (r :: rows) w3 He Hv Hc) as (wf & E & _ & Ho & Hm).
  rewrite E in H. injection H as <-.
  split; [rewrite Ho; exact Hol|].
  exists els, iv, ic, (r :: rows).
  rewrite <- Hat. split; [exact He|]. split; [exact Hv|]. split; [exact Hc|].
  split; [exact Hrows|]. split; [exact Hall|].
  split; [rewrite Hcat, <- Hrep; exact Ef|].
  rewrite Hm, Hem. reflexivity.
Qed.

(** X23. A sweep that returns has sent exactly three commands - the
    direction that matches its argument, [initiate] and [fetch?] - and has
    emitted, in order, one row per row of the formatted answer, and at
    least one; each emitted row carries the VOLT and CURR fields of its
    row and their product as the power. *)
Theorem sweep_emits_rows (float64 : string -> option Q) (d : Z) (w w' : World) :
  JVS._sweep float64 d w = (Ret tt, w') ->
  (d = 1%Z \/ d = (-1)%Z) /\
  oplog w' =
    oplog w ++ [Write (if (d =? 1)%Z then ":source:sweep:direction up"
                       else ":source:sweep:direction down");
                Write "initiate"; Ask "fetch?"] /\
  exists els iv ic rows,
    attrs w !! K.elements_attr = Some (VElems els) /\
    index "VOLT" els = Some iv /\
    index "CURR" els = Some ic /\
    rows <> [] /\
    Forall (fun r => length r = length els) rows /\
    JVS.to_floats float64 (split "," (reply w (length (oplog w) + 2))) = Some (concat rows) /\
    emitted w' =
      emitted w ++ map (fun r => jv_emitted (nth iv r 0%Q) (nth ic r 0%Q)) rows.
Proof. exact (sweep_returns float64 d w w'). Qed.

Lemma sweep_emits_rows_witness :
  exists w',
    JVS._sweep Rig.float12 (-1) (Rig.jv_world "1,2,2,1") = (Ret tt, w') /\
    oplog w' = [Write ":source:sweep:direction down"; Write "initiate"; Ask "fetch?"] /\
    emitted w' = [jv_emitted 1 2; jv_emitted 2 1].
Proof.
  destruct (JVS._sweep Rig.float12 (-1) (Rig.jv_world "1,2,2,1")) as [r w'] eqn:E.
  assert (Er : r = Ret tt).
  { apply (f_equal fst) in E. vm_compute in E. now subst r. }
  subst r. exists w'. split; [reflexivity|].
  pose proof (sweep_emits_rows Rig.float12 (-1) _ _ E) as (_ & Hol & _).
  split; [exact Hol|].
  apply (f_equal (fun x => emitted (snd x))) in E. simpl in E. rewrite <- E.
  vm_compute. reflexivity.
Defined.

(** X24. A JV scan that returns has enabled the source and swept
    upwards; with [full_sweep] set it has then swept downwards as well,
    and nothing else was sent to the instrument.  Every sweep emitted at
    least one row. *)
Theorem jv_execute_order (float64 : string -> option Q) (p : JV.Params) (w w' : World) :
  JVS.execute float64 p w = (Ret tt, w') ->
  oplog w' =
    oplog w
    ++ [EnableSource; Write ":source:sweep:direction up"; Write "initiate"; Ask "fetch?"]
    ++ (if JV.full_sweep p
        then [Write ":source:sweep:direction down"; Write "initiate"; Ask "fetch?"]
        else []) /\
  length (emitted w) + (if JV.full_sweep p then 2 else 1) <= length (emitted w').
Proof.
  unfold JVS.execute, K.execute. unfold bind at 1. unfold ret at 1. cbv beta iota.
  unfold bind at 1.
  destruct (K.call EnableSource w) as [[i| |] w1] eqn:Ec; try discriminate.
  destruct (call_returns _ _ _ _ Ec) as (_ & Hw1 & _).
  unfold bind at 1.
  destruct (JVS._sweep float64 1 w1) as [[[]| |] w2] eqn:Es; try discriminate.
  destruct (sweep_returns _ _ _ _ Es)
    as (_ & Hol & els & iv & ic & rows & _ & _ & _ & Hne & _ & _ & Hem).
  assert (Hlen : length (emitted w) + 1 <= length (emitted w2)).
  { rewrite Hem, length_app, length_map. subst w1. simpl.
    destruct rows; [contradiction | simpl; lia]. }
  assert (Hol2 : oplog w2 = oplog w ++ [EnableSource; Write ":source:sweep:direction up";
                                        Write "initiate"; Ask "fetch?"]).
  { rewrite Hol. subst w1. simpl. now rewrite <- app_assoc. }
  destruct (JV.full_sweep p).
  - unfold bind at 1. unfold sleep.
    destruct (Qlt_bool (JV.settle_time p) 0); [discriminate|].
    unfold ret at 1. intros Es2.
    destruct (sweep_returns _ _ _ _ Es2)
      as (_ & Hol' & els' & iv' & ic' & rows' & _ & _ & _ & Hne' & _ & _ & Hem').
    split.
    + rewrite Hol', Hol2. simpl. now rewrite <- app_assoc.
    + rewrite Hem', length_app, length_map.
      destruct rows'; [contradiction | simpl; lia].
  - intros [= <-]. split; [rewrite Hol2; now rewrite app_nil_r | exact Hlen].
Qed.

Lemma jv_execute_order_witness :
  exists w',
    JVS.execute Rig.float12 Rig.jv (Rig.jv_world "1,2,2,1") = (Ret tt, w') /\
    oplog w' =
      [EnableSource; Write ":source:sweep:direction up"; Write "initiate"; Ask "fetch?";
       Write ":source:sweep:direction down"; Write "initiate"; Ask "fetch?"].
Proof.
  destruct (JVS.execute Rig.float12 Rig.jv (Rig.jv_world "1,2,2,1")) as [r w'] eqn:E.
  assert (Er : r = Ret tt).
  { apply (f_equal fst) in E. vm_compute in E. now subst r. }
  subst r. exists w'. split; [reflexivity|].
  exact (proj1 (jv_execute_order Rig.float12 Rig.jv _ _ E)).
Defined.

(** *** main.py: the values handed from one stage to the next *)

Section ArgFirst.

(** [better x best]: [x] replaces the best value seen so far. *)
Variable better : Q -> Q -> bool.
Hypothesis better_asym : forall x y, better x y = true -> better y x = false.
Hypothesis better_over :
  forall x y b, better x b = true -> better y b = false -> better x y = true.

Lemma arg_first_spec (l pre : list Q) (best_i : nat) (best : Q) :
  best_i < length pre ->
  nth best_i pre 0%Q = best ->
  (forall y, In y pre -> better y best = false) ->
  (forall j, j < best_i -> better best (nth j pre 0%Q) = true) ->
  let r := Main_Stages.arg_first better l (length pre) best_i best in
  r < length (pre ++ l) /\
  (forall y, In y (pre ++ l) -> better y (nth r (pre ++ l) 0%Q) = false) /\
  (forall j, j < r -> better (nth r (pre ++ l) 0%Q) (nth j (pre ++ l) 0%Q) = true).
Proof.
  revert pre best_i best. induction l as [|x t IH]; intros pre best_i best Hlt Hn Hall Hfirst; simpl.
  - rewrite app_nil_r. rewrite Hn. auto.
  - assert (Hirr : better x x = false).
    { destruct (better x x) eqn:E; [|reflexivity]. now rewrite (better_asym _ _ E) in E. }
    assert (Hlen : S (length pre) = length (pre ++ [x])).
    { rewrite length_app. simpl. lia. }
    replace (pre ++ x :: t) with ((pre ++ [x]) ++ t) by (now rewrite <- app_assoc).
    rewrite Hlen.
    destruct (better x best) eqn:E.
    + apply IH.
      * lia.
      * rewrite app_nth2 by lia. now rewrite Nat.sub_diag.
      * intros y Hy. apply in_app_or in Hy. destruct Hy as [Hy | [<- | []]]; [|exact Hirr].
        apply better_asym. apply (better_over _ _ best E). now apply Hall.
      * intros j Hj. rewrite app_nth1 by lia.
        apply (better_over _ _ best E). apply Hall. apply nth_In. lia.
    + apply IH.
      * rewrite <- Hlen. lia.
      * rewrite app_nth1 by lia. exact Hn.
      * intros y Hy. apply in_app_or in Hy. destruct Hy as [Hy | [<- | []]]; [|exact E].
        now apply Hall.
      * intros j Hj. rewrite app_nth1 by lia. now apply Hfirst.
Qed.

End ArgFirst.

Lemma idx_extreme (better : Q -> Q -> bool) (x : Q) (t : list Q) :
  (forall x y, better x y = true -> better y x = false) ->
  (forall x y b, better x b = true -> better y b = false -> better x y = true) ->
  let r := Main_Stages.arg_first better t 1 0 x in
  r < length (x :: t) /\
  (forall y, In y (x :: t) -> better y (nth r (x :: t) 0%Q) = false) /\
  (forall j, j < r -> better (nth r (x :: t) 0%Q) (nth j (x :: t) 0%Q) = true).
Proof.
  intros Ha Ho.
  apply (arg_first_spec better Ha Ho t [x] 0 x).
  - simpl. lia.
  - reflexivity.
  - intros y [<- | []]. destruct (better x x) eqn:E; [|reflexivity].
    now rewrite (Ha _ _ E) in E.
  - intros j Hj. lia.
Qed.

(** X26. From a JV table with at least one row, the tracker is seeded
    with the voltage of the first row of extreme power: the largest power
    in power-production mode, the smallest otherwise.  No row beats the
    chosen one and every earlier row is strictly worse. *)
Theorem v_mpp_extreme (ppm : bool) (jv_df : list Main_Stages.jv_row) :
  jv_df <> [] ->
  exists i r,
    nth_error jv_df i = Some r /\
    Main_Stages.v_mpp ppm jv_df = Some (Main_Stages.voltage r) /\
    (forall r', In r' jv_df ->
       if ppm then (Main_Stages.power r' <= Main_Stages.power r)%Q
       else (Main_Stages.power r <= Main_Stages.power r')%Q) /\
    (forall j r', j < i -> nth_error jv_df j = Some r' ->
       if ppm then (Main_Stages.power r' < Main_Stages.power r)%Q
       else (Main_Stages.power r < Main_Stages.power r')%Q).
Proof.
  intros Hne. destruct jv_df as [|r0 rest]; [contradiction|].
  set (df := r0 :: rest).
  set (better := if ppm then (fun y best => Qlt_bool best y)
                 else (fun y best => Qlt_bool y best)).
  assert (Ha : forall x y, better x y = true -> better y x = false).
  { intros x y. subst better. destruct ppm; intros H;
      apply Qlt_bool_iff in H; apply Qlt_bool_false; lra. }
  assert (Ho : forall x y b, better x b = true -> better y b = false -> better x y = true).
  { intros x y b. subst better. destruct ppm; intros H1 H2;
      apply Qlt_bool_iff in H1; apply Qlt_bool_false in H2; apply Qlt_bool_iff; lra. }
  pose proof (idx_extreme better (Main_Stages.power r0) (map Main_Stages.power rest) Ha Ho)
    as (Hlt & Hall & Hfirst).
  set (i := Main_Stages.arg_first better (map Main_Stages.power rest) 1 0
              (Main_Stages.power r0)) in *.
  change (Main_Stages.power r0 :: map Main_Stages.power rest)
    with (map Main_Stages.power df) in *.
  rewrite length_map in Hlt.
  destruct (nth_error df i) as [r|] eqn:En; [|apply nth_error_None in En; lia].
  assert (Hnth : forall j r', nth_error df j = Some r' ->
                   nth j (map Main_Stages.power df) 0%Q = Main_Stages.power r').
  { intros j r' Hj.
    rewrite (nth_indep _ 0%Q (Main_Stages.power r0))
      by (rewrite length_map; apply nth_error_Some; congruence).
    rewrite map_nth. f_equal. now apply nth_error_nth. }
  exists i, r. split; [exact En|]. split.
  - unfold Main_Stages.v_mpp, Main_Stages.idxmax, Main_Stages.idxmin.
    subst better df. destruct ppm; simpl map; cbv iota; fold i; rewrite En; reflexivity.
  - rewrite (Hnth _ _ En) in Hall, Hfirst. split.
    + intros r' Hin. specialize (Hall (Main_Stages.power r') (in_map _ _ _ Hin)).
      subst better. destruct ppm; apply Qlt_bool_false in Hall; exact Hall.
    + intros j r' Hj Hr'. specialize (Hfirst j Hj). rewrite (Hnth _ _ Hr') in Hfirst.
      subst better. destruct ppm; apply Qlt_bool_iff in Hfirst; exact Hfirst.
Qed.

Lemma v_mpp_extreme_witness :
  exists i r,
    nth_error Rig.jv_rows i = Some r /\
    Main_Stages.v_mpp false Rig.jv_rows = Some (Main_Stages.voltage r) /\
    (forall r', In r' Rig.jv_rows -> (Main_Stages.power r <= Main_Stages.power r')%Q) /\
    (forall j r', j < i -> nth_error Rig.jv_rows j = Some r' ->
       (Main_Stages.power r < Main_Stages.power r')%Q).
Proof. apply (v_mpp_extreme false Rig.jv_rows). discriminate. Defined.

(** X27. The time [main] allows the JV scan is never negative and does
    not depend on the direction of the scan: exchanging the start and the
    end voltage gives the same allowance. *)
Theorem jv_run_time_direction (p : JV.Params) (t : Q) :
  Main_Stages.jv_run_time p = Some t ->
  (0 <= t)%Q /\
  exists t', Main_Stages.jv_run_time (reversed p) = Some t' /\ (t' == t)%Q.
Proof.
  unfold Main_Stages.jv_run_time, reversed.
  cbn [JVScan_Procedure.start_voltage JVScan_Procedure.end_voltage
       JVScan_Procedure.voltage_step JVScan_Procedure.settle_time
       JVScan_Procedure.buffer_points JVScan_Procedure.full_sweep].
  cbv zeta.
  destruct (Qeq_bool (JV.voltage_step p) 0) eqn:E0; [discriminate|].
  set (k := (JV.settle_time p + inject_Z (JV.buffer_points p) * (2 # 100))%Q).
  set (a := Qabs (k * (JV.end_voltage p - JV.start_voltage p) / JV.voltage_step p)).
  set (b := Qabs (k * (JV.start_voltage p - JV.end_voltage p) / JV.voltage_step p)).
  assert (Ha : (0 <= a)%Q) by apply Qabs_nonneg.
  assert (Hab : (b == a)%Q).
  { unfold a, b. rewrite <- (Qabs_opp (k * (JV.end_voltage p - JV.start_voltage p)
                                        / JV.voltage_step p)).
    apply Qabs_wd. field. intros H. apply Qeq_bool_neq in E0. contradiction. }
  clearbody a b. intros [= <-]. split.
  - destruct (JV.full_sweep p); lra.
  - eexists. split; [reflexivity|]. destruct (JV.full_sweep p); lra.
Qed.

Lemma jv_run_time_direction_witness :
  (0 <= 220000 # 100000)%Q /\
  exists t',
    Main_Stages.jv_run_time (reversed Rig.jv) = Some t' /\ (t' == 220000 # 100000)%Q.
Proof.
  apply (jv_run_time_direction Rig.jv (220000 # 100000)).
  vm_compute. reflexivity.
Defined.
